(** * Hotel front-office planning: the scheduling core of [planning.py]

    A shallow embedding of the [Employee] dataclass and of the methods of
    [HotelPlanningSystem] that make up the scheduling core
    ([calculer_besoins_personnel], [verifier_faisabilite_planning],
    [generer_planning_optimise] with [_ajouter_contraintes] and
    [_extraire_planning], [analyser_planning], [_verifier_violations]),
    of the roster methods [ajouter_employe] and [supprimer_employe] and of
    [initialiser_equipe_conforme], followed by the properties proved about
    them. The Excel export and the Streamlit pages are input/output only
    and are not modelled.

    Conventions of the embedding:
    - Python [int] is [Z]; [len(l)] is [Z.of_nat (length l)].
    - The seven day names of [self.jours_semaine] and the three shift names
      are closed sets of string literals: they are the enumerations [Jour]
      and [Shift], with [nom_jour] and [nom_shift] giving the strings.
      Dictionaries keyed by these literals only ([besoins], [planning],
      [x[prenom]]) are total functions on the enumerations.
    - Dictionaries keyed by run-time strings (the forecasts, the decision
      table [x], [heures_par_employe]) are [gmap string _]; a subscript
      [d[k]] on them is a lookup in the [option] monad, [None] standing for
      Python's [KeyError].
    - [int(np.ceil(a / 50))] is the exact integer ceiling: the correctly
      rounded float quotient of Python has the same ceiling as the
      rational quotient whenever [|a| < 2^48]. *)

From Stdlib Require Import ZArith Lia.
From stdpp Require Import base option list strings gmap pretty.

Local Open Scope Z_scope.

(* ================================================================== *)
(** * MODELE DE DONNEES *)
(* ================================================================== *)

Module Employee.

(** The fields of the dataclass, in declaration order. *)
Record t := mk {
  prenom : string;
  nom : string;
  type_contrat : string;
  jours_semaine : Z;
  role : string;
  contraintes_speciales : gmap string string;
  competences : list string;
  disponible : bool;
  motif_indisponibilite : string;
  jours_absence : Z;
  jours_off_consecutifs : option bool
}.

(** The dataclass-generated [__eq__] compares the field tuples. *)
#[global] Instance eq_dec : EqDecision t.
Proof. solve_decision. Defined.

Definition set_jours_semaine (self : t) (n : Z) : t :=
  mk (prenom self) (nom self) (type_contrat self) n (role self)
     (contraintes_speciales self) (competences self) (disponible self)
     (motif_indisponibilite self) (jours_absence self)
     (jours_off_consecutifs self).

Definition set_jours_absence (self : t) (n : Z) : t :=
  mk (prenom self) (nom self) (type_contrat self) (jours_semaine self)
     (role self) (contraintes_speciales self) (competences self)
     (disponible self) (motif_indisponibilite self) n
     (jours_off_consecutifs self).

Definition __post_init__ (self : t) : t :=
  if decide (type_contrat self = "temps_plein") then set_jours_semaine self 5
  else if decide (type_contrat self = "mi_temps_4j") then set_jours_semaine self 4
  else if decide (type_contrat self = "mi_temps_3j") then set_jours_semaine self 3
  else if decide (type_contrat self = "nuit") then set_jours_semaine self 5
  else self.

(** [Employee(...)]: the generated [__init__] followed by [__post_init__]. *)
Definition new (prenom nom type_contrat : string) (jours_semaine : Z)
    (role : string) (contraintes_speciales : gmap string string)
    (competences : list string) (disponible : bool)
    (motif_indisponibilite : string) (jours_absence : Z)
    (jours_off_consecutifs : option bool) : t :=
  __post_init__
    (mk prenom nom type_contrat jours_semaine role contraintes_speciales
        competences disponible motif_indisponibilite jours_absence
        jours_off_consecutifs).

(** The property [jours_travail_max_semaine]. *)
Definition jours_travail_max_semaine (self : t) : Z :=
  if negb (disponible self) then 0
  else if 7 <=? jours_absence self then 0
  else Z.max 0 (jours_semaine self - jours_absence self).

End Employee.

(** An employee as the constructor leaves it: [jours_semaine] agrees with
    [type_contrat]. No code path of the repository assigns [type_contrat]
    or [jours_semaine] after construction. *)
Definition construit (emp : Employee.t) : Prop :=
  Employee.__post_init__ emp = emp.

(* ================================================================== *)
(** * SYSTEME DE PLANNING *)
(* ================================================================== *)

Inductive Jour := Lundi | Mardi | Mercredi | Jeudi | Vendredi | Samedi | Dimanche.
Inductive Shift := Matin | Apres_midi | Nuit.

#[global] Instance Jour_eq_dec : EqDecision Jour.
Proof. solve_decision. Defined.
#[global] Instance Shift_eq_dec : EqDecision Shift.
Proof. solve_decision. Defined.

Definition nom_jour (jour : Jour) : string :=
  match jour with
  | Lundi => "Lundi" | Mardi => "Mardi" | Mercredi => "Mercredi"
  | Jeudi => "Jeudi" | Vendredi => "Vendredi" | Samedi => "Samedi"
  | Dimanche => "Dimanche"
  end.

Definition nom_shift (shift : Shift) : string :=
  match shift with
  | Matin => "matin" | Apres_midi => "apres_midi" | Nuit => "nuit"
  end.

(** The attributes [__init__] sets; only [employees] is ever reassigned. *)
Record HotelPlanningSystem := { employees : list Employee.t }.

Definition clients_per_receptionist : Z := 50.
Definition max_receptionists_per_shift : Z := 4.
Definition nb_night_receptionists_required : Z := 2.
Definition jours_semaine : list Jour :=
  [Lundi; Mardi; Mercredi; Jeudi; Vendredi; Samedi; Dimanche].
(** The literal [['matin', 'apres_midi', 'nuit']] of the loops. *)
Definition shifts : list Shift := [Matin; Apres_midi; Nuit].

(** [jour in ['Samedi', 'Dimanche']] *)
Definition weekend (jour : Jour) : bool := bool_decide (jour ∈ [Samedi; Dimanche]).

Definition len {A} (l : list A) : Z := Z.of_nat (length l).

(** [int(np.ceil(a / b))] for [b > 0]. *)
Definition ceil_div (a b : Z) : Z := - ((- a) / b).

(** ** calculer_besoins_personnel *)

(** The inner dictionaries of [besoins[jour]]: the day shifts carry
    ['total_personnel'], ['min_superviseurs'], ['concierge']; the night
    carries ['receptionists'], ['superviseurs'], ['concierge']. *)
Record BesoinJour := {
  total_personnel : Z;
  min_superviseurs : Z;
  concierge : Z
}.
Record BesoinNuit := {
  receptionists : Z;
  nuit_superviseurs : Z;
  nuit_concierge : Z
}.
Record Besoin := {
  matin : BesoinJour;
  apres_midi : BesoinJour;
  nuit : BesoinNuit
}.

Definition receptionniste_nuit_dispo (e : Employee.t) : Prop :=
  Employee.role e = "receptionniste" ∧ Employee.type_contrat e = "nuit"
  ∧ Employee.disponible e = true.

#[global] Instance receptionniste_nuit_dispo_dec e : Decision (receptionniste_nuit_dispo e).
Proof. unfold receptionniste_nuit_dispo. apply _. Defined.

(** The body of the loop [for jour in self.jours_semaine]. *)
Definition besoins_du_jour (self : HotelPlanningSystem)
    (checkins checkouts : gmap string Z) (jour : Jour) : Besoin :=
  let nb_checkins := default 0 (checkins !! nom_jour jour) in
  let nb_checkouts := default 0 (checkouts !! nom_jour jour) in
  let besoin_total_matin := Z.max 1 (ceil_div nb_checkouts clients_per_receptionist) in
  let besoin_total_apres_midi := Z.max 1 (ceil_div nb_checkins clients_per_receptionist) in
  let max_personnel_disponible :=
    if negb (weekend jour) then max_receptionists_per_shift - 1
    else max_receptionists_per_shift in
  let besoin_total_matin := Z.min besoin_total_matin max_personnel_disponible in
  let besoin_total_apres_midi := Z.min besoin_total_apres_midi max_personnel_disponible in
  let total_activite := nb_checkins + nb_checkouts in
  let besoin_total_matin :=
    if total_activite <? 100 then Z.max 1 (besoin_total_matin - 1)
    else besoin_total_matin in
  let besoin_total_apres_midi :=
    if total_activite <? 100 then Z.max 1 (besoin_total_apres_midi - 1)
    else besoin_total_apres_midi in
  {| matin := {| total_personnel := besoin_total_matin;
                 min_superviseurs := 1;
                 concierge := if negb (weekend jour) then 1 else 0 |};
     apres_midi := {| total_personnel := besoin_total_apres_midi;
                      min_superviseurs := 1;
                      concierge := 0 |};
     nuit := {| receptionists :=
                  Z.min nb_night_receptionists_required
                        (len (filter receptionniste_nuit_dispo (employees self)));
                nuit_superviseurs := 0;
                nuit_concierge := 0 |} |}.

(** [besoins] has one entry per day of [self.jours_semaine]. *)
Definition calculer_besoins_personnel (self : HotelPlanningSystem)
    (checkins checkouts : gmap string Z) : Jour → Besoin :=
  λ jour, besoins_du_jour self checkins checkouts jour.

(** ** get_employees_disponibles *)

Definition get_employees_disponibles (self : HotelPlanningSystem) : list Employee.t :=
  filter (λ emp, Employee.disponible emp = true) (employees self).

(** ** verifier_faisabilite_planning *)

Record Stats := {
  total_disponibles : Z;
  superviseurs : Z;
  receptionnistes_jour : Z;
  receptionnistes_nuit : Z;
  concierges : Z
}.

Record Faisabilite := {
  faisable : bool;
  problemes : list string;
  recommandations : list string;
  stats : Stats
}.

Definition est_superviseur (e : Employee.t) : Prop := Employee.role e = "superviseur".
Definition est_receptionniste_jour (e : Employee.t) : Prop :=
  Employee.role e = "receptionniste" ∧ Employee.type_contrat e ≠ "nuit".
Definition est_receptionniste_nuit (e : Employee.t) : Prop :=
  Employee.role e = "receptionniste" ∧ Employee.type_contrat e = "nuit".
Definition est_concierge (e : Employee.t) : Prop := Employee.role e = "concierge".

#[global] Instance est_superviseur_dec e : Decision (est_superviseur e).
Proof. unfold est_superviseur. apply _. Defined.
#[global] Instance est_receptionniste_jour_dec e : Decision (est_receptionniste_jour e).
Proof. unfold est_receptionniste_jour. apply _. Defined.
#[global] Instance est_receptionniste_nuit_dec e : Decision (est_receptionniste_nuit e).
Proof. unfold est_receptionniste_nuit. apply _. Defined.
#[global] Instance est_concierge_dec e : Decision (est_concierge e).
Proof. unfold est_concierge. apply _. Defined.

Definition msg_aucun_superviseur : string :=
  "❌ CRITIQUE: Aucun superviseur disponible".
Definition msg_un_seul_superviseur : string :=
  "⚠️ Un seul superviseur disponible - couverture limitée".
Definition msg_aucun_nuit : string :=
  "❌ CRITIQUE: Aucun réceptionniste de nuit disponible".
Definition msg_un_seul_nuit : string :=
  "❌ CRITIQUE: Un seul réceptionniste de nuit disponible (2 requis)".
Definition msg_concierge_indisponible : string :=
  "⚠️ Concierge indisponible - service limité en semaine".
Definition msg_personnel_jour_insuffisant : string :=
  "❌ Personnel jour insuffisant (minimum 3 pour couvrir les shifts)".

(** The argument [besoins] is not read by the method. Every
    [l.append(m)] under a condition is a segment [if c then [m] else []]
    of the final list, in program order. *)
Definition verifier_faisabilite_planning (self : HotelPlanningSystem)
    (besoins : Jour → Besoin) : Faisabilite :=
  let employes_disponibles := get_employees_disponibles self in
  let superviseurs_dispo := filter est_superviseur employes_disponibles in
  let receptionnistes_jour_dispo := filter est_receptionniste_jour employes_disponibles in
  let receptionnistes_nuit_dispo := filter est_receptionniste_nuit employes_disponibles in
  let concierges_dispo := filter est_concierge employes_disponibles in
  let total_personnel_jour := len superviseurs_dispo + len receptionnistes_jour_dispo in
  let problemes :=
    (if len superviseurs_dispo <? 1 then [msg_aucun_superviseur] else [])
    ++ (if len receptionnistes_nuit_dispo <? 2 then
          if len receptionnistes_nuit_dispo =? 0 then [msg_aucun_nuit]
          else [msg_un_seul_nuit]
        else [])
    ++ (if total_personnel_jour <? 3 then [msg_personnel_jour_insuffisant] else []) in
  let recommandations :=
    (if len superviseurs_dispo <? 1 then []
     else if len superviseurs_dispo <? 2 then [msg_un_seul_superviseur] else [])
    ++ (if len concierges_dispo =? 0 then [msg_concierge_indisponible] else []) in
  {| faisable := bool_decide (length problemes = 0%nat);
     problemes := problemes;
     recommandations := recommandations;
     stats := {| total_disponibles := len employes_disponibles;
                 superviseurs := len superviseurs_dispo;
                 receptionnistes_jour := len receptionnistes_jour_dispo;
                 receptionnistes_nuit := len receptionnistes_nuit_dispo;
                 concierges := len concierges_dispo |} |}.

(** ** generer_planning_optimise: the decision model *)

(** An [LpVariable] object. [var_nom] is the name given to the
    constructor; [var_emp], [var_jour], [var_shift] tell in which
    iteration of the three creation loops the object was allocated
    ([var_emp] is the position of the employee in [self.employees]), so
    two objects are the same object exactly when these agree. *)
Record LpVariable := {
  var_nom : string;
  var_emp : nat;
  var_jour : Jour;
  var_shift : Shift
}.

Inductive Sens := LE | EQ | GE.

(** An [LpConstraint] [e <= c], [e == c] or [e >= c] whose expression is a
    sum of variables: [lpSum] of a list, [+] of two sums (concatenation),
    or a single variable. *)
Record LpConstraint := {
  expr : list LpVariable;
  sens : Sens;
  rhs : Z
}.

Record LpProblem := {
  objective : list LpVariable;
  constraints : list LpConstraint
}.

(** The table [x]: [x[prenom][jour][shift]]. *)
Abbreviation table := (gmap string (Jour → Shift → LpVariable)).

(** [LpVariable(f"x_{emp.prenom}_{jour}_{shift}", cat='Binary')], allocated
    in the iteration of the employee at position [i]. *)
Definition nouvelle_variable (i : nat) (emp : Employee.t) (jour : Jour)
    (shift : Shift) : LpVariable :=
  {| var_nom := "x_" +:+ Employee.prenom emp +:+ "_" +:+ nom_jour jour
                +:+ "_" +:+ nom_shift shift;
     var_emp := i; var_jour := jour; var_shift := shift |}.

(** The loop [for emp in self.employees: x[emp.prenom] = {} ...], started
    from the table [x] at position [i] of the roster. *)
Fixpoint variables_decision_depuis (i : nat) (l : list Employee.t) (x : table) : table :=
  match l with
  | [] => x
  | emp :: l' =>
      variables_decision_depuis (S i) l'
        (<[Employee.prenom emp := nouvelle_variable i emp]> x)
  end.

Definition variables_decision (self : HotelPlanningSystem) : table :=
  variables_decision_depuis 0 (employees self) ∅.

(** [x[emp.prenom][jour][shift]] *)
Definition lire (x : table) (emp : Employee.t) (jour : Jour) (shift : Shift)
    : option LpVariable :=
  t ← x !! Employee.prenom emp; Some (t jour shift).

(** A loop [for a in l: ...] whose body appends to one list: the
    elements appended, in order. *)
Definition pour_chaque {A B} (l : list A) (corps : A → option (list B))
    : option (list B) :=
  blocs ← mapM corps l; Some (concat blocs).

(** [lpSum([x[e.prenom][jour][shift] for e in l])] *)
Definition lpSum_employes (x : table) (l : list Employee.t) (jour : Jour)
    (shift : Shift) : option (list LpVariable) :=
  mapM (λ e, lire x e jour shift) l.

(** [lpSum([x[emp.prenom][jour][shift] for shift in ['matin', 'apres_midi', 'nuit']])] *)
Definition lpSum_shifts (x : table) (emp : Employee.t) (jour : Jour)
    : option (list LpVariable) :=
  mapM (λ shift, lire x emp jour shift) shifts.

(** [lpSum([lpSum([... for shift in ...]) for jour in js])] *)
Definition lpSum_jours (x : table) (emp : Employee.t) (js : list Jour)
    : option (list LpVariable) :=
  pour_chaque js (lpSum_shifts x emp).

Definition contrainte (e : list LpVariable) (s : Sens) (c : Z) : LpConstraint :=
  {| expr := e; sens := s; rhs := c |}.

(** [prob += x[emp.prenom][jour][shift] == 0] *)
Definition variable_nulle (x : table) (emp : Employee.t) (jour : Jour)
    (shift : Shift) : option (list LpConstraint) :=
  v ← lire x emp jour shift; Some [contrainte [v] EQ 0].

(** ** _ajouter_contraintes *)

Section ajouter_contraintes.
Context (self : HotelPlanningSystem) (x : table) (besoins : Jour → Besoin).

(** Listes des employés par type - SEULEMENT LES DISPONIBLES. The lists
    [superviseurs], [receptionnistes_jour], [receptionnistes_nuit] and
    [concierges] carry a trailing underscore, their names being those of
    the keys of ['stats']. *)
Let employes_disponibles := get_employees_disponibles self.
Let superviseurs_ := filter est_superviseur employes_disponibles.
Let receptionnistes_jour_ := filter est_receptionniste_jour employes_disponibles.
Let receptionnistes_nuit_ := filter est_receptionniste_nuit employes_disponibles.
Let concierges_ := filter est_concierge employes_disponibles.

(** Contrainte : les employés indisponibles ne peuvent pas être assignés *)
Definition contraintes_indisponibles : option (list LpConstraint) :=
  pour_chaque (employees self) (λ emp,
    if negb (Employee.disponible emp) then
      pour_chaque jours_semaine (λ jour,
        pour_chaque shifts (λ shift, variable_nulle x emp jour shift))
    else Some []).

(** The branch [shift == 'nuit'] of the coverage loop. *)
Definition contraintes_nuit (jour : Jour) : option (list LpConstraint) :=
  let shift := Nuit in
  let nb_requis := Z.min (receptionists (nuit (besoins jour))) (len receptionnistes_nuit_) in
  c_requis ← (if 0 <? nb_requis then
                s ← lpSum_employes x receptionnistes_nuit_ jour shift;
                Some [contrainte s EQ nb_requis]
              else Some []);
  let autres := filter (λ e, e ∉ receptionnistes_nuit_) employes_disponibles in
  c_autres ← pour_chaque autres (λ emp, variable_nulle x emp jour shift);
  Some (c_requis ++ c_autres).

(** The [else] branch of the coverage loop; [besoin] is
    [besoins[jour][shift]] of a day shift. *)
Definition contraintes_jour (jour : Jour) (shift : Shift) (besoin : BesoinJour)
    : option (list LpConstraint) :=
  c_superviseur ← (if 0 <? len superviseurs_ then
                     s ← lpSum_employes x superviseurs_ jour shift;
                     Some [contrainte s GE 1]
                   else Some []);
  let nb_besoin := total_personnel besoin in
  let personnel_jour_disponible := superviseurs_ ++ receptionnistes_jour_ in
  let nb_possible := Z.min nb_besoin (len personnel_jour_disponible) in
  c_personnel ← (if 0 <? nb_possible then
                   r ← lpSum_employes x receptionnistes_jour_ jour shift;
                   s ← lpSum_employes x superviseurs_ jour shift;
                   Some [contrainte (r ++ s) GE nb_possible]
                 else Some []);
  c_concierge ← (if negb (weekend jour) && bool_decide (shift = Matin)
                    && (0 <? len concierges_) then
                   s ← lpSum_employes x concierges_ jour shift;
                   Some [contrainte s EQ 1]
                 else pour_chaque concierges_ (λ c, variable_nulle x c jour shift));
  let tous_employes_jour := personnel_jour_disponible ++ concierges_ in
  c_maximum ← (if 0 <? len tous_employes_jour then
                 s ← lpSum_employes x tous_employes_jour jour shift;
                 Some [contrainte s LE max_receptionists_per_shift]
               else Some []);
  Some (c_superviseur ++ c_personnel ++ c_concierge ++ c_maximum).

(** Contraintes de couverture par shift *)
Definition contraintes_couverture : option (list LpConstraint) :=
  pour_chaque jours_semaine (λ jour,
    pour_chaque shifts (λ shift,
      match shift with
      | Nuit => contraintes_nuit jour
      | Matin => contraintes_jour jour Matin (matin (besoins jour))
      | Apres_midi => contraintes_jour jour Apres_midi (apres_midi (besoins jour))
      end)).

(** The windows [self.jours_semaine[i:i+6]] for
    [i in range(len(self.jours_semaine) - 5)]. *)
Definition fenetres : list (list Jour) :=
  (λ i, take 6 (drop i jours_semaine)) <$> seq 0 (length jours_semaine - 5).

(** The body of [for emp in employes_disponibles]. *)
Definition contraintes_employe (emp : Employee.t) : option (list LpConstraint) :=
  c_un_shift ← pour_chaque jours_semaine (λ jour,
                 s ← lpSum_shifts x emp jour; Some [contrainte s LE 1]);
  let jours_max_cette_semaine := Employee.jours_travail_max_semaine emp in
  c_semaine ← (s ← lpSum_jours x emp jours_semaine;
               Some [contrainte s LE jours_max_cette_semaine]);
  c_consecutifs ← pour_chaque fenetres (λ jours_seq,
                    s ← lpSum_jours x emp jours_seq; Some [contrainte s LE 5]);
  c_role ← (if decide (Employee.role emp = "concierge") then
              pour_chaque jours_semaine (λ jour,
                c_nuit ← variable_nulle x emp jour Nuit;
                c_apres_midi ← variable_nulle x emp jour Apres_midi;
                c_matin ← (if weekend jour then variable_nulle x emp jour Matin
                           else Some []);
                Some (c_nuit ++ c_apres_midi ++ c_matin))
            else Some []);
  Some (c_un_shift ++ c_semaine ++ c_consecutifs ++ c_role).

(** The constraints [prob += ...] adds, in program order. *)
Definition _ajouter_contraintes : option (list LpConstraint) :=
  c1 ← contraintes_indisponibles;
  c2 ← contraintes_couverture;
  c3 ← pour_chaque employes_disponibles contraintes_employe;
  Some (c1 ++ c2 ++ c3).

End ajouter_contraintes.

(** ** Values of the decision variables *)

(** What the solver leaves in the variables: [varValue v] tells whether
    [v.varValue == 1]. The variables are binary, so a solution gives a
    variable the value 1 or 0. *)
Definition valeur (varValue : LpVariable → bool) (v : LpVariable) : Z :=
  if varValue v then 1 else 0.

Definition somme (varValue : LpVariable → bool) (e : list LpVariable) : Z :=
  foldr (λ v acc, valeur varValue v + acc) 0 e.

Definition satisfait (varValue : LpVariable → bool) (c : LpConstraint) : bool :=
  match sens c with
  | LE => somme varValue (expr c) <=? rhs c
  | EQ => somme varValue (expr c) =? rhs c
  | GE => rhs c <=? somme varValue (expr c)
  end.

Definition solution (varValue : LpVariable → bool) (cs : list LpConstraint) : bool :=
  forallb (satisfait varValue) cs.

(** ** _extraire_planning *)

(** The dictionaries appended to [planning[jour][shift]]. *)
Record Affectation := {
  a_prenom : string;
  a_nom : string;
  a_role : string;
  a_type_contrat : string
}.

Abbreviation Planning := (Jour → Shift → list Affectation).

Definition fiche (emp : Employee.t) : Affectation :=
  {| a_prenom := Employee.prenom emp; a_nom := Employee.nom emp;
     a_role := Employee.role emp; a_type_contrat := Employee.type_contrat emp |}.

(** [planning[jour][shift]] receives the employees of the roster, in
    roster order, whose variable has value 1. The only subscripts that
    can fail are [x[emp.prenom]], one per employee; they are resolved
    first, and the loops over the days and the shifts become the
    arguments of the result. *)
Definition _extraire_planning (self : HotelPlanningSystem) (x : table)
    (varValue : LpVariable → bool) : option Planning :=
  lignes ← mapM (λ emp, t ← x !! Employee.prenom emp; Some (emp, t)) (employees self);
  Some (λ jour shift,
          (fiche ∘ fst) <$> filter (λ et, varValue (et.2 jour shift) = true) lignes).

(** ** generer_planning_optimise *)

Section generer.
(** [prob.solve()]: the external solver. [Some varValue] when the call
    returns, whatever the status, [varValue] being the values it leaves
    in the variables; [None] when the call raises, as pulp does
    ([PulpSolverError]) when the solver cannot be run or refuses the
    model, for instance when two variables of the problem end up with
    the same name. *)
Variable solve : LpProblem → option (LpVariable → bool).

Definition probleme (self : HotelPlanningSystem) (checkins checkouts : gmap string Z)
    : option LpProblem :=
  let besoins := calculer_besoins_personnel self checkins checkouts in
  let x := variables_decision self in
  obj ← pour_chaque (employees self) (λ emp, lpSum_jours x emp jours_semaine);
  cs ← _ajouter_contraintes self x besoins;
  Some {| objective := obj; constraints := cs |}.

(** The argument [semaine_debut] is not read by the method. The warning
    shown when [prob.status != 1] does not change the result: the
    variables are read whatever the status. An exception raised by
    [prob.solve()] is not caught and ends the method. *)
Definition generer_planning_optimise (self : HotelPlanningSystem)
    (checkins checkouts : gmap string Z) : option Planning :=
  prob ← probleme self checkins checkouts;
  varValue ← solve prob;
  _extraire_planning self (variables_decision self) varValue.
End generer.

(** ** analyser_planning *)

(** [any(e['prenom'] == emp.prenom for e in planning[jour][shift])] *)
Definition present (planning : Planning) (emp : Employee.t) (jour : Jour)
    (shift : Shift) : bool :=
  existsb (λ e, bool_decide (a_prenom e = Employee.prenom emp)) (planning jour shift).

(** The entry of [analyse['heures_par_employe']]; the keys ['role'],
    ['type_contrat'] and ['shifts'] carry the prefix [h_]. *)
Record HeuresEmploye := {
  heures : Z;
  jours_travailles : Z;
  jours_contractuels : Z;
  respect_contrat : bool;
  h_role : string;
  h_type_contrat : string;
  h_shifts : list string
}.

(** The loop [for shift in ['matin', 'apres_midi', 'nuit']] of one day, on
    the state [(heures, jour_travaille, shifts_travailles)]. *)
Definition compter_shifts (planning : Planning) (emp : Employee.t) (jour : Jour)
    (etat : Z * bool * list string) : Z * bool * list string :=
  fold_left (λ '(heures, jour_travaille, shifts_travailles) shift,
               if present planning emp jour shift then
                 ((if decide (shift = Nuit) then heures + 8 else heures + 8),
                  true,
                  shifts_travailles ++ [nom_jour jour +:+ "_" +:+ nom_shift shift])
               else (heures, jour_travaille, shifts_travailles))
            shifts etat.

(** The loop [for jour in self.jours_semaine] of one employee, on the
    state [(heures, jours_travailles, shifts_travailles)]. *)
Definition compter_jours (planning : Planning) (emp : Employee.t) (js : list Jour)
    (etat : Z * Z * list string) : Z * Z * list string :=
  fold_left (λ '(heures, jours_travailles, shifts_travailles) jour,
               let '(heures, jour_travaille, shifts_travailles) :=
                 compter_shifts planning emp jour (heures, false, shifts_travailles) in
               (heures,
                (if jour_travaille then jours_travailles + 1 else jours_travailles),
                shifts_travailles))
            js etat.

(** The dictionary stored under [f"{emp.prenom} {emp.nom}"]. *)
Definition heures_de (planning : Planning) (emp : Employee.t) : HeuresEmploye :=
  let '(heures, jours_travailles, shifts_travailles) :=
    compter_jours planning emp jours_semaine (0, 0, []) in
  {| heures := heures;
     jours_travailles := jours_travailles;
     jours_contractuels := Employee.jours_semaine emp;
     respect_contrat := jours_travailles <=? Employee.jours_semaine emp;
     h_role := Employee.role emp;
     h_type_contrat := Employee.type_contrat emp;
     h_shifts := shifts_travailles |}.

(** [f"{emp.prenom} {emp.nom}"] *)
Definition nom_complet (emp : Employee.t) : string :=
  Employee.prenom emp +:+ " " +:+ Employee.nom emp.

(** The entry of [analyse['couverture_par_shift']]. *)
Record Couverture := {
  c_total : Z;
  c_receptionnistes : Z;
  c_superviseurs : Z;
  c_concierge : Z;
  c_equipe : list string
}.

Definition couverture_de (equipe : list Affectation) : Couverture :=
  {| c_total := len equipe;
     c_receptionnistes := len (filter (λ e, a_role e = "receptionniste") equipe);
     c_superviseurs := len (filter (λ e, a_role e = "superviseur") equipe);
     c_concierge := len (filter (λ e, a_role e = "concierge") equipe);
     c_equipe := (λ e, a_prenom e +:+ " " +:+ a_nom e +:+ " (" +:+ a_role e +:+ ")")
                 <$> equipe |}.

(** ** _verifier_violations *)

(** One constructor per message appended to [violations]; the arguments
    are the values interpolated in the f-string, and [texte] gives the
    string. *)
Inductive Violation :=
  | V_superviseur (jour : Jour) (shift : Shift) (trouve : Z)
  | V_concierge_obligatoire (jour : Jour) (shift : Shift) (trouve : Z)
  | V_concierge_apres_midi (jour : Jour) (shift : Shift)
  | V_concierge_weekend (jour : Jour) (shift : Shift)
  | V_maximum (jour : Jour) (shift : Shift) (maximum trouve : Z)
  | V_minimum (jour : Jour) (shift : Shift) (trouve : Z)
  | V_nuit_receptionnistes (jour : Jour) (requis trouve : Z)
  | V_nuit_superviseur (jour : Jour)
  | V_nuit_concierge (jour : Jour)
  | V_contrat (prenom nom : string) (jours_travailles jours_semaine : Z).

Definition texte (v : Violation) : string :=
  match v with
  | V_superviseur jour shift n =>
      "VIOLATION: " +:+ nom_jour jour +:+ " " +:+ nom_shift shift
      +:+ " - Doit avoir au moins 1 superviseur (trouvé: " +:+ pretty n +:+ ")"
  | V_concierge_obligatoire jour shift n =>
      "VIOLATION: " +:+ nom_jour jour +:+ " " +:+ nom_shift shift
      +:+ " - Concierge obligatoire en semaine le matin (trouvé: " +:+ pretty n +:+ ")"
  | V_concierge_apres_midi jour shift =>
      "VIOLATION: " +:+ nom_jour jour +:+ " " +:+ nom_shift shift
      +:+ " - Concierge interdit l'après-midi"
  | V_concierge_weekend jour shift =>
      "VIOLATION: " +:+ nom_jour jour +:+ " " +:+ nom_shift shift
      +:+ " - Concierge interdit le weekend"
  | V_maximum jour shift m n =>
      "VIOLATION: " +:+ nom_jour jour +:+ " " +:+ nom_shift shift
      +:+ " - Maximum " +:+ pretty m +:+ " personnes (trouvé: " +:+ pretty n +:+ ")"
  | V_minimum jour shift n =>
      "VIOLATION: " +:+ nom_jour jour +:+ " " +:+ nom_shift shift
      +:+ " - Au moins 1 personne requise (trouvé: " +:+ pretty n +:+ ")"
  | V_nuit_receptionnistes jour r n =>
      "VIOLATION: " +:+ nom_jour jour +:+ " nuit - Doit avoir exactement "
      +:+ pretty r +:+ " réceptionnistes (trouvé: " +:+ pretty n +:+ ")"
  | V_nuit_superviseur jour =>
      "VIOLATION: " +:+ nom_jour jour +:+ " nuit - Aucun superviseur autorisé la nuit"
  | V_nuit_concierge jour =>
      "VIOLATION: " +:+ nom_jour jour +:+ " nuit - Aucun concierge autorisé la nuit"
  | V_contrat prenom nom n m =>
      "VIOLATION: " +:+ prenom +:+ " " +:+ nom +:+ " - Travaille " +:+ pretty n
      +:+ " jours au lieu de " +:+ pretty m +:+ " max"
  end.

(** The body of [for shift in ['matin', 'apres_midi']]. *)
Definition violations_shift_jour (planning : Planning) (jour : Jour) (shift : Shift)
    : list Violation :=
  let equipe := planning jour shift in
  let nb_superviseurs := len (filter (λ e, a_role e = "superviseur") equipe) in
  let nb_concierges := len (filter (λ e, a_role e = "concierge") equipe) in
  let nb_receptionnistes := len (filter (λ e, a_role e = "receptionniste") equipe) in
  let total := len equipe in
  (if nb_superviseurs <? 1 then [V_superviseur jour shift nb_superviseurs] else [])
  ++ (if negb (weekend jour) then
        if bool_decide (shift = Matin) && negb (nb_concierges =? 1) then
          [V_concierge_obligatoire jour shift nb_concierges]
        else if bool_decide (shift = Apres_midi) && (0 <? nb_concierges) then
          [V_concierge_apres_midi jour shift]
        else []
      else
        if 0 <? nb_concierges then [V_concierge_weekend jour shift] else [])
  ++ (if max_receptionists_per_shift <? total then
        [V_maximum jour shift max_receptionists_per_shift total]
      else [])
  ++ (if total <? 1 then [V_minimum jour shift total] else []).

(** Vérifications pour la nuit *)
Definition violations_nuit (planning : Planning) (jour : Jour) : list Violation :=
  let equipe_nuit := planning jour Nuit in
  let nb_receptionists_nuit := len (filter (λ e, a_role e = "receptionniste") equipe_nuit) in
  let nb_superviseurs_nuit := len (filter (λ e, a_role e = "superviseur") equipe_nuit) in
  let nb_concierges_nuit := len (filter (λ e, a_role e = "concierge") equipe_nuit) in
  (if negb (nb_receptionists_nuit =? nb_night_receptionists_required) then
     [V_nuit_receptionnistes jour nb_night_receptionists_required nb_receptionists_nuit]
   else [])
  ++ (if 0 <? nb_superviseurs_nuit then [V_nuit_superviseur jour] else [])
  ++ (if 0 <? nb_concierges_nuit then [V_nuit_concierge jour] else []).

(** The inner loop with [break]: does [emp.prenom] appear in some shift of
    the day. *)
Definition travaille_ce_jour (planning : Planning) (emp : Employee.t) (jour : Jour) : bool :=
  existsb (λ shift, present planning emp jour shift) shifts.

(** The counter [jours_travailles] of the employee loop. *)
Definition jours_travailles_de (planning : Planning) (emp : Employee.t) : Z :=
  fold_left (λ jours_travailles jour,
               if travaille_ce_jour planning emp jour then jours_travailles + 1
               else jours_travailles)
            jours_semaine 0.

(** Vérification du respect du contrat *)
Definition violations_employe (planning : Planning) (emp : Employee.t) : list Violation :=
  let jours_travailles := jours_travailles_de planning emp in
  if Employee.jours_semaine emp <? jours_travailles then
    [V_contrat (Employee.prenom emp) (Employee.nom emp) jours_travailles
               (Employee.jours_semaine emp)]
  else [].

Definition _verifier_violations (self : HotelPlanningSystem) (planning : Planning)
    : list Violation :=
  (jour ← jours_semaine;
     (shift ← [Matin; Apres_midi]; violations_shift_jour planning jour shift)
     ++ violations_nuit planning jour)
  ++ (emp ← employees self; violations_employe planning emp).

(** ** analyser_planning, assembled *)

Record StatistiquesGlobales := {
  total_shifts_semaine : Z;
  total_heures_semaine : Z;
  nombre_employes_actifs : Z
}.

Record Analyse := {
  heures_par_employe : gmap string HeuresEmploye;
  couverture_par_shift : gmap string Couverture;
  violations_contraintes : list Violation;
  statistiques_globales : StatistiquesGlobales
}.

Definition analyser_planning (self : HotelPlanningSystem) (planning : Planning) : Analyse :=
  let heures_par_employe :=
    fold_left (λ (d : gmap string HeuresEmploye) emp,
                 <[nom_complet emp := heures_de planning emp]> d)
              (employees self) ∅ in
  let couverture_par_shift :=
    fold_left (λ (d : gmap string Couverture) jour,
                 fold_left (λ (d : gmap string Couverture) shift,
                              <[nom_jour jour +:+ "_" +:+ nom_shift shift
                                := couverture_de (planning jour shift)]> d)
                           shifts d)
              jours_semaine ∅ in
  let total_shifts :=
    foldr Z.add 0 (jour ← jours_semaine; shift ← shifts; [len (planning jour shift)]) in
  let total_heures := total_shifts * 8 in
  {| heures_par_employe := heures_par_employe;
     couverture_par_shift := couverture_par_shift;
     violations_contraintes := _verifier_violations self planning;
     statistiques_globales :=
       {| total_shifts_semaine := total_shifts;
          total_heures_semaine := total_heures;
          nombre_employes_actifs :=
            Z.of_nat (size (filter (λ kv, 0 < jours_travailles kv.2) heures_par_employe)) |} |}.

(* ================================================================== *)
(** * Concrete rosters, forecasts and schedules *)
(* ================================================================== *)

Definition superviseur_ex (i : string) : Employee.t :=
  Employee.new ("Superviseur" +:+ i) ("Manager" +:+ i) "temps_plein" 5 "superviseur"
    ∅ ["Management"; "Accueil"; "Anglais"; "Formation"] true "" 0 None.

Definition night_ex (i : string) : Employee.t :=
  Employee.new ("Night" +:+ i) ("Nuit" +:+ i) "nuit" 5 "receptionniste"
    {["horaires" := "nuit"]} ["Accueil"; "Anglais"; "Sécurité"] true "" 0 None.

(** The concierge of the default team, marked unavailable for the week. *)
Definition concierge_absent : Employee.t :=
  Employee.new "Concierge" "Principal" "temps_plein" 5 "concierge"
    {["jours_off" := "weekend"; "horaires" := "matin_uniquement"]}
    ["Conciergerie"; "Anglais"; "Tourisme"] false "Congés" 7 None.

(** Three supervisors, three night receptionists, no available concierge. *)
Definition equipe_sans_concierge : HotelPlanningSystem :=
  {| employees := [superviseur_ex "1"; superviseur_ex "2"; superviseur_ex "3";
                   night_ex "1"; night_ex "2"; night_ex "3"; concierge_absent] |}.

(** Twenty arrivals and twenty departures every day. *)
Definition previsions_20 : gmap string Z :=
  list_to_map ((λ jour, (nom_jour jour, 20)) <$> jours_semaine).

(** Values of the variables of [equipe_sans_concierge], by position in the
    roster: supervisor 1 takes the weekday mornings, supervisors 2 and 3
    share the afternoons and the weekend mornings, and the nights are
    covered two by two. *)
Definition valeurs_sans_concierge (v : LpVariable) : bool :=
  match var_emp v, var_shift v, var_jour v with
  | 0%nat, Matin, (Lundi | Mardi | Mercredi | Jeudi | Vendredi) => true
  | 1%nat, Apres_midi, (Lundi | Mardi | Mercredi | Samedi | Dimanche) => true
  | 2%nat, Apres_midi, (Jeudi | Vendredi) => true
  | 2%nat, Matin, (Samedi | Dimanche) => true
  | 3%nat, Nuit, (Lundi | Mardi | Mercredi | Jeudi | Vendredi) => true
  | 4%nat, Nuit, (Lundi | Mardi | Mercredi | Samedi | Dimanche) => true
  | 5%nat, Nuit, (Jeudi | Vendredi | Samedi | Dimanche) => true
  | _, _, _ => false
  end.

(* ================================================================== *)
(** * The specification's formulas *)
(* ================================================================== *)

(** max_workable_days, in the words of the data model: 0 if not available
    or absence_days ≥ 7, else max(0, contracted_days_per_week −
    absence_days). *)
Definition max_workable_days (available : bool) (contracted_days_per_week absence_days : Z) : Z :=
  if bool_decide (available = false ∨ 7 ≤ absence_days) then 0
  else Z.max 0 (contracted_days_per_week - absence_days).

(** ceil(n / 50) for a non-negative count: the least [k] with [n ≤ 50 k]. *)
Definition ceil50 (n : Z) : Z := (n + 49) / 50.

(** The three steps of the Requirements Engine for one day total: the
    floor at 1 of the ceiling, the cap by the shift capacity (4 on
    Saturday and Sunday, 3 on weekdays) and the low-occupancy relief. *)
Definition shift_capacity (jour : Jour) : Z :=
  match jour with Samedi | Dimanche => 4 | _ => 3 end.

Definition total_spec (jour : Jour) (count checkins checkouts : Z) : Z :=
  let total := Z.max 1 (ceil50 count) in
  let total := Z.min total (shift_capacity jour) in
  if bool_decide (checkins + checkouts < 100) then Z.max 1 (total - 1) else total.

(** The four pools of the Feasibility Checker. *)
Definition superviseurs_disponibles (self : HotelPlanningSystem) : list Employee.t :=
  filter (λ e, Employee.disponible e = true ∧ Employee.role e = "superviseur")
         (employees self).
Definition receptionnistes_jour_disponibles (self : HotelPlanningSystem) : list Employee.t :=
  filter (λ e, Employee.disponible e = true ∧ Employee.role e = "receptionniste"
               ∧ Employee.type_contrat e ≠ "nuit")
         (employees self).
Definition receptionnistes_nuit_disponibles (self : HotelPlanningSystem) : list Employee.t :=
  filter (λ e, Employee.disponible e = true ∧ Employee.role e = "receptionniste"
               ∧ Employee.type_contrat e = "nuit")
         (employees self).
Definition concierges_disponibles (self : HotelPlanningSystem) : list Employee.t :=
  filter (λ e, Employee.disponible e = true ∧ Employee.role e = "concierge")
         (employees self).

(** The roster after [emp.jours_absence = a] on the employee at position [i]. *)
Definition avec_jours_absence (self : HotelPlanningSystem) (i : nat) (a : Z)
    : HotelPlanningSystem :=
  {| employees :=
       match employees self !! i with
       | Some emp => <[i := Employee.set_jours_absence emp a]> (employees self)
       | None => employees self
       end |}.

(** A table covers a list of employees when [x[emp.prenom]] exists for
    each of them. *)
Definition couvre (x : table) (l : list Employee.t) : Prop :=
  ∀ emp, emp ∈ l → is_Some (x !! Employee.prenom emp).

(** The number of days of [js] on which [emp.prenom] appears in the
    schedule. *)
Definition jours_travailles_dans (planning : Planning) (emp : Employee.t)
    (js : list Jour) : Z :=
  len (filter (λ jour, travaille_ce_jour planning emp jour = true) js).

#[global] Instance Violation_eq_dec : EqDecision Violation.
Proof. solve_decision. Defined.

(** A forecast as the external interface describes it: a non-negative
    count under each of the seven day names. *)
Definition prevision_valide (prevision : gmap string Z) : bool :=
  forallb (λ jour, match prevision !! nom_jour jour with
                   | Some n => 0 <=? n
                   | None => false
                   end) jours_semaine.

(** Check-ins with no entry for Sunday. *)
Definition checkins_sans_dimanche : gmap string Z :=
  delete "Dimanche" previsions_20.

(** Check-outs with a negative count on Monday. *)
Definition checkouts_negatifs : gmap string Z :=
  <["Lundi" := -5]> previsions_20.

(** No other employee of the roster has the same [f"{prenom} {nom}"]. *)
Definition cle_unique (self : HotelPlanningSystem) (emp : Employee.t) : Prop :=
  ∀ emp', emp' ∈ employees self → nom_complet emp' = nom_complet emp → emp' = emp.

(** The default part-time receptionist (three days), absent two days. *)
Definition recep_pt2 : Employee.t :=
  Employee.new "RecepPT2" "Partiel3j" "mi_temps_3j" 3 "receptionniste"
    ∅ ["Accueil"; "Anglais"] true "Formation" 2 None.

Definition equipe_temps_partiel : HotelPlanningSystem :=
  {| employees := employees equipe_sans_concierge ++ [recep_pt2] |}.

(** A schedule that puts the part-time receptionist, next to a
    supervisor, on the Monday and Tuesday afternoons. *)
Definition planning_deux_jours : Planning :=
  λ jour shift,
    match jour, shift with
    | (Lundi | Mardi), Apres_midi => [fiche (superviseur_ex "2"); fiche recep_pt2]
    | _, _ => []
    end.

(** Two employees who share the first name "Alex", one full time and one
    on a three-day contract. *)
Definition alex_martin : Employee.t :=
  Employee.new "Alex" "Martin" "temps_plein" 5 "receptionniste"
    ∅ ["Accueil"; "Anglais"] true "" 0 None.
Definition alex_durand : Employee.t :=
  Employee.new "Alex" "Durand" "mi_temps_3j" 3 "receptionniste"
    ∅ ["Accueil"; "Anglais"] true "" 0 None.

Definition equipe_homonymes : HotelPlanningSystem :=
  {| employees := [alex_martin; alex_durand] |}.

(** A schedule that puts Alex Martin on four mornings. *)
Definition planning_alex : Planning :=
  λ jour shift,
    match jour, shift with
    | (Lundi | Mardi | Mercredi | Jeudi), Matin => [fiche alex_martin]
    | _, _ => []
    end.

(** The contract violations reported under the names of an employee. *)
Definition violation_contrat_de (emp : Employee.t) (v : Violation) : Prop :=
  match v with
  | V_contrat prenom nom _ _ => prenom = Employee.prenom emp ∧ nom = Employee.nom emp
  | _ => False
  end.

#[global] Instance violation_contrat_de_dec emp v : Decision (violation_contrat_de emp v).
Proof. destruct v; simpl; apply _. Defined.

Definition violations_contrat_de (emp : Employee.t) (violations : list Violation)
    : list Violation :=
  filter (violation_contrat_de emp) violations.

(** ** ajouter_employe, supprimer_employe *)

Definition ajouter_employe (self : HotelPlanningSystem) (employee : Employee.t)
    : HotelPlanningSystem :=
  {| employees := employees self ++ [employee] |}.

Definition supprimer_employe (self : HotelPlanningSystem) (prenom nom : string)
    : HotelPlanningSystem :=
  {| employees :=
       filter (λ e, ¬ (Employee.prenom e = prenom ∧ Employee.nom e = nom))
              (employees self) |}.

(** ** initialiser_equipe_conforme *)

(** [range(a, b)] *)
Definition range (a b : Z) : list Z := seqZ a (b - a).

(** A loop [for i in l: system.ajouter_employe(f i)]. *)
Definition ajouter_tous {A} (system : HotelPlanningSystem) (l : list A)
    (f : A → Employee.t) : HotelPlanningSystem :=
  fold_left (λ system i, ajouter_employe system (f i)) l system.

Definition initialiser_equipe_conforme (system : HotelPlanningSystem)
    : HotelPlanningSystem :=
  if bool_decide (employees system ≠ []) then system
  else
    (* 5 SUPERVISEURS *)
    let system := ajouter_tous system (range 1 6) (λ i,
      Employee.new ("Superviseur" +:+ pretty i) ("Manager" +:+ pretty i)
        "temps_plein" 5 "superviseur" ∅
        ["Management"; "Accueil"; "Anglais"; "Formation"] true "" 0 None) in
    (* 6 RÉCEPTIONNISTES JOUR : 4 temps plein, 1 mi-temps 4 jours, 1 mi-temps 3 jours *)
    let system := ajouter_tous system (range 1 5) (λ i,
      Employee.new ("Recep" +:+ pretty i) ("Jour" +:+ pretty i)
        "temps_plein" 5 "receptionniste" ∅
        ["Accueil"; "Anglais"] true "" 0 None) in
    let system := ajouter_employe system
      (Employee.new "RecepPT1" "Partiel4j" "mi_temps_4j" 4 "receptionniste" ∅
         ["Accueil"; "Anglais"] true "" 0 None) in
    let system := ajouter_employe system
      (Employee.new "RecepPT2" "Partiel3j" "mi_temps_3j" 3 "receptionniste" ∅
         ["Accueil"; "Anglais"] true "" 0 None) in
    (* 3 RÉCEPTIONNISTES DE NUIT *)
    let system := ajouter_tous system (range 1 4) (λ i,
      Employee.new ("Night" +:+ pretty i) ("Nuit" +:+ pretty i)
        "nuit" 5 "receptionniste" {["horaires" := "nuit"]}
        ["Accueil"; "Anglais"; "Sécurité"] true "" 0 None) in
    (* 1 CONCIERGE *)
    ajouter_employe system
      (Employee.new "Concierge" "Principal" "temps_plein" 5 "concierge"
         {["jours_off" := "weekend"; "horaires" := "matin_uniquement"]}
         ["Conciergerie"; "Anglais"; "Tourisme"] true "" 0 None).

(** One supervisor, two day receptionists and two night receptionists:
    the smallest roster the feasibility check accepts. *)
Definition equipe_minimale : HotelPlanningSystem :=
  {| employees := [superviseur_ex "1"; alex_martin; recep_pt2;
                   night_ex "1"; night_ex "2"] |}.

(** The four records about concierges. *)
Definition violation_concierge (v : Violation) : Prop :=
  match v with
  | V_concierge_obligatoire _ _ _ | V_concierge_apres_midi _ _
  | V_concierge_weekend _ _ | V_nuit_concierge _ => True
  | _ => False
  end.

(** ** Reading the validator's report *)

(** The records appended by the employee loop of [_verifier_violations]. *)
Definition est_violation_contrat (v : Violation) : Prop :=
  match v with V_contrat _ _ _ _ => True | _ => False end.

#[global] Instance est_violation_contrat_dec v : Decision (est_violation_contrat v).
Proof. destruct v; simpl; apply _. Defined.

(** A sum over the 21 slots of the week: [sum(F(jour, shift) for jour in
    self.jours_semaine for shift in ['matin', 'apres_midi', 'nuit'])]. *)
Definition somme_semaine (F : Jour → Shift → Z) : Z :=
  foldr Z.add 0 (jour ← jours_semaine; shift ← shifts; [F jour shift]).

(** The keys [f"{jour}_{shift}"] of the slots of the days [js] in which
    [emp.prenom] appears, in the order of the loops. *)
Definition shifts_travailles_dans (planning : Planning) (emp : Employee.t)
    (js : list Jour) : list string :=
  jour ← js; shift ← shifts;
  if present planning emp jour shift then [nom_jour jour +:+ "_" +:+ nom_shift shift]
  else [].

(** ** Minimal solutions *)

#[global] Instance LpVariable_eq_dec : EqDecision LpVariable.
Proof. solve_decision. Defined.

(** The values [varValue] with the variable [v0] put back to 0. *)
Definition retirer (varValue : LpVariable → bool) (v0 : LpVariable) : LpVariable → bool :=
  λ v, if decide (v = v0) then false else varValue v.

(** What [prob.solve()] leaves in the variables when the status is
    Optimal ([LpMinimize]): a solution whose objective no solution
    undercuts. *)
Definition optimale (varValue : LpVariable → bool) (prob : LpProblem) : Prop :=
  solution varValue (constraints prob) = true
  ∧ ∀ varValue', solution varValue' (constraints prob) = true →
                 somme varValue (objective prob) ≤ somme varValue' (objective prob).

(** No single assignment can be dropped: putting any variable of the
    objective that is 1 back to 0 breaks a constraint. *)
Definition minimale (varValue : LpVariable → bool) (prob : LpProblem) : bool :=
  forallb (λ v, negb (varValue v)
                || negb (solution (retirer varValue v) (constraints prob)))
          (objective prob).

(** The employees whose variable of a slot occurs in a constraint [>=]
    or [== n] with [n > 0]: the available night receptionists for a
    night, the available supervisors, day receptionists and concierges
    for a morning or an afternoon. *)
Definition dans_pool (e : Employee.t) (shift : Shift) : Prop :=
  Employee.disponible e = true
  ∧ match shift with
    | Nuit => est_receptionniste_nuit e
    | _ => est_superviseur e ∨ est_receptionniste_jour e ∨ est_concierge e
    end.

(** A constraint that still holds when a variable of an employee outside
    the pool of its slot is put back to 0. *)
Definition stable (self : HotelPlanningSystem) (x : table) (c : LpConstraint) : Prop :=
  sens c = LE
  ∨ (sens c = EQ ∧ rhs c = 0)
  ∨ ∀ v, v ∈ expr c →
         ∃ e jour shift, e ∈ employees self ∧ dans_pool e shift
                         ∧ lire x e jour shift = Some v.

#[global] Instance dans_pool_dec e shift : Decision (dans_pool e shift).
Proof. unfold dans_pool. destruct shift; apply _. Defined.

(** The concierge of the default team, available. *)
Definition concierge_ex : Employee.t :=
  Employee.new "Concierge" "Principal" "temps_plein" 5 "concierge"
    {["jours_off" := "weekend"; "horaires" := "matin_uniquement"]}
    ["Conciergerie"; "Anglais"; "Tourisme"] true "" 0 None.

(** Three supervisors, three night receptionists and the concierge. *)
Definition equipe_complete : HotelPlanningSystem :=
  {| employees := [superviseur_ex "1"; superviseur_ex "2"; superviseur_ex "3";
                   night_ex "1"; night_ex "2"; night_ex "3"; concierge_ex] |}.

(** The values of [valeurs_sans_concierge], with the concierge (position
    6 of the roster) on the weekday mornings. *)
Definition valeurs_completes (v : LpVariable) : bool :=
  valeurs_sans_concierge v
  || match var_emp v, var_shift v, var_jour v with
     | 6%nat, Matin, (Lundi | Mardi | Mercredi | Jeudi | Vendredi) => true
     | _, _, _ => false
     end.

(** What [_verifier_violations] and the hours loop of [analyser_planning]
    read in an entry of the schedule: [e['prenom']] and [e['role']]. *)
Definition lu (a : Affectation) : string * string := (a_prenom a, a_role a).

(** The schedule [planning_deux_jours] with other last names and every
    contract type replaced by ["nuit"]. *)
Definition planning_deux_jours_bis : Planning :=
  λ jour shift,
    (λ a, {| a_prenom := a_prenom a; a_nom := "Dupont"; a_role := a_role a;
             a_type_contrat := "nuit" |}) <$> reverse (planning_deux_jours jour shift).

(* ================================================================== *)
(** * Workforce model *)
(* ================================================================== *)

(** C8. For every employee, the derived attribute
    [jours_travail_max_semaine] is 0 when [disponible] is false or
    [jours_absence ≥ 7], and [max(0, jours_semaine − jours_absence)]
    otherwise. *)
Theorem jours_travail_max_semaine_spec (emp : Employee.t) :
  Employee.jours_travail_max_semaine emp
  = max_workable_days (Employee.disponible emp) (Employee.jours_semaine emp)
                      (Employee.jours_absence emp).
Proof.
  unfold Employee.jours_travail_max_semaine, max_workable_days.
  case_bool_decide as H.
  - destruct H as [-> | H]; [done |].
    destruct (Employee.disponible emp); simpl; [| done].
    by rewrite (proj2 (Z.leb_le _ _) H).
  - destruct (Employee.disponible emp); simpl; [| tauto].
    destruct (Z.leb_spec 7 (Employee.jours_absence emp)); [| done].
    tauto.
Qed.

Lemma post_init_idempotent (emp : Employee.t) :
  construit (Employee.__post_init__ emp).
Proof.
  unfold construit, Employee.__post_init__.
  repeat (case_decide; simpl in *; try done).
Qed.

Lemma construit_mi_temps_3j (emp : Employee.t) :
  construit emp → Employee.type_contrat emp = "mi_temps_3j" →
  Employee.jours_semaine emp = 3.
Proof.
  unfold construit, Employee.__post_init__. intros H Ht.
  rewrite Ht in H. simpl in H. by rewrite <- H.
Qed.

(* ================================================================== *)
(** * Requirements engine *)
(* ================================================================== *)

(** [ceil_div a 50] is the ceiling of [a / 50], for every integer. *)
Lemma ceil_div_50 (a k : Z) :
  ceil_div a 50 = k ↔ 50 * (k - 1) < a ≤ 50 * k.
Proof.
  unfold ceil_div.
  pose proof (Z.div_mod (- a) 50 ltac:(lia)).
  pose proof (Z.mod_pos_bound (- a) 50 ltac:(lia)).
  lia.
Qed.

Lemma ceil_div_ceil50 (a : Z) : 0 ≤ a → ceil_div a clients_per_receptionist = ceil50 a.
Proof.
  intros Ha. unfold clients_per_receptionist, ceil50. apply ceil_div_50.
  pose proof (Z.div_mod (a + 49) 50 ltac:(lia)).
  pose proof (Z.mod_pos_bound (a + 49) 50 ltac:(lia)).
  lia.
Qed.

Lemma total_matin_spec self checkins checkouts jour nb_checkins nb_checkouts :
  checkins !! nom_jour jour = Some nb_checkins →
  checkouts !! nom_jour jour = Some nb_checkouts →
  0 ≤ nb_checkouts →
  total_personnel (matin (calculer_besoins_personnel self checkins checkouts jour))
  = total_spec jour nb_checkouts nb_checkins nb_checkouts.
Proof.
  intros Hi Ho Hpos.
  unfold calculer_besoins_personnel, besoins_du_jour, total_spec. simpl.
  rewrite Hi, Ho. simpl. rewrite (ceil_div_ceil50 _ Hpos).
  unfold max_receptionists_per_shift.
  destruct (Z.ltb_spec (nb_checkins + nb_checkouts) 100);
    case_bool_decide; try lia; by destruct jour.
Qed.

Lemma total_apres_midi_spec self checkins checkouts jour nb_checkins nb_checkouts :
  checkins !! nom_jour jour = Some nb_checkins →
  checkouts !! nom_jour jour = Some nb_checkouts →
  0 ≤ nb_checkins →
  total_personnel (apres_midi (calculer_besoins_personnel self checkins checkouts jour))
  = total_spec jour nb_checkins nb_checkins nb_checkouts.
Proof.
  intros Hi Ho Hpos.
  unfold calculer_besoins_personnel, besoins_du_jour, total_spec. simpl.
  rewrite Hi, Ho. simpl. rewrite (ceil_div_ceil50 _ Hpos).
  unfold max_receptionists_per_shift.
  destruct (Z.ltb_spec (nb_checkins + nb_checkouts) 100);
    case_bool_decide; try lia; by destruct jour.
Qed.

(** C3. For every day and all non-negative forecast counts,
    [calculer_besoins_personnel] computes the morning total as
    max(1, ceil(checkouts/50)) and the afternoon total as
    max(1, ceil(checkins/50)), caps each at 4 on Saturday and Sunday and 3
    on weekdays, and then, when checkins + checkouts < 100, subtracts 1
    from each total, floored at 1. In particular no check-out and no
    check-in on a weekday give totals of 1, and 300 of each on a Saturday
    give totals of 4. *)
Theorem calculer_besoins_personnel_totaux self checkins checkouts jour
    nb_checkins nb_checkouts :
  checkins !! nom_jour jour = Some nb_checkins →
  checkouts !! nom_jour jour = Some nb_checkouts →
  0 ≤ nb_checkins → 0 ≤ nb_checkouts →
  let besoin := calculer_besoins_personnel self checkins checkouts jour in
  total_personnel (matin besoin) = total_spec jour nb_checkouts nb_checkins nb_checkouts
  ∧ total_personnel (apres_midi besoin) = total_spec jour nb_checkins nb_checkins nb_checkouts
  ∧ (weekend jour = false → nb_checkins = 0 → nb_checkouts = 0 →
     total_personnel (matin besoin) = 1 ∧ total_personnel (apres_midi besoin) = 1)
  ∧ (jour = Samedi → nb_checkins = 300 → nb_checkouts = 300 →
     total_personnel (matin besoin) = 4 ∧ total_personnel (apres_midi besoin) = 4).
Proof.
  intros Hi Ho Hpi Hpo besoin. subst besoin.
  rewrite (total_matin_spec _ _ _ _ _ _ Hi Ho Hpo).
  rewrite (total_apres_midi_spec _ _ _ _ _ _ Hi Ho Hpi).
  split_and!; try done.
  - intros Hw -> ->. by destruct jour.
  - by intros -> -> ->.
Qed.

(** Scenario A, on the code: no forecast activity on a Monday. *)
Lemma calculer_besoins_personnel_totaux_witness :
  total_personnel
    (matin (calculer_besoins_personnel equipe_sans_concierge
              {[ "Lundi" := 0 ]} {[ "Lundi" := 0 ]} Lundi)) = 1
  ∧ total_personnel
      (apres_midi (calculer_besoins_personnel equipe_sans_concierge
                     {[ "Lundi" := 0 ]} {[ "Lundi" := 0 ]} Lundi)) = 1.
Proof.
  refine (proj1 (proj2 (proj2
            (calculer_besoins_personnel_totaux equipe_sans_concierge
               {[ "Lundi" := 0 ]} {[ "Lundi" := 0 ]} Lundi 0 0 _ _ _ _))) _ _ _);
    reflexivity || lia.
Defined.

(* ================================================================== *)
(** * Feasibility checker *)
(* ================================================================== *)

Lemma pool_superviseurs self :
  filter est_superviseur (get_employees_disponibles self) = superviseurs_disponibles self.
Proof.
  unfold get_employees_disponibles. rewrite list_filter_filter.
  apply list_filter_iff. unfold est_superviseur. tauto.
Qed.

Lemma pool_receptionnistes_jour self :
  filter est_receptionniste_jour (get_employees_disponibles self)
  = receptionnistes_jour_disponibles self.
Proof.
  unfold get_employees_disponibles. rewrite list_filter_filter.
  apply list_filter_iff. unfold est_receptionniste_jour. tauto.
Qed.

Lemma pool_receptionnistes_nuit self :
  filter est_receptionniste_nuit (get_employees_disponibles self)
  = receptionnistes_nuit_disponibles self.
Proof.
  unfold get_employees_disponibles. rewrite list_filter_filter.
  apply list_filter_iff. unfold est_receptionniste_nuit. tauto.
Qed.

Lemma pool_concierges self :
  filter est_concierge (get_employees_disponibles self) = concierges_disponibles self.
Proof.
  unfold get_employees_disponibles. rewrite list_filter_filter.
  apply list_filter_iff. unfold est_concierge. tauto.
Qed.

(** The night pool counted by [calculer_besoins_personnel] is the pool of
    the Feasibility Checker. *)
Lemma pool_nuit_besoins self :
  filter receptionniste_nuit_dispo (employees self) = receptionnistes_nuit_disponibles self.
Proof. apply list_filter_iff. unfold receptionniste_nuit_dispo. tauto. Qed.

Lemma len_nonneg {A} (l : list A) : 0 ≤ len l.
Proof. unfold len. lia. Qed.

Lemma stats_pools self besoins :
  let s := stats (verifier_faisabilite_planning self besoins) in
  superviseurs s = len (superviseurs_disponibles self)
  ∧ receptionnistes_jour s = len (receptionnistes_jour_disponibles self)
  ∧ receptionnistes_nuit s = len (receptionnistes_nuit_disponibles self)
  ∧ concierges s = len (concierges_disponibles self).
Proof.
  simpl. by rewrite pool_superviseurs, pool_receptionnistes_jour,
    pool_receptionnistes_nuit, pool_concierges.
Qed.

(** C4. [verifier_faisabilite_planning] returns [faisable = false]
    exactly when a blocking condition holds: no available supervisor,
    fewer than two available night receptionists, or fewer than three
    available day-capable staff (supervisors plus non-night
    receptionists). The advisory conditions (exactly one available
    supervisor, no available concierge) are returned as warnings, are
    never among the problems, and so never make [faisable] false. *)
Theorem verifier_faisabilite_planning_spec self besoins :
  ((faisable (verifier_faisabilite_planning self besoins) = false)
   ↔ (len (superviseurs_disponibles self) = 0
      ∨ len (receptionnistes_nuit_disponibles self) < 2
      ∨ len (superviseurs_disponibles self) + len (receptionnistes_jour_disponibles self) < 3))
  ∧ ((faisable (verifier_faisabilite_planning self besoins) = false)
     ↔ (problemes (verifier_faisabilite_planning self besoins) ≠ []))
  ∧ ((msg_un_seul_superviseur ∈ recommandations (verifier_faisabilite_planning self besoins))
     ↔ (len (superviseurs_disponibles self) = 1))
  ∧ ((msg_concierge_indisponible ∈ recommandations (verifier_faisabilite_planning self besoins))
     ↔ (len (concierges_disponibles self) = 0))
  ∧ (msg_un_seul_superviseur ∉ problemes (verifier_faisabilite_planning self besoins))
  ∧ (msg_concierge_indisponible ∉ problemes (verifier_faisabilite_planning self besoins)).
Proof.
  simpl.
  rewrite pool_superviseurs, pool_receptionnistes_jour,
    pool_receptionnistes_nuit, pool_concierges.
  generalize (len_nonneg (superviseurs_disponibles self)).
  generalize (len (superviseurs_disponibles self)) as nb_superviseurs.
  generalize (len_nonneg (receptionnistes_jour_disponibles self)).
  generalize (len (receptionnistes_jour_disponibles self)) as nb_jour.
  generalize (len_nonneg (receptionnistes_nuit_disponibles self)).
  generalize (len (receptionnistes_nuit_disponibles self)) as nb_nuit.
  generalize (len_nonneg (concierges_disponibles self)).
  generalize (len (concierges_disponibles self)) as nb_concierges.
  intros nb_concierges ? nb_nuit ? nb_jour ? nb_superviseurs ?.
  destruct (Z.ltb_spec nb_superviseurs 1), (Z.ltb_spec nb_superviseurs 2),
    (Z.ltb_spec nb_nuit 2), (Z.eqb_spec nb_nuit 0),
    (Z.ltb_spec (nb_superviseurs + nb_jour) 3), (Z.eqb_spec nb_concierges 0);
    simpl; try lia.
  all: rewrite ?elem_of_cons, ?elem_of_nil.
  all: unfold msg_un_seul_superviseur, msg_concierge_indisponible, msg_aucun_superviseur,
    msg_aucun_nuit, msg_un_seul_nuit, msg_personnel_jour_insuffisant.
  all: split_and!; try (split; intros); try lia; try done.
  all: try (by left); intuition (discriminate || lia).
Qed.

Lemma length_filter_insert {A} (P : A → Prop) `{!∀ x, Decision (P x)}
    (l : list A) (i : nat) (a b : A) :
  l !! i = Some a → (P a ↔ P b) →
  length (filter P (<[i := b]> l)) = length (filter P l).
Proof.
  intros Hi Hab. revert i Hi.
  induction l as [| c l IH]; intros [| i] Hi; simpl in *; try done.
  - injection Hi as ->. rewrite !filter_cons.
    destruct (decide (P a)), (decide (P b)); simpl; tauto || done.
  - rewrite !filter_cons. destruct (decide (P c)); simpl; by rewrite (IH i).
Qed.

(** Reducing [jours_absence] leaves every pool as long as it was. *)
Lemma pools_avec_jours_absence self i a :
  len (superviseurs_disponibles (avec_jours_absence self i a))
  = len (superviseurs_disponibles self)
  ∧ len (receptionnistes_jour_disponibles (avec_jours_absence self i a))
    = len (receptionnistes_jour_disponibles self)
  ∧ len (receptionnistes_nuit_disponibles (avec_jours_absence self i a))
    = len (receptionnistes_nuit_disponibles self)
  ∧ len (concierges_disponibles (avec_jours_absence self i a))
    = len (concierges_disponibles self).
Proof.
  unfold superviseurs_disponibles, receptionnistes_jour_disponibles,
    receptionnistes_nuit_disponibles, concierges_disponibles,
    avec_jours_absence, len. simpl.
  destruct (employees self !! i) as [emp |] eqn:Hi; [| done].
  split_and!; f_equal; by apply length_filter_insert with emp.
Qed.

Lemma jours_travail_max_semaine_mono emp a :
  a ≤ Employee.jours_absence emp →
  Employee.jours_travail_max_semaine emp
  ≤ Employee.jours_travail_max_semaine (Employee.set_jours_absence emp a).
Proof.
  unfold Employee.jours_travail_max_semaine. simpl. intros Ha.
  destruct (Employee.disponible emp); simpl; [| done].
  destruct (Z.leb_spec 7 (Employee.jours_absence emp)),
    (Z.leb_spec 7 a); lia.
Qed.

(** C10. Reducing the [jours_absence] of an employee never decreases
    their [jours_travail_max_semaine] and never decreases any of the
    available-pool counts of the Feasibility Checker (supervisors, day
    receptionists, night receptionists, concierges). *)
Theorem reduire_absence_monotone self besoins i emp a :
  employees self !! i = Some emp →
  a ≤ Employee.jours_absence emp →
  Employee.jours_travail_max_semaine emp
  ≤ Employee.jours_travail_max_semaine (Employee.set_jours_absence emp a)
  ∧ superviseurs (stats (verifier_faisabilite_planning self besoins))
    ≤ superviseurs (stats (verifier_faisabilite_planning (avec_jours_absence self i a) besoins))
  ∧ receptionnistes_jour (stats (verifier_faisabilite_planning self besoins))
    ≤ receptionnistes_jour (stats (verifier_faisabilite_planning (avec_jours_absence self i a) besoins))
  ∧ receptionnistes_nuit (stats (verifier_faisabilite_planning self besoins))
    ≤ receptionnistes_nuit (stats (verifier_faisabilite_planning (avec_jours_absence self i a) besoins))
  ∧ concierges (stats (verifier_faisabilite_planning self besoins))
    ≤ concierges (stats (verifier_faisabilite_planning (avec_jours_absence self i a) besoins)).
Proof.
  intros Hi Ha.
  split; [by apply jours_travail_max_semaine_mono |].
  destruct (stats_pools self besoins) as (-> & -> & -> & ->).
  destruct (stats_pools (avec_jours_absence self i a) besoins) as (-> & -> & -> & ->).
  destruct (pools_avec_jours_absence self i a) as (-> & -> & -> & ->).
  lia.
Qed.

Lemma reduire_absence_monotone_witness :
  Employee.jours_travail_max_semaine recep_pt2
  ≤ Employee.jours_travail_max_semaine (Employee.set_jours_absence recep_pt2 0)
  ∧ receptionnistes_jour (stats (verifier_faisabilite_planning equipe_temps_partiel
                                   (calculer_besoins_personnel equipe_temps_partiel
                                      previsions_20 previsions_20)))
    ≤ receptionnistes_jour
        (stats (verifier_faisabilite_planning
                  (avec_jours_absence equipe_temps_partiel 7 0)
                  (calculer_besoins_personnel equipe_temps_partiel
                     previsions_20 previsions_20))).
Proof.
  pose proof (reduire_absence_monotone equipe_temps_partiel
                (calculer_besoins_personnel equipe_temps_partiel
                   previsions_20 previsions_20)
                7 recep_pt2 0 eq_refl ltac:(vm_compute; discriminate)) as H.
  split; [apply H | apply H].
Defined.

(* ================================================================== *)
(** * The decision table *)
(* ================================================================== *)

(** After the creation loop, [x[p]] holds the variables allocated for the
    last employee of the roster whose first name is [p]. *)
Lemma variables_decision_depuis_lookup (l : list Employee.t) :
  ∀ (i : nat) (x : table) (p : string) (t : Jour → Shift → LpVariable),
    variables_decision_depuis i l x !! p = Some t
    ↔ (∃ j emp, l !! j = Some emp ∧ Employee.prenom emp = p
                ∧ t = nouvelle_variable (i + j) emp
                ∧ ∀ k emp', l !! k = Some emp' → Employee.prenom emp' = p → (k ≤ j)%nat)
      ∨ ((∀ emp, emp ∈ l → Employee.prenom emp ≠ p) ∧ x !! p = Some t).
Proof.
  induction l as [| e l IH]; intros i x p t; simpl.
  - split.
    + intros H. right. split; [| done]. intros emp Hemp. by apply elem_of_nil in Hemp.
    + intros [(j & emp & Hj & _) | [_ H]]; [by destruct j | done].
  - rewrite IH. split.
    + intros [(j & emp & Hj & Hp & Ht & Hlast) | [Hnone Hx]].
      * left. exists (S j), emp. split_and!; try done.
        -- rewrite Ht. f_equal. lia.
        -- intros [| k] emp' Hk Hp'; [lia |]. simpl in Hk.
           specialize (Hlast k emp' Hk Hp'). lia.
      * destruct (decide (Employee.prenom e = p)) as [Hep | Hep].
        -- left. exists 0%nat, e. rewrite <- Hep in Hx.
           rewrite lookup_insert_eq in Hx. injection Hx as <-.
           split_and!; try done.
           ++ f_equal. lia.
           ++ intros [| k] emp' Hk Hp'; [lia |]. simpl in Hk.
              exfalso. apply (Hnone emp'); [| done].
              apply list_elem_of_lookup. by exists k.
        -- right. rewrite lookup_insert_ne in Hx by done. split; [| done].
           intros emp Hemp. apply elem_of_cons in Hemp as [-> | Hemp]; [done |].
           by apply Hnone.
    + intros [(j & emp & Hj & Hp & Ht & Hlast) | [Hnone Hx]].
      * destruct j as [| j]; simpl in Hj.
        -- injection Hj as ->. right. split.
           ++ intros emp' Hemp' Hp'.
              apply list_elem_of_lookup in Hemp' as [k Hk].
              specialize (Hlast (S k) emp' Hk Hp'). lia.
           ++ rewrite <- Hp, lookup_insert_eq, Ht. do 2 f_equal. lia.
        -- left. exists j, emp. split_and!; try done.
           ++ rewrite Ht. f_equal. lia.
           ++ intros k emp' Hk Hp'. specialize (Hlast (S k) emp' Hk Hp'). lia.
      * right. split.
        -- intros emp Hemp. apply Hnone. by right.
        -- rewrite lookup_insert_ne; [done |]. apply Hnone. by left.
Qed.

Lemma variables_decision_lookup self p t :
  variables_decision self !! p = Some t
  ↔ ∃ j emp, employees self !! j = Some emp ∧ Employee.prenom emp = p
             ∧ t = nouvelle_variable j emp
             ∧ ∀ k emp', employees self !! k = Some emp' →
                         Employee.prenom emp' = p → (k ≤ j)%nat.
Proof.
  unfold variables_decision. rewrite variables_decision_depuis_lookup. simpl.
  split; [| by left]. intros [H | [_ H]]; [done |]. by rewrite lookup_empty in H.
Qed.

Lemma variables_decision_depuis_is_Some (l : list Employee.t) :
  ∀ (i : nat) (x : table) (p : string),
    is_Some (x !! p) ∨ (∃ emp, emp ∈ l ∧ Employee.prenom emp = p) →
    is_Some (variables_decision_depuis i l x !! p).
Proof.
  induction l as [| e l IH]; intros i x p H; simpl.
  - destruct H as [H | (emp & Hemp & _)]; [done |]. by apply elem_of_nil in Hemp.
  - apply IH. destruct (decide (Employee.prenom e = p)) as [<- | Hne].
    + left. by rewrite lookup_insert_eq.
    + rewrite lookup_insert_ne by done.
      destruct H as [H | (emp & Hemp & Hp)]; [by left |].
      apply elem_of_cons in Hemp as [-> | Hemp]; [done |].
      right. by exists emp.
Qed.

Lemma variables_decision_couvre self : couvre (variables_decision self) (employees self).
Proof.
  intros emp Hemp. apply variables_decision_depuis_is_Some. right. by exists emp.
Qed.

Lemma couvre_subseteq x (l l' : list Employee.t) : l' ⊆ l → couvre x l → couvre x l'.
Proof. intros Hsub Hc emp Hemp. apply Hc, Hsub, Hemp. Qed.

Lemma couvre_filter x (P : Employee.t → Prop) `{!∀ e, Decision (P e)} l :
  couvre x l → couvre x (filter P l).
Proof. apply couvre_subseteq. intros e He. by apply list_elem_of_filter in He as [_ ?]. Qed.

Lemma couvre_app x l l' : couvre x l → couvre x l' → couvre x (l ++ l').
Proof. intros H H' emp Hemp. apply elem_of_app in Hemp as [? | ?]; auto. Qed.

(* ================================================================== *)
(** * Loops in the option monad *)
(* ================================================================== *)

Lemma elem_of_concat {B} (b : B) (blocs : list (list B)) :
  b ∈ concat blocs ↔ ∃ bloc, b ∈ bloc ∧ bloc ∈ blocs.
Proof.
  induction blocs as [| c blocs IH]; simpl.
  - split; [by intros ?%elem_of_nil | by intros (? & _ & ?%elem_of_nil)].
  - rewrite elem_of_app, IH. split.
    + intros [H | (bloc & ? & ?)]; [exists c | exists bloc]; split; try done;
        [by left | by right].
    + intros (bloc & Hb & [-> | H]%elem_of_cons); [by left |].
      right. by exists bloc.
Qed.

Lemma pour_chaque_is_Some {A B} (l : list A) (corps : A → option (list B)) :
  (∀ a, a ∈ l → is_Some (corps a)) → is_Some (pour_chaque l corps).
Proof.
  intros H. unfold pour_chaque.
  destruct (mapM corps l) as [blocs |] eqn:Hm; simpl; [done |].
  apply mapM_None, Exists_exists in Hm as (a & Ha & Hnone).
  destruct (H a Ha) as [? ?]. congruence.
Qed.

(** What the body appends for an element of the list is in the result. *)
Lemma pour_chaque_elem {A B} (l : list A) (corps : A → option (list B))
    (bs : list B) (a : A) (ba : list B) (b : B) :
  pour_chaque l corps = Some bs → a ∈ l → corps a = Some ba → b ∈ ba → b ∈ bs.
Proof.
  unfold pour_chaque. intros H Ha Hca Hb.
  destruct (mapM corps l) as [blocs |] eqn:Hm; simpl in H; [| done].
  injection H as <-. apply mapM_Some in Hm.
  apply list_elem_of_lookup in Ha as [i Hi].
  destruct (Forall2_lookup_l _ _ _ _ _ Hm Hi) as (ba' & Hba' & Heq).
  rewrite Hca in Heq. injection Heq as <-.
  apply elem_of_concat. exists ba. split; [done |].
  apply list_elem_of_lookup. by exists i.
Qed.

Lemma lire_Some x emp jour shift :
  is_Some (x !! Employee.prenom emp) →
  ∃ t, x !! Employee.prenom emp = Some t ∧ lire x emp jour shift = Some (t jour shift).
Proof. intros [t Ht]. exists t. unfold lire. by rewrite Ht. Qed.

Lemma lpSum_employes_Some x l jour shift :
  couvre x l → is_Some (lpSum_employes x l jour shift).
Proof.
  intros Hc. apply mapM_is_Some, Forall_forall. intros emp Hemp. simpl.
  destruct (lire_Some x emp jour shift (Hc emp Hemp)) as (t & _ & ->). done.
Qed.

Lemma lpSum_shifts_Some x emp jour :
  is_Some (x !! Employee.prenom emp) → is_Some (lpSum_shifts x emp jour).
Proof.
  intros H. apply mapM_is_Some, Forall_forall. intros shift _. simpl.
  destruct (lire_Some x emp jour shift H) as (t & _ & ->). done.
Qed.

Lemma lpSum_jours_Some x emp js :
  is_Some (x !! Employee.prenom emp) → is_Some (lpSum_jours x emp js).
Proof. intros H. apply pour_chaque_is_Some. intros jour _. by apply lpSum_shifts_Some. Qed.

Lemma variable_nulle_Some x emp jour shift :
  is_Some (x !! Employee.prenom emp) → is_Some (variable_nulle x emp jour shift).
Proof.
  intros H. unfold variable_nulle.
  destruct (lire_Some x emp jour shift H) as (t & _ & ->). done.
Qed.

Lemma bind_is_Some {A B} (m : option A) (f : A → option B) :
  is_Some m → (∀ a, m = Some a → is_Some (f a)) → is_Some (m ≫= f).
Proof. intros [a ->] H. simpl. by apply H. Qed.

(** The body of the loop ran for every element, and what it appended for
    each is in the result. *)
Lemma pour_chaque_corps {A B} (l : list A) (corps : A → option (list B))
    (bs : list B) (a : A) :
  pour_chaque l corps = Some bs → a ∈ l →
  ∃ ba, corps a = Some ba ∧ ∀ b, b ∈ ba → b ∈ bs.
Proof.
  intros H Ha.
  destruct (corps a) as [ba |] eqn:Hca.
  - exists ba. split; [done |]. intros b Hb. by eapply pour_chaque_elem.
  - unfold pour_chaque in H.
    assert (mapM corps l = None) as Hm.
    { apply mapM_None, Exists_exists. by exists a. }
    by rewrite Hm in H.
Qed.

Lemma elem_of_jours_semaine (jour : Jour) : jour ∈ jours_semaine.
Proof. unfold jours_semaine. destruct jour; set_solver. Qed.

Lemma elem_of_shifts (shift : Shift) : shift ∈ shifts.
Proof. unfold shifts. destruct shift; set_solver. Qed.

(* ================================================================== *)
(** * The constraint builder always returns *)
(* ================================================================== *)

Section totalite.
Context (self : HotelPlanningSystem) (x : table) (besoins : Jour → Besoin).
Hypothesis Hx : couvre x (employees self).

Lemma couvre_disponibles : couvre x (get_employees_disponibles self).
Proof. by apply couvre_filter. Qed.

Lemma contraintes_indisponibles_Some : is_Some (contraintes_indisponibles self x).
Proof.
  apply pour_chaque_is_Some. intros emp Hemp.
  destruct (Employee.disponible emp); simpl; [done |].
  apply pour_chaque_is_Some. intros jour _.
  apply pour_chaque_is_Some. intros shift _.
  by apply variable_nulle_Some, Hx.
Qed.

Lemma contraintes_nuit_Some jour : is_Some (contraintes_nuit self x besoins jour).
Proof.
  unfold contraintes_nuit. cbv zeta.
  apply bind_is_Some.
  - case_match; [| done]. apply bind_is_Some; [| done].
    apply lpSum_employes_Some, couvre_filter, couvre_disponibles.
  - intros c_requis _. apply bind_is_Some; [| done].
    apply pour_chaque_is_Some. intros emp Hemp.
    apply variable_nulle_Some.
    by apply list_elem_of_filter in Hemp as [_ ?%couvre_disponibles].
Qed.

Lemma contraintes_jour_Some jour shift besoin :
  is_Some (contraintes_jour self x jour shift besoin).
Proof.
  pose proof couvre_disponibles as Hd.
  unfold contraintes_jour. cbv zeta.
  apply bind_is_Some.
  { case_match; [| done]. apply bind_is_Some; [| done].
    by apply lpSum_employes_Some, couvre_filter. }
  intros c_superviseur _. apply bind_is_Some.
  { case_match; [| done]. apply bind_is_Some.
    - by apply lpSum_employes_Some, couvre_filter.
    - intros r _. apply bind_is_Some; [| done].
      by apply lpSum_employes_Some, couvre_filter. }
  intros c_personnel _. apply bind_is_Some.
  { case_match.
    - apply bind_is_Some; [| done]. by apply lpSum_employes_Some, couvre_filter.
    - apply pour_chaque_is_Some. intros c Hc. apply variable_nulle_Some.
      by apply list_elem_of_filter in Hc as [_ ?%Hd]. }
  intros c_concierge _. apply bind_is_Some; [| done].
  case_match; [| done]. apply bind_is_Some; [| done].
  apply lpSum_employes_Some. repeat apply couvre_app; by apply couvre_filter.
Qed.

Lemma contraintes_couverture_Some : is_Some (contraintes_couverture self x besoins).
Proof.
  apply pour_chaque_is_Some. intros jour _.
  apply pour_chaque_is_Some. intros shift _.
  destruct shift; auto using contraintes_nuit_Some, contraintes_jour_Some.
Qed.

Lemma contraintes_employe_Some emp :
  is_Some (x !! Employee.prenom emp) → is_Some (contraintes_employe x emp).
Proof.
  intros He. unfold contraintes_employe. cbv zeta.
  apply bind_is_Some.
  { apply pour_chaque_is_Some. intros jour _.
    apply bind_is_Some; [by apply lpSum_shifts_Some | done]. }
  intros c_un_shift _. apply bind_is_Some.
  { apply bind_is_Some; [by apply lpSum_jours_Some | done]. }
  intros c_semaine _. apply bind_is_Some.
  { apply pour_chaque_is_Some. intros jours_seq _.
    apply bind_is_Some; [by apply lpSum_jours_Some | done]. }
  intros c_consecutifs _. apply bind_is_Some; [| done].
  case_decide; [| done].
  apply pour_chaque_is_Some. intros jour _.
  apply bind_is_Some; [by apply variable_nulle_Some |].
  intros c_nuit _. apply bind_is_Some; [by apply variable_nulle_Some |].
  intros c_apres_midi _. apply bind_is_Some; [| done].
  case_match; [by apply variable_nulle_Some | done].
Qed.

Lemma _ajouter_contraintes_Some : is_Some (_ajouter_contraintes self x besoins).
Proof.
  unfold _ajouter_contraintes. cbv zeta.
  apply bind_is_Some; [apply contraintes_indisponibles_Some |].
  intros c1 _. apply bind_is_Some; [apply contraintes_couverture_Some |].
  intros c2 _. apply bind_is_Some; [| done].
  apply pour_chaque_is_Some. intros emp Hemp.
  by apply contraintes_employe_Some, couvre_disponibles.
Qed.
End totalite.

(* ================================================================== *)
(** * Constraints the builder adds *)
(* ================================================================== *)

Lemma _ajouter_contraintes_inv self x besoins cs :
  _ajouter_contraintes self x besoins = Some cs →
  ∃ c1 c2 c3,
    contraintes_indisponibles self x = Some c1
    ∧ contraintes_couverture self x besoins = Some c2
    ∧ pour_chaque (get_employees_disponibles self) (contraintes_employe x) = Some c3
    ∧ cs = c1 ++ c2 ++ c3.
Proof.
  unfold _ajouter_contraintes. cbv zeta. intros H.
  apply bind_Some in H as (c1 & H1 & H).
  apply bind_Some in H as (c2 & H2 & H).
  apply bind_Some in H as (c3 & H3 & H).
  injection H as <-. by exists c1, c2, c3.
Qed.

(** Line 216: every variable of an unavailable employee is set to 0. *)
Lemma contrainte_indisponible self x besoins cs emp jour shift v :
  _ajouter_contraintes self x besoins = Some cs →
  emp ∈ employees self → Employee.disponible emp = false →
  lire x emp jour shift = Some v →
  contrainte [v] EQ 0 ∈ cs.
Proof.
  intros Hcs Hemp Hd Hv.
  apply _ajouter_contraintes_inv in Hcs as (c1 & c2 & c3 & H1 & _ & _ & ->).
  apply elem_of_app. left.
  destruct (pour_chaque_corps _ _ _ _ H1 Hemp) as (be & Hbe & Hin).
  apply Hin. rewrite Hd in Hbe. simpl in Hbe.
  destruct (pour_chaque_corps _ _ _ _ Hbe (elem_of_jours_semaine jour)) as (bj & Hbj & Hinj).
  apply Hinj.
  destruct (pour_chaque_corps _ _ _ _ Hbj (elem_of_shifts shift)) as (bs & Hbs & Hins).
  apply Hins. unfold variable_nulle in Hbs. rewrite Hv in Hbs.
  injection Hbs as <-. by left.
Qed.

Lemma contraintes_nuit_dans_couverture self x besoins c2 jour :
  contraintes_couverture self x besoins = Some c2 →
  ∃ cn, contraintes_nuit self x besoins jour = Some cn ∧ ∀ c, c ∈ cn → c ∈ c2.
Proof.
  intros H2.
  destruct (pour_chaque_corps _ _ _ _ H2 (elem_of_jours_semaine jour)) as (bj & Hbj & Hinj).
  destruct (pour_chaque_corps _ _ _ _ Hbj (elem_of_shifts Nuit)) as (bs & Hbs & Hins).
  exists bs. split; [done |]. auto.
Qed.

(** Line 230: the night variable of every available employee who is not a
    night receptionist is set to 0. *)
Lemma contrainte_autres_nuit self x besoins cs emp jour v :
  _ajouter_contraintes self x besoins = Some cs →
  emp ∈ employees self → Employee.disponible emp = true →
  ¬ est_receptionniste_nuit emp →
  lire x emp jour Nuit = Some v →
  contrainte [v] EQ 0 ∈ cs.
Proof.
  intros Hcs Hemp Hd Hn Hv.
  apply _ajouter_contraintes_inv in Hcs as (c1 & c2 & c3 & _ & H2 & _ & ->).
  apply elem_of_app. right. apply elem_of_app. left.
  destruct (contraintes_nuit_dans_couverture _ _ _ _ jour H2) as (cn & Hcn & Hin).
  apply Hin. unfold contraintes_nuit in Hcn. cbv zeta in Hcn.
  apply bind_Some in Hcn as (c_requis & _ & Hcn).
  apply bind_Some in Hcn as (c_autres & Ha & Hcn).
  injection Hcn as <-. apply elem_of_app. right.
  eapply (pour_chaque_elem _ _ _ emp); [exact Ha | | |].
  - apply list_elem_of_filter. split.
    + intros [Hnuit _]%list_elem_of_filter. by apply Hn.
    + apply list_elem_of_filter. by split.
  - unfold variable_nulle. by rewrite Hv.
  - by left.
Qed.

(** Line 225: when the number required is positive, the night variables
    of the available night receptionists sum to it. *)
Lemma contrainte_requis_nuit self x besoins cs jour vs :
  let nb_requis := Z.min (receptionists (nuit (besoins jour)))
                         (len (receptionnistes_nuit_disponibles self)) in
  _ajouter_contraintes self x besoins = Some cs →
  0 < nb_requis →
  lpSum_employes x (receptionnistes_nuit_disponibles self) jour Nuit = Some vs →
  contrainte vs EQ nb_requis ∈ cs.
Proof.
  intros nb_requis Hcs Hpos Hvs.
  apply _ajouter_contraintes_inv in Hcs as (c1 & c2 & c3 & _ & H2 & _ & ->).
  apply elem_of_app. right. apply elem_of_app. left.
  destruct (contraintes_nuit_dans_couverture _ _ _ _ jour H2) as (cn & Hcn & Hin).
  apply Hin. unfold contraintes_nuit in Hcn. cbv zeta in Hcn.
  rewrite pool_receptionnistes_nuit in Hcn. fold nb_requis in Hcn.
  rewrite (proj2 (Z.ltb_lt 0 nb_requis) Hpos), Hvs in Hcn. simpl in Hcn.
  apply bind_Some in Hcn as (c_autres & _ & Hcn).
  injection Hcn as <-. by left.
Qed.

Lemma elem_of_fenetres (w : list Jour) :
  w ∈ fenetres
  ↔ w = [Lundi; Mardi; Mercredi; Jeudi; Vendredi; Samedi]
    ∨ w = [Mardi; Mercredi; Jeudi; Vendredi; Samedi; Dimanche].
Proof. unfold fenetres. simpl. rewrite !elem_of_cons, elem_of_nil. tauto. Qed.

(** Line 275: for every available employee and every window of six days,
    the variables of the window sum to 5 at most. *)
Lemma contrainte_consecutifs self x besoins cs emp jours_seq vs :
  _ajouter_contraintes self x besoins = Some cs →
  emp ∈ employees self → Employee.disponible emp = true →
  jours_seq ∈ fenetres →
  lpSum_jours x emp jours_seq = Some vs →
  contrainte vs LE 5 ∈ cs.
Proof.
  intros Hcs Hemp Hd Hw Hvs.
  apply _ajouter_contraintes_inv in Hcs as (c1 & c2 & c3 & _ & _ & H3 & ->).
  apply elem_of_app. right. apply elem_of_app. right.
  assert (emp ∈ get_employees_disponibles self) as Hemp'.
  { apply list_elem_of_filter. by split. }
  destruct (pour_chaque_corps _ _ _ _ H3 Hemp') as (be & Hbe & Hin).
  apply Hin. unfold contraintes_employe in Hbe. cbv zeta in Hbe.
  apply bind_Some in Hbe as (c_un_shift & _ & Hbe).
  apply bind_Some in Hbe as (c_semaine & _ & Hbe).
  apply bind_Some in Hbe as (c_consecutifs & Hc & Hbe).
  apply bind_Some in Hbe as (c_role & _ & Hbe).
  injection Hbe as <-.
  apply elem_of_app. right. apply elem_of_app. right. apply elem_of_app. left.
  eapply (pour_chaque_elem _ _ _ jours_seq); [exact Hc | done | |].
  - cbv beta. by rewrite Hvs.
  - by left.
Qed.

(* ================================================================== *)
(** * Solutions *)
(* ================================================================== *)

Lemma solution_elem varValue cs c :
  solution varValue cs = true → c ∈ cs → satisfait varValue c = true.
Proof.
  unfold solution. rewrite forallb_forall. intros H Hc.
  by apply H, list_elem_of_In.
Qed.

Lemma variable_nulle_satisfaite varValue v :
  satisfait varValue (contrainte [v] EQ 0) = true → varValue v = false.
Proof.
  unfold satisfait, somme, valeur. simpl. destruct (varValue v); [| done].
  intros H. apply Z.eqb_eq in H. lia.
Qed.

Lemma valeur_bornes varValue v : 0 ≤ valeur varValue v ≤ 1.
Proof. unfold valeur. destruct (varValue v); lia. Qed.

Lemma somme_app varValue vs ws :
  somme varValue (vs ++ ws) = somme varValue vs + somme varValue ws.
Proof. induction vs as [| v vs IH]; simpl; lia. Qed.

(* ================================================================== *)
(** * The problem handed to the solver *)
(* ================================================================== *)

(** [generer_planning_optimise] always reaches [prob.solve()]: the
    objective and the constraints are built for every roster and every
    pair of forecasts. *)
Lemma probleme_Some self checkins checkouts :
  ∃ prob, probleme self checkins checkouts = Some prob
          ∧ _ajouter_contraintes self (variables_decision self)
              (calculer_besoins_personnel self checkins checkouts)
            = Some (constraints prob).
Proof.
  pose proof (variables_decision_couvre self) as Hx.
  unfold probleme. cbv zeta.
  destruct (pour_chaque_is_Some (employees self)
              (λ emp, lpSum_jours (variables_decision self) emp jours_semaine))
    as [obj ->].
  { intros emp Hemp. by apply lpSum_jours_Some, Hx. }
  destruct (_ajouter_contraintes_Some self (variables_decision self)
              (calculer_besoins_personnel self checkins checkouts) Hx) as [cs Hcs].
  rewrite Hcs. simpl. by eexists.
Qed.

Lemma besoin_nuit self checkins checkouts jour :
  receptionists (nuit (calculer_besoins_personnel self checkins checkouts jour))
  = Z.min 2 (len (receptionnistes_nuit_disponibles self)).
Proof. simpl. by rewrite pool_nuit_besoins. Qed.

(* ================================================================== *)
(** * The extracted schedule *)
(* ================================================================== *)

Lemma lignes_Some (x : table) (l : list Employee.t) :
  couvre x l →
  ∃ lignes, mapM (λ emp, t ← x !! Employee.prenom emp; Some (emp, t)) l = Some lignes.
Proof.
  intros Hc. apply mapM_is_Some, Forall_forall. intros emp Hemp. simpl.
  destruct (Hc emp Hemp) as [t ->]. done.
Qed.

Lemma lignes_elem (x : table) (l : list Employee.t) lignes et :
  mapM (λ emp, t ← x !! Employee.prenom emp; Some (emp, t)) l = Some lignes →
  et ∈ lignes ↔ et.1 ∈ l ∧ x !! Employee.prenom et.1 = Some et.2.
Proof.
  intros Hm. apply mapM_Some in Hm. split.
  - intros [i Hi]%list_elem_of_lookup.
    destruct (Forall2_lookup_r _ _ _ _ _ Hm Hi) as (emp & Hemp & Heq).
    apply bind_Some in Heq as (t & Ht & Heq). injection Heq as <-. simpl.
    split; [| done]. apply list_elem_of_lookup. by exists i.
  - intros [[i Hi]%list_elem_of_lookup Ht].
    destruct (Forall2_lookup_l _ _ _ _ _ Hm Hi) as (et' & Het' & Heq).
    rewrite Ht in Heq. simpl in Heq. injection Heq as <-.
    apply list_elem_of_lookup. exists i. by destruct et.
Qed.

Lemma _extraire_planning_Some self x varValue :
  couvre x (employees self) → is_Some (_extraire_planning self x varValue).
Proof.
  intros Hc. unfold _extraire_planning.
  destruct (lignes_Some x _ Hc) as [lignes ->]. done.
Qed.

(** The team of a shift consists of the employees of the roster whose
    variable for that shift has value 1. *)
Lemma _extraire_planning_elem self x varValue (planning : Planning) jour shift a :
  _extraire_planning self x varValue = Some planning →
  a ∈ planning jour shift
  ↔ ∃ emp t, emp ∈ employees self ∧ x !! Employee.prenom emp = Some t
             ∧ varValue (t jour shift) = true ∧ a = fiche emp.
Proof.
  unfold _extraire_planning. intros H.
  apply bind_Some in H as (lignes & Hl & H). injection H as <-.
  rewrite list_elem_of_fmap. split.
  - intros ([emp t] & -> & [Hv Het]%list_elem_of_filter).
    apply (lignes_elem _ _ _ _ Hl) in Het as [? ?]. by exists emp, t.
  - intros (emp & t & Hemp & Ht & Hv & ->). exists (emp, t). split; [done |].
    apply list_elem_of_filter. split; [done |]. by apply (lignes_elem _ _ _ _ Hl).
Qed.

(** An employee of the roster is counted present on a shift exactly when
    the variable stored under their first name has value 1. *)
Lemma present_extrait self x varValue (planning : Planning) emp t jour shift :
  _extraire_planning self x varValue = Some planning →
  emp ∈ employees self → x !! Employee.prenom emp = Some t →
  present planning emp jour shift = varValue (t jour shift).
Proof.
  intros H Hemp Ht. unfold present.
  destruct (varValue (t jour shift)) eqn:Hv.
  - apply existsb_exists. exists (fiche emp). split.
    + apply list_elem_of_In, (_extraire_planning_elem _ _ _ _ _ _ _ H). by exists emp, t.
    + by apply bool_decide_eq_true.
  - apply not_true_is_false. intros (a & Ha & Hp)%existsb_exists.
    apply list_elem_of_In, (_extraire_planning_elem _ _ _ _ _ _ _ H) in Ha
      as (emp' & t' & _ & Ht' & Hv' & ->).
    apply bool_decide_eq_true in Hp. simpl in Hp. rewrite Hp, Ht in Ht'.
    injection Ht' as <-. congruence.
Qed.

(* ================================================================== *)
(** * Consecutive days *)
(* ================================================================== *)

Lemma lpSum_shifts_eq x emp t jour :
  x !! Employee.prenom emp = Some t →
  lpSum_shifts x emp jour = Some [t jour Matin; t jour Apres_midi; t jour Nuit].
Proof. intros Ht. unfold lpSum_shifts, lire. simpl. by rewrite Ht. Qed.

Lemma lpSum_jours_eq x emp t js :
  x !! Employee.prenom emp = Some t →
  lpSum_jours x emp js
  = Some (jour ← js; [t jour Matin; t jour Apres_midi; t jour Nuit]).
Proof.
  intros Ht. unfold lpSum_jours, pour_chaque.
  induction js as [| jour js IH]; [done |].
  simpl. rewrite (lpSum_shifts_eq _ _ _ _ Ht). simpl.
  destruct (mapM (lpSum_shifts x emp) js) as [blocs |]; simpl in *; [| done].
  by injection IH as ->.
Qed.

(** The days worked in a list of days are at most the sum of the
    variables of these days. *)
Lemma jours_travailles_dans_somme self x varValue (planning : Planning) emp t js :
  _extraire_planning self x varValue = Some planning →
  emp ∈ employees self → x !! Employee.prenom emp = Some t →
  jours_travailles_dans planning emp js
  ≤ somme varValue (jour ← js; [t jour Matin; t jour Apres_midi; t jour Nuit]).
Proof.
  intros H Hemp Ht. unfold jours_travailles_dans, len.
  induction js as [| jour js IH]; [done |].
  rewrite filter_cons, bind_cons, somme_app.
  change (somme varValue [t jour Matin; t jour Apres_midi; t jour Nuit])
    with (valeur varValue (t jour Matin)
          + (valeur varValue (t jour Apres_midi)
             + (valeur varValue (t jour Nuit) + 0))).
  pose proof (valeur_bornes varValue (t jour Matin)).
  pose proof (valeur_bornes varValue (t jour Apres_midi)).
  pose proof (valeur_bornes varValue (t jour Nuit)).
  case_decide as Hw; [| lia].
  unfold travaille_ce_jour in Hw. simpl in Hw.
  rewrite !(present_extrait _ _ _ _ _ _ _ _ H Hemp Ht) in Hw.
  rewrite length_cons, Nat2Z.inj_succ.
  unfold valeur in *.
  destruct (varValue (t jour Matin)), (varValue (t jour Apres_midi)),
    (varValue (t jour Nuit)); simpl in Hw; try done; lia.
Qed.

Lemma jours_travailles_dans_le (planning : Planning) emp js :
  jours_travailles_dans planning emp js ≤ len js.
Proof.
  unfold jours_travailles_dans, len.
  pose proof (length_filter (λ jour, travaille_ce_jour planning emp jour = true) js).
  lia.
Qed.

Lemma somme_nulle varValue vs :
  (∀ v, v ∈ vs → varValue v = false) → somme varValue vs = 0.
Proof.
  induction vs as [| v vs IH]; intros H; simpl; [done |].
  unfold valeur. rewrite (H v) by (by left). rewrite IH; [done |].
  intros w Hw. apply H. by right.
Qed.

(** In a solution, nobody of the roster works more than 5 of the days of
    a window. *)
Lemma fenetre_bornee self x besoins cs varValue (planning : Planning) emp jours_seq :
  _ajouter_contraintes self x besoins = Some cs →
  solution varValue cs = true →
  _extraire_planning self x varValue = Some planning →
  emp ∈ employees self → jours_seq ∈ fenetres →
  jours_travailles_dans planning emp jours_seq ≤ 5.
Proof.
  intros Hcs Hsol Hp Hemp Hw.
  assert (is_Some (x !! Employee.prenom emp)) as [t Ht].
  { unfold _extraire_planning in Hp. apply bind_Some in Hp as (lignes & Hl & _).
    apply mapM_Some in Hl. apply list_elem_of_lookup in Hemp as [i Hi].
    destruct (Forall2_lookup_l _ _ _ _ _ Hl Hi) as (et & _ & Heq).
    apply bind_Some in Heq as (t & Ht & _). by exists t. }
  pose proof (jours_travailles_dans_somme _ _ _ _ _ _ jours_seq Hp Hemp Ht) as Hle.
  pose proof (lpSum_jours_eq _ _ _ jours_seq Ht) as Hvs.
  destruct (Employee.disponible emp) eqn:Hd.
  - pose proof (contrainte_consecutifs _ _ _ _ _ _ _ Hcs Hemp Hd Hw Hvs) as Hc.
    pose proof (solution_elem _ _ _ Hsol Hc) as Hs.
    unfold satisfait in Hs. simpl in Hs. apply Z.leb_le in Hs. lia.
  - rewrite somme_nulle in Hle; [lia |].
    intros v (jour & Hv & _)%list_elem_of_bind.
    assert (∃ shift, v = t jour shift) as [shift ->].
    { rewrite !elem_of_cons, elem_of_nil in Hv.
      destruct Hv as [-> | [-> | [-> | []]]]; by eexists. }
    eapply variable_nulle_satisfaite, solution_elem; [done |].
    eapply contrainte_indisponible; try done.
    unfold lire. by rewrite Ht.
Qed.

(** C6. For every available employee, the constraints handed to the
    solver bound by 5 the sum of the employee's variables over each
    window of six days of the week (days 1–6 and days 2–7); hence in the
    schedule extracted from any solution no employee of the roster works
    more than 5 days within 6 consecutive days. *)
Theorem consecutifs_spec self checkins checkouts :
  ∃ prob,
    probleme self checkins checkouts = Some prob
    ∧ fenetres = [[Lundi; Mardi; Mercredi; Jeudi; Vendredi; Samedi];
                  [Mardi; Mercredi; Jeudi; Vendredi; Samedi; Dimanche]]
    ∧ (∀ emp jours_seq,
         emp ∈ employees self → Employee.disponible emp = true →
         jours_seq ∈ fenetres →
         ∃ vs, lpSum_jours (variables_decision self) emp jours_seq = Some vs
               ∧ contrainte vs LE 5 ∈ constraints prob)
    ∧ (∀ varValue,
         solution varValue (constraints prob) = true →
         ∃ planning : Planning,
           _extraire_planning self (variables_decision self) varValue = Some planning
           ∧ ∀ emp i, emp ∈ employees self →
               jours_travailles_dans planning emp (take 6 (drop i jours_semaine)) ≤ 5).
Proof.
  destruct (probleme_Some self checkins checkouts) as (prob & Hprob & Hcs).
  pose proof (variables_decision_couvre self) as Hx.
  exists prob. split_and!; [done | done | |].
  - intros emp jours_seq Hemp Hd Hw.
    destruct (lpSum_jours_Some _ emp jours_seq (Hx emp Hemp)) as [vs Hvs].
    exists vs. split; [done |]. by eapply contrainte_consecutifs.
  - intros varValue Hsol.
    destruct (_extraire_planning_Some self _ varValue Hx) as [planning Hp].
    exists planning. split; [done |]. intros emp i Hemp.
    destruct (decide (i < 2)%nat) as [Hi | Hi].
    + eapply fenetre_bornee; try done.
      apply elem_of_fenetres. destruct i as [| [| i]]; [by left | by right | lia].
    + etrans; [apply jours_travailles_dans_le |].
      unfold len. rewrite length_take, length_drop.
      change (length jours_semaine) with 7%nat. lia.
Qed.

(* ================================================================== *)
(** * Validator *)
(* ================================================================== *)

Lemma filter_aucun {A} (P : A → Prop) `{!∀ a, Decision (P a)} (l : list A) :
  (∀ a, a ∈ l → ¬ P a) → filter P l = [].
Proof.
  intros Hnone. destruct (filter P l) as [| a l'] eqn:Hf; [done |].
  assert (a ∈ filter P l) as [Ha Hin]%list_elem_of_filter by (rewrite Hf; by left).
  by destruct (Hnone a Hin).
Qed.

Lemma violations_shift_jour_dans self (planning : Planning) jour shift v :
  shift ∈ [Matin; Apres_midi] →
  v ∈ violations_shift_jour planning jour shift →
  v ∈ _verifier_violations self planning.
Proof.
  intros Hs Hv. unfold _verifier_violations.
  apply elem_of_app. left. apply list_elem_of_bind.
  exists jour. split; [| apply elem_of_jours_semaine].
  apply elem_of_app. left. apply list_elem_of_bind. by exists shift.
Qed.

Lemma violations_employe_dans self (planning : Planning) emp v :
  emp ∈ employees self →
  v ∈ violations_employe planning emp →
  v ∈ _verifier_violations self planning.
Proof.
  intros He Hv. unfold _verifier_violations.
  apply elem_of_app. right. apply list_elem_of_bind. by exists emp.
Qed.

(** A weekday morning whose team has no concierge is reported, whatever
    the availability of the concierges. *)
Lemma violation_concierge_obligatoire self (planning : Planning) jour :
  weekend jour = false →
  (∀ a, a ∈ planning jour Matin → a_role a ≠ "concierge") →
  V_concierge_obligatoire jour Matin 0 ∈ _verifier_violations self planning.
Proof.
  intros Hw Hnone.
  apply (violations_shift_jour_dans _ _ jour Matin); [by left |].
  unfold violations_shift_jour. cbv zeta. rewrite Hw. simpl.
  assert (filter (λ e, a_role e = "concierge") (planning jour Matin) = []) as ->.
  { apply filter_aucun. intros a Ha. by apply Hnone. }
  simpl. apply elem_of_app. right. by left.
Qed.

(** With no available concierge, no solution puts a concierge in a team. *)
Lemma aucun_concierge_extrait self x besoins cs varValue (planning : Planning)
    jour shift a :
  concierges_disponibles self = [] →
  _ajouter_contraintes self x besoins = Some cs →
  solution varValue cs = true →
  _extraire_planning self x varValue = Some planning →
  a ∈ planning jour shift → a_role a ≠ "concierge".
Proof.
  intros Hnone Hcs Hsol Hp Ha Hrole.
  apply (_extraire_planning_elem _ _ _ _ _ _ _ Hp) in Ha
    as (emp & t & Hemp & Ht & Hv & ->).
  simpl in Hrole.
  destruct (Employee.disponible emp) eqn:Hd.
  - assert (emp ∈ concierges_disponibles self) as Hin.
    { apply list_elem_of_filter. by split. }
    rewrite Hnone in Hin. by apply elem_of_nil in Hin.
  - assert (varValue (t jour shift) = false); [| congruence].
    eapply variable_nulle_satisfaite, solution_elem; [done |].
    eapply contrainte_indisponible; try done.
    unfold lire. by rewrite Ht.
Qed.

(** C2, as amended. For every roster with no available concierge and
    every weekday, [calculer_besoins_personnel] still sets the morning
    ['concierge'] to 1 and no solution of the constraints puts a concierge
    in the morning team; [_verifier_violations] does not look at
    availability and reports "Concierge obligatoire en semaine le matin
    (trouvé: 0)" for that morning. *)
Theorem sans_concierge_spec self checkins checkouts jour :
  concierges_disponibles self = [] → weekend jour = false →
  concierge (matin (calculer_besoins_personnel self checkins checkouts jour)) = 1
  ∧ ∃ prob,
      probleme self checkins checkouts = Some prob
      ∧ ∀ varValue,
          solution varValue (constraints prob) = true →
          ∃ planning : Planning,
            _extraire_planning self (variables_decision self) varValue = Some planning
            ∧ (∀ a, a ∈ planning jour Matin → a_role a ≠ "concierge")
            ∧ V_concierge_obligatoire jour Matin 0 ∈ _verifier_violations self planning.
Proof.
  intros Hnone Hw. split; [simpl; by rewrite Hw |].
  destruct (probleme_Some self checkins checkouts) as (prob & Hprob & Hcs).
  exists prob. split; [done |]. intros varValue Hsol.
  destruct (_extraire_planning_Some self _ varValue (variables_decision_couvre self))
    as [planning Hp].
  exists planning. split; [done |].
  assert (∀ a, a ∈ planning jour Matin → a_role a ≠ "concierge") as Hno.
  { intros a Ha. by eapply aucun_concierge_extrait. }
  split; [done |]. by apply violation_concierge_obligatoire.
Qed.

Lemma sans_concierge_spec_witness :
  concierge (matin (calculer_besoins_personnel equipe_sans_concierge
                      previsions_20 previsions_20 Lundi)) = 1.
Proof.
  refine (proj1 (sans_concierge_spec equipe_sans_concierge previsions_20
                   previsions_20 Lundi _ _)); reflexivity.
Defined.

(** The claim of C2 fails on [equipe_sans_concierge]: the values
    [valeurs_sans_concierge] are a solution of the constraints and the
    validator reports the Monday morning of the extracted schedule for
    its missing concierge. *)
Lemma sans_concierge_counterexample :
  concierges_disponibles equipe_sans_concierge = []
  ∧ weekend Lundi = false
  ∧ ∃ prob (planning : Planning),
      probleme equipe_sans_concierge previsions_20 previsions_20 = Some prob
      ∧ solution valeurs_sans_concierge (constraints prob) = true
      ∧ _extraire_planning equipe_sans_concierge
          (variables_decision equipe_sans_concierge) valeurs_sans_concierge
        = Some planning
      ∧ V_concierge_obligatoire Lundi Matin 0
        ∈ _verifier_violations equipe_sans_concierge planning.
Proof.
  split; [reflexivity |]. split; [reflexivity |].
  destruct (probleme_Some equipe_sans_concierge previsions_20 previsions_20)
    as (prob & Hprob & Hcs).
  destruct (_extraire_planning_Some equipe_sans_concierge _ valeurs_sans_concierge
              (variables_decision_couvre equipe_sans_concierge)) as [planning Hp].
  exists prob, planning. split; [done |].
  assert (solution valeurs_sans_concierge (constraints prob) = true) as Hsol.
  { generalize dependent (constraints prob). intros cs Hcs.
    vm_compute in Hcs. injection Hcs as <-. vm_compute. reflexivity. }
  split; [done |]. split; [done |].
  apply violation_concierge_obligatoire; [reflexivity |].
  intros a Ha. by eapply (aucun_concierge_extrait equipe_sans_concierge).
Qed.

(* ================================================================== *)
(** * Forecasts are not validated *)
(* ================================================================== *)

(** The method fails only where [prob.solve()] raises: the problem is
    always built, and the values the solver leaves are always extracted. *)
Lemma generer_planning_optimise_Some solve self checkins checkouts :
  ∃ prob,
    probleme self checkins checkouts = Some prob
    ∧ (solve prob = None → generer_planning_optimise solve self checkins checkouts = None)
    ∧ ∀ varValue, solve prob = Some varValue →
        ∃ planning : Planning,
          generer_planning_optimise solve self checkins checkouts = Some planning
          ∧ _extraire_planning self (variables_decision self) varValue = Some planning.
Proof.
  destruct (probleme_Some self checkins checkouts) as (prob & Hprob & _).
  exists prob. unfold generer_planning_optimise. rewrite Hprob. simpl.
  split_and!; [done | by intros -> |]. intros varValue ->. simpl.
  destruct (_extraire_planning_Some self _ varValue (variables_decision_couvre self))
    as [planning Hp].
  by exists planning.
Qed.

Lemma ceil_div_negatif (n : Z) : n ≤ 0 → ceil_div n clients_per_receptionist ≤ 0.
Proof.
  intros Hn. unfold ceil_div, clients_per_receptionist.
  pose proof (Z.div_mod (- n) 50 ltac:(lia)).
  pose proof (Z.mod_pos_bound (- n) 50 ltac:(lia)).
  lia.
Qed.

Lemma total_un (jour : Jour) (c a : Z) :
  c ≤ 0 →
  (let total := Z.min (Z.max 1 c)
                  (if negb (weekend jour) then max_receptionists_per_shift - 1
                   else max_receptionists_per_shift) in
   if a <? 100 then Z.max 1 (total - 1) else total) = 1.
Proof.
  intros Hc. unfold max_receptionists_per_shift. cbv zeta.
  destruct (negb (weekend jour)), (a <? 100); lia.
Qed.

(** C7, as amended. Forecasts are never rejected: for every roster and
    every pair of forecast dictionaries [generer_planning_optimise]
    builds the problem and hands it to the solver; it returns a schedule
    whenever the call [prob.solve()] returns, and fails only when that
    call raises. A day name missing from a forecast is read as a count
    of 0, and a count that is negative (or 0) yields a total of 1 for its
    shift. *)
Theorem previsions_non_validees solve self checkins checkouts :
  (∃ prob,
     probleme self checkins checkouts = Some prob
     ∧ (∀ varValue, solve prob = Some varValue →
          ∃ planning : Planning,
            generer_planning_optimise solve self checkins checkouts = Some planning)
     ∧ (generer_planning_optimise solve self checkins checkouts = None →
        solve prob = None))
  ∧ (∀ jour, checkins !! nom_jour jour = None →
       calculer_besoins_personnel self checkins checkouts jour
       = calculer_besoins_personnel self (<[nom_jour jour := 0]> checkins) checkouts jour)
  ∧ (∀ jour, checkouts !! nom_jour jour = None →
       calculer_besoins_personnel self checkins checkouts jour
       = calculer_besoins_personnel self checkins (<[nom_jour jour := 0]> checkouts) jour)
  ∧ (∀ jour n, checkouts !! nom_jour jour = Some n → n ≤ 0 →
       total_personnel (matin (calculer_besoins_personnel self checkins checkouts jour)) = 1)
  ∧ (∀ jour n, checkins !! nom_jour jour = Some n → n ≤ 0 →
       total_personnel (apres_midi (calculer_besoins_personnel self checkins checkouts jour)) = 1).
Proof.
  split_and!.
  - destruct (generer_planning_optimise_Some solve self checkins checkouts)
      as (prob & Hprob & _ & Hsome).
    exists prob. split_and!; [done | |].
    + intros varValue Hs. destruct (Hsome varValue Hs) as (planning & ? & _).
      by exists planning.
    + intros Hnone. destruct (solve prob) as [varValue |] eqn:Hs; [| done].
      destruct (Hsome varValue eq_refl) as (planning & ? & _). congruence.
  - intros jour Hnone. unfold calculer_besoins_personnel, besoins_du_jour.
    by rewrite Hnone, lookup_insert_eq.
  - intros jour Hnone. unfold calculer_besoins_personnel, besoins_du_jour.
    by rewrite Hnone, lookup_insert_eq.
  - intros jour n Hn Hneg. unfold calculer_besoins_personnel, besoins_du_jour.
    simpl. rewrite Hn. simpl. by apply total_un, ceil_div_negatif.
  - intros jour n Hn Hneg. unfold calculer_besoins_personnel, besoins_du_jour.
    simpl. rewrite Hn. simpl. by apply total_un, ceil_div_negatif.
Qed.

(** The claim of C7 fails on a forecast with a missing day and a negative
    count: the problem is built and, with any solver that returns on it,
    a schedule comes back. *)
Lemma previsions_invalides_counterexample :
  prevision_valide checkins_sans_dimanche = false
  ∧ prevision_valide checkouts_negatifs = false
  ∧ checkins_sans_dimanche !! "Dimanche" = None
  ∧ checkouts_negatifs !! "Lundi" = Some (-5)
  ∧ is_Some (probleme equipe_sans_concierge checkins_sans_dimanche checkouts_negatifs)
  ∧ (∀ solve,
       (∀ prob, is_Some (solve prob)) →
       is_Some (generer_planning_optimise solve equipe_sans_concierge
                  checkins_sans_dimanche checkouts_negatifs))
  ∧ total_personnel
      (matin (calculer_besoins_personnel equipe_sans_concierge
                checkins_sans_dimanche checkouts_negatifs Lundi)) = 1
  ∧ total_personnel
      (apres_midi (calculer_besoins_personnel equipe_sans_concierge
                     checkins_sans_dimanche checkouts_negatifs Dimanche)) = 1.
Proof.
  split_and!; try (vm_compute; reflexivity).
  - destruct (probleme_Some equipe_sans_concierge checkins_sans_dimanche
                checkouts_negatifs) as (prob & -> & _). done.
  - intros solve Hsolve.
    destruct (generer_planning_optimise_Some solve equipe_sans_concierge
                checkins_sans_dimanche checkouts_negatifs)
      as (prob & _ & _ & Hsome).
    destruct (Hsolve prob) as [varValue Hs].
    destruct (Hsome varValue Hs) as (planning & -> & _). done.
Qed.

(* ================================================================== *)
(** * Analyzer *)
(* ================================================================== *)

(** The flag [jour_travaille] at the end of the shift loop. *)
Lemma compter_shifts_jour_travaille (planning : Planning) emp jour heures shifts_travailles :
  (compter_shifts planning emp jour (heures, false, shifts_travailles)).1.2
  = travaille_ce_jour planning emp jour.
Proof.
  unfold compter_shifts, travaille_ce_jour, shifts. simpl.
  by destruct (present planning emp jour Matin),
    (present planning emp jour Apres_midi), (present planning emp jour Nuit).
Qed.

Lemma compter_jours_cons (planning : Planning) emp jour js heures jours_travailles
    shifts_travailles :
  compter_jours planning emp (jour :: js) (heures, jours_travailles, shifts_travailles)
  = compter_jours planning emp js
      (let '(heures, jour_travaille, shifts_travailles) :=
         compter_shifts planning emp jour (heures, false, shifts_travailles) in
       (heures,
        (if jour_travaille then jours_travailles + 1 else jours_travailles),
        shifts_travailles)).
Proof. reflexivity. Qed.

(** The counter [jours_travailles] at the end of the day loop. *)
Lemma compter_jours_jours_travailles (planning : Planning) emp js :
  ∀ heures jours_travailles shifts_travailles,
    (compter_jours planning emp js (heures, jours_travailles, shifts_travailles)).1.2
    = jours_travailles + jours_travailles_dans planning emp js.
Proof.
  unfold jours_travailles_dans, len.
  induction js as [| jour js IH]; intros h jt st.
  - simpl. lia.
  - rewrite compter_jours_cons.
    pose proof (compter_shifts_jour_travaille planning emp jour h st) as Hflag.
    destruct (compter_shifts planning emp jour (h, false, st)) as [[h' flag] st'].
    simpl in Hflag. subst flag. rewrite IH.
    destruct (travaille_ce_jour planning emp jour) eqn:Hw.
    + rewrite filter_cons_True by done. rewrite length_cons. lia.
    + rewrite filter_cons_False by (by rewrite Hw). lia.
Qed.

Lemma jours_travailles_heures_de (planning : Planning) emp :
  jours_travailles (heures_de planning emp)
  = jours_travailles_dans planning emp jours_semaine.
Proof.
  unfold heures_de.
  pose proof (compter_jours_jours_travailles planning emp jours_semaine 0 0 []) as H.
  destruct (compter_jours planning emp jours_semaine (0, 0, [])) as [[h jt] st].
  simpl in *. lia.
Qed.

Lemma respect_contrat_heures_de (planning : Planning) emp :
  respect_contrat (heures_de planning emp)
  = (jours_travailles_dans planning emp jours_semaine <=? Employee.jours_semaine emp).
Proof.
  rewrite <- jours_travailles_heures_de. unfold heures_de.
  by destruct (compter_jours planning emp jours_semaine (0, 0, [])) as [[h jt] st].
Qed.

(** The validator counts the same days. *)
Lemma jours_travailles_de_eq (planning : Planning) emp :
  jours_travailles_de planning emp = jours_travailles_dans planning emp jours_semaine.
Proof.
  unfold jours_travailles_de, jours_travailles_dans, len.
  assert (∀ js n,
            fold_left (λ jours_travailles jour,
                         if travaille_ce_jour planning emp jour
                         then jours_travailles + 1 else jours_travailles) js n
            = n + Z.of_nat (length (filter (λ jour, travaille_ce_jour planning emp jour = true) js)))
    as H.
  { induction js as [| jour js IH]; intros n; simpl; [lia |].
    rewrite IH.
    destruct (travaille_ce_jour planning emp jour) eqn:Hw.
    - rewrite filter_cons_True by done. rewrite length_cons. lia.
    - rewrite filter_cons_False by (by rewrite Hw). lia. }
  rewrite H. lia.
Qed.

(** Presence is decided by the first name alone. *)
Lemma present_prenom (planning : Planning) e1 e2 jour shift :
  Employee.prenom e1 = Employee.prenom e2 →
  present planning e1 jour shift = present planning e2 jour shift.
Proof. intros H. unfold present. by rewrite H. Qed.

Lemma compter_jours_prenom (planning : Planning) e1 e2 js etat :
  Employee.prenom e1 = Employee.prenom e2 →
  compter_jours planning e1 js etat = compter_jours planning e2 js etat.
Proof.
  intros H. unfold compter_jours, compter_shifts, present. by rewrite H.
Qed.

Lemma jours_travailles_dans_prenom (planning : Planning) e1 e2 js :
  Employee.prenom e1 = Employee.prenom e2 →
  jours_travailles_dans planning e1 js = jours_travailles_dans planning e2 js.
Proof.
  intros H. unfold jours_travailles_dans, travaille_ce_jour, present. by rewrite H.
Qed.

(** ['heures_par_employe'][key] is the entry of the last employee of the
    roster whose full name is [key]. *)
Lemma heures_par_employe_lookup self (planning : Planning) key r :
  heures_par_employe (analyser_planning self planning) !! key = Some r
  ↔ ∃ i emp, employees self !! i = Some emp ∧ nom_complet emp = key
             ∧ r = heures_de planning emp
             ∧ ∀ k emp', employees self !! k = Some emp' →
                         nom_complet emp' = key → (k ≤ i)%nat.
Proof.
  unfold analyser_planning. cbv zeta. simpl.
  assert (∀ l (d : gmap string HeuresEmploye),
            fold_left (λ (d : gmap string HeuresEmploye) emp,
                         <[nom_complet emp := heures_de planning emp]> d) l d !! key
            = Some r
            ↔ (∃ i emp, l !! i = Some emp ∧ nom_complet emp = key
                        ∧ r = heures_de planning emp
                        ∧ ∀ k emp', l !! k = Some emp' → nom_complet emp' = key → (k ≤ i)%nat)
              ∨ ((∀ emp, emp ∈ l → nom_complet emp ≠ key) ∧ d !! key = Some r)) as H.
  { induction l as [| e l IH]; intros d; simpl.
    - split.
      + intros H. right. split; [| done]. intros emp Hemp. by apply elem_of_nil in Hemp.
      + intros [(i & emp & Hi & _) | [_ H]]; [by destruct i | done].
    - rewrite IH. split.
      + intros [(i & emp & Hi & Hk & Hr & Hlast) | [Hnone Hd]].
        * left. exists (S i), emp. split_and!; try done.
          intros [| k] emp' Hk' Hkey; [lia |]. simpl in Hk'.
          specialize (Hlast k emp' Hk' Hkey). lia.
        * destruct (decide (nom_complet e = key)) as [Hek | Hek].
          -- left. exists 0%nat, e. rewrite <- Hek in Hd.
             rewrite lookup_insert_eq in Hd. injection Hd as <-.
             split_and!; try done.
             intros [| k] emp' Hk' Hkey; [lia |]. simpl in Hk'.
             exfalso. apply (Hnone emp'); [| done].
             apply list_elem_of_lookup. by exists k.
          -- right. rewrite lookup_insert_ne in Hd by done. split; [| done].
             intros emp Hemp. apply elem_of_cons in Hemp as [-> | Hemp]; [done |].
             by apply Hnone.
      + intros [(i & emp & Hi & Hk & Hr & Hlast) | [Hnone Hd]].
        * destruct i as [| i]; simpl in Hi.
          -- injection Hi as ->. right. split.
             ++ intros emp' Hemp' Hkey.
                apply list_elem_of_lookup in Hemp' as [k Hk'].
                specialize (Hlast (S k) emp' Hk' Hkey). lia.
             ++ by rewrite <- Hk, lookup_insert_eq, Hr.
          -- left. exists i, emp. split_and!; try done.
             intros k emp' Hk' Hkey. specialize (Hlast (S k) emp' Hk' Hkey). lia.
        * right. split.
          -- intros emp Hemp. apply Hnone. by right.
          -- rewrite lookup_insert_ne; [done |]. apply Hnone. by left. }
  rewrite H. split; [| by left].
  intros [? | [_ Hd]]; [done |]. by rewrite lookup_empty in Hd.
Qed.

(** When the full name of an employee is theirs alone, the entry under it
    is the one computed for them. *)
Lemma heures_par_employe_cle_unique self (planning : Planning) emp :
  emp ∈ employees self → cle_unique self emp →
  heures_par_employe (analyser_planning self planning) !! nom_complet emp
  = Some (heures_de planning emp).
Proof.
  intros Hemp Hu.
  (* the last position holding this full name *)
  assert (∀ l : list Employee.t, emp ∈ l →
               (∀ emp', emp' ∈ l → nom_complet emp' = nom_complet emp → emp' = emp) →
               ∃ i, l !! i = Some emp
                    ∧ ∀ k emp', l !! k = Some emp' →
                                nom_complet emp' = nom_complet emp → (k ≤ i)%nat)
    as Hlast.
  { induction l as [| e l IH]; intros Hin Hul; [by apply elem_of_nil in Hin |].
    destruct (decide (emp ∈ l)) as [Hl | Hl].
    - destruct (IH Hl) as (i & Hi & Hmax).
      { intros emp' Hemp'. apply Hul. by right. }
      exists (S i). split; [done |].
      intros [| k] emp' Hk Hkey; [lia |]. simpl in Hk.
      specialize (Hmax k emp' Hk Hkey). lia.
    - apply elem_of_cons in Hin as [-> | Hin]; [| done].
      exists 0%nat. split; [done |].
      intros [| k] emp' Hk Hkey; [lia |]. simpl in Hk.
      assert (emp' ∈ l) as Hemp' by (apply list_elem_of_lookup; by exists k).
      rewrite (Hul emp') in Hemp'; [done | by right | done]. }
  destruct (Hlast (employees self) Hemp Hu) as (i & Hi & Hmax).
  apply heures_par_employe_lookup. by exists i, emp.
Qed.

(* ================================================================== *)
(** * Further properties: workforce model and roster *)
(* ================================================================== *)

(** X1. Construction fixes the contractual days: for the four known
    contract types [Employee(...)] sets [jours_semaine] to 5, 4, 3 or 5
    whatever value was passed, for any other contract type it keeps the
    value passed; the other fields are those passed, and constructing
    again changes nothing. *)
Theorem Employee_new_spec prenom nom type_contrat jours_semaine role
    contraintes_speciales competences disponible motif_indisponibilite
    jours_absence jours_off_consecutifs :
  let e := Employee.new prenom nom type_contrat jours_semaine role
             contraintes_speciales competences disponible
             motif_indisponibilite jours_absence jours_off_consecutifs in
  Employee.__post_init__ e = e
  ∧ Employee.jours_semaine e
    = (if decide (type_contrat = "temps_plein") then 5
       else if decide (type_contrat = "mi_temps_4j") then 4
       else if decide (type_contrat = "mi_temps_3j") then 3
       else if decide (type_contrat = "nuit") then 5
       else jours_semaine)
  ∧ Employee.prenom e = prenom ∧ Employee.nom e = nom
  ∧ Employee.type_contrat e = type_contrat ∧ Employee.role e = role
  ∧ Employee.disponible e = disponible
  ∧ Employee.jours_absence e = jours_absence.
Proof.
  intros e. subst e. unfold Employee.new.
  split; [apply post_init_idempotent |].
  unfold Employee.__post_init__. simpl.
  repeat case_decide; simpl; done.
Qed.

(** X2. [jours_travail_max_semaine] is never negative; it does not exceed
    the contractual days when these and the absence days are not
    negative; and it is 0 exactly when the employee is unavailable, or
    absent 7 days or more, or absent at least as many days as the
    contract has. *)
Theorem jours_travail_max_semaine_bornes (emp : Employee.t) :
  0 ≤ Employee.jours_travail_max_semaine emp
  ∧ (0 ≤ Employee.jours_semaine emp → 0 ≤ Employee.jours_absence emp →
     Employee.jours_travail_max_semaine emp ≤ Employee.jours_semaine emp)
  ∧ (Employee.jours_travail_max_semaine emp = 0
     ↔ (Employee.disponible emp = false ∨ 7 ≤ Employee.jours_absence emp
        ∨ Employee.jours_semaine emp ≤ Employee.jours_absence emp)).
Proof.
  unfold Employee.jours_travail_max_semaine.
  destruct (Employee.disponible emp); simpl;
    [destruct (Z.leb_spec 7 (Employee.jours_absence emp)) |];
    split_and!; try lia; intuition (lia || discriminate).
Qed.

Lemma jours_travail_max_semaine_le (emp : Employee.t) :
  0 ≤ Employee.jours_semaine emp → 0 ≤ Employee.jours_absence emp →
  Employee.jours_travail_max_semaine emp ≤ Employee.jours_semaine emp.
Proof.
  unfold Employee.jours_travail_max_semaine. intros.
  destruct (Employee.disponible emp); simpl; [| lia].
  destruct (Z.leb_spec 7 (Employee.jours_absence emp)); lia.
Qed.

(** X3. [supprimer_employe] keeps, in order, exactly the employees whose
    first name or last name differs from the pair given (so it removes
    every employee bearing both names); doing it twice changes nothing
    more; and removing an employee just added gives the roster back
    when nobody bore both names before. *)
Theorem supprimer_employe_spec self prenom nom :
  (∀ e, e ∈ employees (supprimer_employe self prenom nom)
        ↔ e ∈ employees self
          ∧ ¬ (Employee.prenom e = prenom ∧ Employee.nom e = nom))
  ∧ employees (supprimer_employe self prenom nom) `sublist_of` employees self
  ∧ supprimer_employe (supprimer_employe self prenom nom) prenom nom
    = supprimer_employe self prenom nom
  ∧ (∀ e, Employee.prenom e = prenom → Employee.nom e = nom →
          (∀ e', e' ∈ employees self →
                 ¬ (Employee.prenom e' = prenom ∧ Employee.nom e' = nom)) →
          supprimer_employe (ajouter_employe self e) prenom nom = self).
Proof.
  unfold supprimer_employe, ajouter_employe. simpl. split_and!.
  - intros e. rewrite list_elem_of_filter. tauto.
  - apply sublist_filter.
  - f_equal. apply list_filter_filter_l. tauto.
  - intros e Hp Hn Hnone. destruct self as [l]. simpl in *. f_equal.
    rewrite filter_app, filter_cons_False, filter_nil, app_nil_r by tauto.
    induction l as [| e' l IH]; [done |].
    rewrite filter_cons_True by (apply Hnone; by left).
    f_equal. apply IH. intros e'' He''. apply Hnone. by right.
Qed.

(* ================================================================== *)
(** * Further properties: requirements engine *)
(* ================================================================== *)

Lemma weekend_capacity (jour : Jour) :
  (if negb (weekend jour) then max_receptionists_per_shift - 1
   else max_receptionists_per_shift) = shift_capacity jour.
Proof. by destruct jour. Qed.

Lemma shift_capacity_bornes (jour : Jour) : 3 ≤ shift_capacity jour ≤ 4.
Proof. destruct jour; simpl; lia. Qed.

(** X4. Whatever the forecasts hold (missing days, negative counts), the
    totals of every day stay between 1 and the shift capacity (3 on
    weekdays, 4 on Saturday and Sunday); with the concierge slot a
    morning never asks for more than 4 people; the supervisor minimum
    never exceeds the total; and the night requirement is 0, 1 or 2 and
    never more than the number of available night receptionists. *)
Theorem calculer_besoins_personnel_bornes self checkins checkouts jour :
  let besoin := calculer_besoins_personnel self checkins checkouts jour in
  1 ≤ total_personnel (matin besoin) ≤ shift_capacity jour
  ∧ 1 ≤ total_personnel (apres_midi besoin) ≤ shift_capacity jour
  ∧ total_personnel (matin besoin) + concierge (matin besoin)
    ≤ max_receptionists_per_shift
  ∧ total_personnel (apres_midi besoin) + concierge (apres_midi besoin)
    ≤ max_receptionists_per_shift
  ∧ min_superviseurs (matin besoin) ≤ total_personnel (matin besoin)
  ∧ min_superviseurs (apres_midi besoin) ≤ total_personnel (apres_midi besoin)
  ∧ 0 ≤ receptionists (nuit besoin) ≤ 2
  ∧ receptionists (nuit besoin) ≤ len (receptionnistes_nuit_disponibles self).
Proof.
  intros besoin. subst besoin.
  unfold calculer_besoins_personnel, besoins_du_jour. simpl.
  rewrite pool_nuit_besoins, weekend_capacity.
  pose proof (len_nonneg (receptionnistes_nuit_disponibles self)).
  unfold nb_night_receptionists_required, max_receptionists_per_shift.
  generalize (ceil_div (default 0 (checkouts !! nom_jour jour)) clients_per_receptionist).
  generalize (ceil_div (default 0 (checkins !! nom_jour jour)) clients_per_receptionist).
  intros ci co.
  destruct (default 0 (checkins !! nom_jour jour)
            + default 0 (checkouts !! nom_jour jour) <? 100);
    destruct jour; simpl; lia.
Qed.

Lemma ceil_div_mono (a b : Z) :
  a ≤ b → ceil_div a clients_per_receptionist ≤ ceil_div b clients_per_receptionist.
Proof.
  intros Hab. unfold ceil_div, clients_per_receptionist.
  apply Z.opp_le_mono. rewrite !Z.opp_involutive.
  apply Z.div_le_mono; lia.
Qed.

Lemma ceil_div_lt_100 (a : Z) : a < 100 → ceil_div a clients_per_receptionist ≤ 2.
Proof.
  intros Ha. unfold ceil_div, clients_per_receptionist.
  pose proof (Z.div_mod (- a) 50 ltac:(lia)).
  pose proof (Z.mod_pos_bound (- a) 50 ltac:(lia)).
  lia.
Qed.

(** X5. Low occupancy: on a day whose two counts are not negative and add
    up to less than 100, the morning and the afternoon totals are both
    exactly 1. *)
Theorem calculer_besoins_personnel_faible_occupation self checkins checkouts jour :
  0 ≤ default 0 (checkins !! nom_jour jour) →
  0 ≤ default 0 (checkouts !! nom_jour jour) →
  default 0 (checkins !! nom_jour jour) + default 0 (checkouts !! nom_jour jour) < 100 →
  total_personnel (matin (calculer_besoins_personnel self checkins checkouts jour)) = 1
  ∧ total_personnel (apres_midi (calculer_besoins_personnel self checkins checkouts jour)) = 1.
Proof.
  intros Hi Ho Hs.
  unfold calculer_besoins_personnel, besoins_du_jour. simpl.
  rewrite weekend_capacity. rewrite (proj2 (Z.ltb_lt _ _) Hs).
  assert (default 0 (checkins !! nom_jour jour) < 100) as Hi'%ceil_div_lt_100 by lia.
  assert (default 0 (checkouts !! nom_jour jour) < 100) as Ho'%ceil_div_lt_100 by lia.
  pose proof (shift_capacity_bornes jour). lia.
Qed.

Lemma calculer_besoins_personnel_faible_occupation_witness :
  total_personnel
    (matin (calculer_besoins_personnel equipe_sans_concierge
              previsions_20 previsions_20 Samedi)) = 1
  ∧ total_personnel
      (apres_midi (calculer_besoins_personnel equipe_sans_concierge
                     previsions_20 previsions_20 Samedi)) = 1.
Proof.
  apply (calculer_besoins_personnel_faible_occupation equipe_sans_concierge
           previsions_20 previsions_20 Samedi); vm_compute; congruence.
Defined.

(** X6. The totals grow with the forecasts: if, for a day, neither the
    check-ins nor the check-outs of a second pair of forecasts are lower
    than those of a first pair, then neither total of that day is lower. *)
Theorem calculer_besoins_personnel_monotone self checkins checkouts
    checkins' checkouts' jour :
  default 0 (checkins !! nom_jour jour) ≤ default 0 (checkins' !! nom_jour jour) →
  default 0 (checkouts !! nom_jour jour) ≤ default 0 (checkouts' !! nom_jour jour) →
  total_personnel (matin (calculer_besoins_personnel self checkins checkouts jour))
  ≤ total_personnel (matin (calculer_besoins_personnel self checkins' checkouts' jour))
  ∧ total_personnel (apres_midi (calculer_besoins_personnel self checkins checkouts jour))
    ≤ total_personnel (apres_midi (calculer_besoins_personnel self checkins' checkouts' jour)).
Proof.
  intros Hi Ho.
  unfold calculer_besoins_personnel, besoins_du_jour. simpl.
  rewrite weekend_capacity.
  pose proof (ceil_div_mono _ _ Hi). pose proof (ceil_div_mono _ _ Ho).
  destruct (Z.ltb_spec (default 0 (checkins !! nom_jour jour)
                        + default 0 (checkouts !! nom_jour jour)) 100),
    (Z.ltb_spec (default 0 (checkins' !! nom_jour jour)
                 + default 0 (checkouts' !! nom_jour jour)) 100);
    pose proof (shift_capacity_bornes jour); lia.
Qed.

Lemma calculer_besoins_personnel_monotone_witness :
  total_personnel
    (matin (calculer_besoins_personnel equipe_sans_concierge
              checkins_sans_dimanche checkouts_negatifs Lundi))
  ≤ total_personnel
      (matin (calculer_besoins_personnel equipe_sans_concierge
                previsions_20 previsions_20 Lundi)).
Proof.
  apply (calculer_besoins_personnel_monotone equipe_sans_concierge
           checkins_sans_dimanche checkouts_negatifs previsions_20 previsions_20
           Lundi); vm_compute; congruence.
Defined.

(* ================================================================== *)
(** * Further properties: feasibility checker *)
(* ================================================================== *)

Lemma len_filter_le {A} (P : A → Prop) `{!∀ a, Decision (P a)} (l : list A) :
  len (filter P l) ≤ len l.
Proof. unfold len. pose proof (length_filter P l). lia. Qed.

(** The four pools are disjoint parts of the available employees. *)
Lemma pools_disjoints (l : list Employee.t) :
  len (filter est_superviseur l) + len (filter est_receptionniste_jour l)
  + len (filter est_receptionniste_nuit l) + len (filter est_concierge l)
  ≤ len l
  ∧ ((∀ e, e ∈ l → Employee.role e ∈ ["superviseur"; "receptionniste"; "concierge"]) →
     len (filter est_superviseur l) + len (filter est_receptionniste_jour l)
     + len (filter est_receptionniste_nuit l) + len (filter est_concierge l)
     = len l).
Proof.
  unfold len. induction l as [| e l [IH1 IH2]]; [done |].
  rewrite !filter_cons.
  unfold est_superviseur, est_receptionniste_jour, est_receptionniste_nuit,
    est_concierge in *.
  split.
  - repeat case_decide; simpl; try lia; destruct_and?; congruence.
  - intros Hr. specialize (IH2 (λ e' He', Hr e' (list_elem_of_further _ _ _ He'))).
    specialize (Hr e (list_elem_of_here _ _)).
    rewrite !elem_of_cons, elem_of_nil in Hr.
    repeat case_decide; simpl; try lia; destruct_and?; try congruence;
      exfalso; destruct Hr as [? | [? | [? | []]]]; try congruence;
      destruct (decide (Employee.type_contrat e = "nuit")); tauto.
Qed.

(** X7. The statistics of the feasibility check are consistent: the four
    pools are disjoint, so their sizes add up to at most
    ['total_disponibles'], which is at most the size of the roster; they
    add up to exactly ['total_disponibles'] when every available
    employee is a supervisor, a receptionist or a concierge. *)
Theorem verifier_faisabilite_planning_stats self besoins :
  let s := stats (verifier_faisabilite_planning self besoins) in
  superviseurs s + receptionnistes_jour s + receptionnistes_nuit s + concierges s
  ≤ total_disponibles s
  ∧ total_disponibles s ≤ len (employees self)
  ∧ ((∀ e, e ∈ employees self → Employee.disponible e = true →
           Employee.role e ∈ ["superviseur"; "receptionniste"; "concierge"]) →
     superviseurs s + receptionnistes_jour s + receptionnistes_nuit s + concierges s
     = total_disponibles s).
Proof.
  simpl. split_and!.
  - apply pools_disjoints.
  - apply len_filter_le.
  - intros Hr. apply pools_disjoints.
    intros e [Hd He]%list_elem_of_filter. by apply Hr.
Qed.

(** [faisable] in terms of the pools. *)
Lemma faisable_true self besoins :
  faisable (verifier_faisabilite_planning self besoins) = true
  ↔ 1 ≤ len (superviseurs_disponibles self)
    ∧ 2 ≤ len (receptionnistes_nuit_disponibles self)
    ∧ 3 ≤ len (superviseurs_disponibles self)
          + len (receptionnistes_jour_disponibles self).
Proof.
  simpl.
  rewrite pool_superviseurs, pool_receptionnistes_jour, pool_receptionnistes_nuit.
  destruct (Z.ltb_spec (len (superviseurs_disponibles self)) 1),
    (Z.ltb_spec (len (receptionnistes_nuit_disponibles self)) 2),
    (Z.eqb_spec (len (receptionnistes_nuit_disponibles self)) 0),
    (Z.ltb_spec (len (superviseurs_disponibles self)
                 + len (receptionnistes_jour_disponibles self)) 3);
    simpl; split; intros; (done || lia).
Qed.

(** X8. The problem list names each shortage: it holds the message for
    the missing supervisor exactly when no supervisor is available, the
    message "Aucun réceptionniste de nuit" exactly when no night
    receptionist is available, "Un seul réceptionniste de nuit" exactly
    when one is, and the message for the day staff exactly when
    supervisors and day receptionists are fewer than three; it never
    holds more than three messages. *)
Theorem verifier_faisabilite_planning_problemes self besoins :
  ((msg_aucun_superviseur ∈ problemes (verifier_faisabilite_planning self besoins))
   ↔ (len (superviseurs_disponibles self) = 0))
  ∧ ((msg_aucun_nuit ∈ problemes (verifier_faisabilite_planning self besoins))
     ↔ (len (receptionnistes_nuit_disponibles self) = 0))
  ∧ ((msg_un_seul_nuit ∈ problemes (verifier_faisabilite_planning self besoins))
     ↔ (len (receptionnistes_nuit_disponibles self) = 1))
  ∧ ((msg_personnel_jour_insuffisant ∈ problemes (verifier_faisabilite_planning self besoins))
     ↔ (len (superviseurs_disponibles self)
        + len (receptionnistes_jour_disponibles self) < 3))
  ∧ (length (problemes (verifier_faisabilite_planning self besoins)) ≤ 3)%nat.
Proof.
  simpl.
  rewrite pool_superviseurs, pool_receptionnistes_jour, pool_receptionnistes_nuit.
  generalize (len_nonneg (superviseurs_disponibles self)).
  generalize (len (superviseurs_disponibles self)) as nb_superviseurs.
  generalize (len_nonneg (receptionnistes_jour_disponibles self)).
  generalize (len (receptionnistes_jour_disponibles self)) as nb_jour.
  generalize (len_nonneg (receptionnistes_nuit_disponibles self)).
  generalize (len (receptionnistes_nuit_disponibles self)) as nb_nuit.
  intros nb_nuit ? nb_jour ? nb_superviseurs ?.
  destruct (Z.ltb_spec nb_superviseurs 1), (Z.ltb_spec nb_nuit 2),
    (Z.eqb_spec nb_nuit 0), (Z.ltb_spec (nb_superviseurs + nb_jour) 3);
    simpl; try lia.
  all: rewrite ?elem_of_cons, ?elem_of_nil.
  all: unfold msg_aucun_superviseur, msg_aucun_nuit, msg_un_seul_nuit,
    msg_personnel_jour_insuffisant.
  all: split_and!; try (split; intros); try lia; try done.
  all: try (by left); try (by right; left); try (by right; right; left);
    intuition (discriminate || lia).
Qed.

(** X9. A roster the check declares feasible has at least five available
    employees: one supervisor, two night receptionists and two more day
    staff at the least. *)
Theorem faisable_cinq_disponibles self besoins :
  faisable (verifier_faisabilite_planning self besoins) = true →
  5 ≤ total_disponibles (stats (verifier_faisabilite_planning self besoins))
  ∧ 5 ≤ len (get_employees_disponibles self)
  ∧ 5 ≤ len (employees self).
Proof.
  intros (Hs & Hn & Hj)%faisable_true.
  pose proof (pools_disjoints (get_employees_disponibles self)) as [Hle _].
  rewrite pool_superviseurs, pool_receptionnistes_jour, pool_receptionnistes_nuit,
    pool_concierges in Hle.
  pose proof (len_nonneg (concierges_disponibles self)).
  pose proof (len_filter_le (λ emp, Employee.disponible emp = true) (employees self)) as Hd.
  fold (get_employees_disponibles self) in Hd.
  simpl. lia.
Qed.

Lemma faisable_cinq_disponibles_witness : 5 ≤ len (employees equipe_sans_concierge).
Proof.
  refine (proj2 (proj2 (faisable_cinq_disponibles equipe_sans_concierge
                          (calculer_besoins_personnel equipe_sans_concierge
                             previsions_20 previsions_20) _))).
  reflexivity.
Defined.

Lemma len_filter_sublist {A} (P : A → Prop) `{!∀ a, Decision (P a)} (l l' : list A) :
  l `sublist_of` l' → len (filter P l) ≤ len (filter P l').
Proof.
  unfold len. induction 1 as [| a l l' _ IH | a l l' _ IH]; [done | |];
    rewrite ?filter_cons; repeat case_decide; simpl; lia.
Qed.

Lemma faisable_sublist self self' besoins besoins' :
  employees self `sublist_of` employees self' →
  faisable (verifier_faisabilite_planning self besoins) = true →
  faisable (verifier_faisabilite_planning self' besoins') = true.
Proof.
  intros Hsub (Hs & Hn & Hj)%faisable_true. apply faisable_true.
  pose proof (len_filter_sublist
    (λ e, Employee.disponible e = true ∧ Employee.role e = "superviseur")
    _ _ Hsub).
  pose proof (len_filter_sublist
    (λ e, Employee.disponible e = true ∧ Employee.role e = "receptionniste"
          ∧ Employee.type_contrat e ≠ "nuit") _ _ Hsub).
  pose proof (len_filter_sublist
    (λ e, Employee.disponible e = true ∧ Employee.role e = "receptionniste"
          ∧ Employee.type_contrat e = "nuit") _ _ Hsub).
  unfold superviseurs_disponibles, receptionnistes_jour_disponibles,
    receptionnistes_nuit_disponibles in *. lia.
Qed.

(** X10. Feasibility is kept when the roster grows: if a roster is
    declared feasible, so is every roster of which it is a sub-list. In
    particular it stays feasible after [ajouter_employe], and a roster
    that is feasible after [supprimer_employe] was feasible before. *)
Theorem faisable_monotone self self' besoins besoins' :
  employees self `sublist_of` employees self' →
  faisable (verifier_faisabilite_planning self besoins) = true →
  faisable (verifier_faisabilite_planning self' besoins') = true
  ∧ (∀ employee,
       faisable (verifier_faisabilite_planning (ajouter_employe self employee) besoins')
       = true)
  ∧ (∀ prenom nom,
       faisable (verifier_faisabilite_planning
                   (supprimer_employe self' prenom nom) besoins) = true →
       faisable (verifier_faisabilite_planning self' besoins') = true).
Proof.
  intros Hsub Hf. split_and!.
  - by eapply faisable_sublist.
  - intros employee. eapply faisable_sublist; [| exact Hf].
    simpl. by apply sublist_inserts_r.
  - intros prenom nom. apply faisable_sublist. simpl. apply sublist_filter.
Qed.

Lemma faisable_monotone_witness :
  faisable (verifier_faisabilite_planning equipe_temps_partiel
              (calculer_besoins_personnel equipe_temps_partiel
                 previsions_20 previsions_20)) = true.
Proof.
  refine (proj1 (faisable_monotone equipe_sans_concierge equipe_temps_partiel
                   (calculer_besoins_personnel equipe_sans_concierge
                      previsions_20 previsions_20) _ _ _)).
  - apply (sublist_inserts_r [recep_pt2]). reflexivity.
  - reflexivity.
Defined.

(* ================================================================== *)
(** * Further properties: the default team *)
(* ================================================================== *)

(** X11. [initialiser_equipe_conforme] leaves a roster that is not empty
    as it is, so running it twice is running it once. On the empty
    roster it builds 15 employees, all as the constructor leaves them,
    with pairwise distinct first names and full names; the feasibility
    check accepts that team without any problem or warning, with 5
    supervisors, 6 day receptionists, 3 night receptionists and 1
    concierge available. *)
Theorem initialiser_equipe_conforme_spec system besoins :
  (employees system ≠ [] → initialiser_equipe_conforme system = system)
  ∧ initialiser_equipe_conforme (initialiser_equipe_conforme system)
    = initialiser_equipe_conforme system
  ∧ (employees system = [] →
     let equipe := initialiser_equipe_conforme system in
     length (employees equipe) = 15%nat
     ∧ Forall construit (employees equipe)
     ∧ NoDup (Employee.prenom <$> employees equipe)
     ∧ NoDup (nom_complet <$> employees equipe)
     ∧ faisable (verifier_faisabilite_planning equipe besoins) = true
     ∧ problemes (verifier_faisabilite_planning equipe besoins) = []
     ∧ recommandations (verifier_faisabilite_planning equipe besoins) = []
     ∧ stats (verifier_faisabilite_planning equipe besoins)
       = {| total_disponibles := 15; superviseurs := 5; receptionnistes_jour := 6;
            receptionnistes_nuit := 3; concierges := 1 |}).
Proof.
  assert (∀ s, employees s ≠ [] → initialiser_equipe_conforme s = s) as Hne.
  { intros s Hs. unfold initialiser_equipe_conforme.
    by rewrite bool_decide_eq_true_2. }
  split_and!.
  - apply Hne.
  - destruct system as [[| e l]]; [| by rewrite !Hne].
    apply Hne. vm_compute. discriminate.
  - destruct system as [l]. simpl. intros ->.
    split_and!; try (vm_compute; reflexivity).
    + apply (bool_decide_unpack _). vm_compute. exact I.
    + apply (bool_decide_unpack _). vm_compute. exact I.
    + apply (bool_decide_unpack _). vm_compute. exact I.
Qed.

(* ================================================================== *)
(** * Further properties: the other constraints of the builder *)
(* ================================================================== *)

(** The four groups of constraints of a day shift, with the pools named
    as in the feasibility check. *)
Lemma contraintes_jour_inv self x jour shift besoin cj :
  contraintes_jour self x jour shift besoin = Some cj →
  ∃ c_superviseur c_personnel c_concierge c_maximum,
    cj = c_superviseur ++ c_personnel ++ c_concierge ++ c_maximum
    ∧ (if 0 <? len (superviseurs_disponibles self) then
         s ← lpSum_employes x (superviseurs_disponibles self) jour shift;
         Some [contrainte s GE 1]
       else Some []) = Some c_superviseur
    ∧ (if 0 <? Z.min (total_personnel besoin)
                  (len (superviseurs_disponibles self
                        ++ receptionnistes_jour_disponibles self)) then
         r ← lpSum_employes x (receptionnistes_jour_disponibles self) jour shift;
         s ← lpSum_employes x (superviseurs_disponibles self) jour shift;
         Some [contrainte (r ++ s) GE
                 (Z.min (total_personnel besoin)
                    (len (superviseurs_disponibles self
                          ++ receptionnistes_jour_disponibles self)))]
       else Some []) = Some c_personnel
    ∧ (if negb (weekend jour) && bool_decide (shift = Matin)
          && (0 <? len (concierges_disponibles self)) then
         s ← lpSum_employes x (concierges_disponibles self) jour shift;
         Some [contrainte s EQ 1]
       else pour_chaque (concierges_disponibles self)
              (λ c, variable_nulle x c jour shift)) = Some c_concierge
    ∧ (if 0 <? len ((superviseurs_disponibles self
                     ++ receptionnistes_jour_disponibles self)
                    ++ concierges_disponibles self) then
         s ← lpSum_employes x ((superviseurs_disponibles self
                                ++ receptionnistes_jour_disponibles self)
                               ++ concierges_disponibles self) jour shift;
         Some [contrainte s LE max_receptionists_per_shift]
       else Some []) = Some c_maximum.
Proof.
  unfold contraintes_jour. cbv zeta.
  rewrite pool_superviseurs, pool_receptionnistes_jour, pool_concierges.
  intros H.
  apply bind_Some in H as (c_superviseur & H1 & H).
  apply bind_Some in H as (c_personnel & H2 & H).
  apply bind_Some in H as (c_concierge & H3 & H).
  apply bind_Some in H as (c_maximum & H4 & H).
  injection H as <-. by exists c_superviseur, c_personnel, c_concierge, c_maximum.
Qed.

(** The constraints of the morning and of the afternoon of every day are
    among those of the problem. *)
Lemma contraintes_jour_dans self x besoins cs jour shift :
  _ajouter_contraintes self x besoins = Some cs →
  shift ≠ Nuit →
  ∃ cj, contraintes_jour self x jour shift
          (match shift with
           | Apres_midi => apres_midi (besoins jour)
           | _ => matin (besoins jour)
           end) = Some cj
        ∧ ∀ c, c ∈ cj → c ∈ cs.
Proof.
  intros Hcs Hs.
  apply _ajouter_contraintes_inv in Hcs as (c1 & c2 & c3 & _ & H2 & _ & ->).
  destruct (pour_chaque_corps _ _ _ _ H2 (elem_of_jours_semaine jour)) as (bj & Hbj & Hinj).
  destruct (pour_chaque_corps _ _ _ _ Hbj (elem_of_shifts shift)) as (bs & Hbs & Hins).
  exists bs. split; [by destruct shift |].
  intros c Hc. apply elem_of_app. right. apply elem_of_app. left. auto.
Qed.

(** The four groups of constraints of an available employee. *)
Lemma contraintes_employe_dans self x besoins cs emp :
  _ajouter_contraintes self x besoins = Some cs →
  emp ∈ employees self → Employee.disponible emp = true →
  ∃ c_un_shift c_semaine c_consecutifs c_role,
    pour_chaque jours_semaine (λ jour,
      s ← lpSum_shifts x emp jour; Some [contrainte s LE 1]) = Some c_un_shift
    ∧ (s ← lpSum_jours x emp jours_semaine;
       Some [contrainte s LE (Employee.jours_travail_max_semaine emp)]) = Some c_semaine
    ∧ pour_chaque fenetres (λ jours_seq,
        s ← lpSum_jours x emp jours_seq; Some [contrainte s LE 5]) = Some c_consecutifs
    ∧ (if decide (Employee.role emp = "concierge") then
         pour_chaque jours_semaine (λ jour,
           c_nuit ← variable_nulle x emp jour Nuit;
           c_apres_midi ← variable_nulle x emp jour Apres_midi;
           c_matin ← (if weekend jour then variable_nulle x emp jour Matin
                      else Some []);
           Some (c_nuit ++ c_apres_midi ++ c_matin))
       else Some []) = Some c_role
    ∧ ∀ c, c ∈ c_un_shift ++ c_semaine ++ c_consecutifs ++ c_role → c ∈ cs.
Proof.
  intros Hcs Hemp Hd.
  apply _ajouter_contraintes_inv in Hcs as (c1 & c2 & c3 & _ & _ & H3 & ->).
  assert (emp ∈ get_employees_disponibles self) as Hemp'.
  { apply list_elem_of_filter. by split. }
  destruct (pour_chaque_corps _ _ _ _ H3 Hemp') as (be & Hbe & Hin).
  unfold contraintes_employe in Hbe. cbv zeta in Hbe.
  apply bind_Some in Hbe as (c_un_shift & Hc1 & Hbe).
  apply bind_Some in Hbe as (c_semaine & Hc2 & Hbe).
  apply bind_Some in Hbe as (c_consecutifs & Hc3 & Hbe).
  apply bind_Some in Hbe as (c_role & Hc4 & Hbe).
  injection Hbe as <-.
  exists c_un_shift, c_semaine, c_consecutifs, c_role. split_and!; try done.
  intros c Hc. apply elem_of_app. right. apply elem_of_app. right. auto.
Qed.

(** Line 263: an available employee has at most one shift a day. *)
Lemma contrainte_un_shift self x besoins cs emp t jour :
  _ajouter_contraintes self x besoins = Some cs →
  emp ∈ employees self → Employee.disponible emp = true →
  x !! Employee.prenom emp = Some t →
  contrainte [t jour Matin; t jour Apres_midi; t jour Nuit] LE 1 ∈ cs.
Proof.
  intros Hcs Hemp Hd Ht.
  destruct (contraintes_employe_dans _ _ _ _ _ Hcs Hemp Hd)
    as (c1 & c2 & c3 & c4 & H1 & _ & _ & _ & Hin).
  apply Hin, elem_of_app. left.
  eapply (pour_chaque_elem _ _ _ jour); [exact H1 | apply elem_of_jours_semaine | |].
  - cbv beta. by rewrite (lpSum_shifts_eq _ _ _ _ Ht).
  - by left.
Qed.

(** Line 267: the shifts of an available employee over the week are at
    most [jours_travail_max_semaine]. *)
Lemma contrainte_semaine self x besoins cs emp t :
  _ajouter_contraintes self x besoins = Some cs →
  emp ∈ employees self → Employee.disponible emp = true →
  x !! Employee.prenom emp = Some t →
  contrainte (jour ← jours_semaine; [t jour Matin; t jour Apres_midi; t jour Nuit])
             LE (Employee.jours_travail_max_semaine emp) ∈ cs.
Proof.
  intros Hcs Hemp Hd Ht.
  destruct (contraintes_employe_dans _ _ _ _ _ Hcs Hemp Hd)
    as (c1 & c2 & c3 & c4 & _ & H2 & _ & _ & Hin).
  apply Hin, elem_of_app. right. apply elem_of_app. left.
  rewrite (lpSum_jours_eq _ _ _ _ Ht) in H2. simpl in H2.
  injection H2 as <-. by left.
Qed.

(** Line 234: a supervisor on every day shift, when one is available. *)
Lemma contrainte_superviseur self x besoins cs jour shift vs :
  _ajouter_contraintes self x besoins = Some cs →
  shift ≠ Nuit → superviseurs_disponibles self ≠ [] →
  lpSum_employes x (superviseurs_disponibles self) jour shift = Some vs →
  contrainte vs GE 1 ∈ cs.
Proof.
  intros Hcs Hs Hne Hvs.
  destruct (contraintes_jour_dans _ _ _ _ jour shift Hcs Hs) as (cj & Hcj & Hin).
  apply contraintes_jour_inv in Hcj as (c1 & c2 & c3 & c4 & -> & H1 & _).
  apply Hin, elem_of_app. left.
  assert (0 < len (superviseurs_disponibles self)) as Hpos.
  { unfold len. destruct (superviseurs_disponibles self); simpl; [done | lia]. }
  rewrite (proj2 (Z.ltb_lt _ _) Hpos), Hvs in H1. simpl in H1.
  injection H1 as <-. by left.
Qed.

(* ================================================================== *)
(** * Further properties: rosters the solver cannot serve *)
(* ================================================================== *)

Lemma lpSum_employes_elem (x : table) l jour shift vs e t :
  lpSum_employes x l jour shift = Some vs →
  e ∈ l → x !! Employee.prenom e = Some t → t jour shift ∈ vs.
Proof.
  unfold lpSum_employes. intros Hm [i Hi]%list_elem_of_lookup Ht.
  apply mapM_Some in Hm.
  destruct (Forall2_lookup_l _ _ _ _ _ Hm Hi) as (v & Hv & Heq).
  unfold lire in Heq. rewrite Ht in Heq. simpl in Heq. injection Heq as <-.
  apply list_elem_of_lookup. by exists i.
Qed.

Lemma lpSum_employes_length (x : table) l jour shift vs :
  lpSum_employes x l jour shift = Some vs → len vs = len l.
Proof. unfold lpSum_employes, len. by intros ->%length_mapM. Qed.

Lemma somme_le_len varValue vs : somme varValue vs ≤ len vs.
Proof.
  unfold len. induction vs as [| v vs IH]; simpl; [done |].
  pose proof (valeur_bornes varValue v). lia.
Qed.

(** A sum of binary variables equal to their number: all are 1. *)
Lemma somme_pleine varValue vs v :
  somme varValue vs = len vs → v ∈ vs → varValue v = true.
Proof.
  unfold len. induction vs as [| w vs IH]; intros Hs Hv; [by apply elem_of_nil in Hv |].
  simpl in Hs. pose proof (somme_le_len varValue vs) as Hle. unfold len in Hle.
  pose proof (valeur_bornes varValue w).
  apply elem_of_cons in Hv as [-> | Hv].
  - unfold valeur in *. destruct (varValue w); [done | lia].
  - apply IH; [lia | done].
Qed.

Lemma somme_nuits varValue (t : Jour → Shift → LpVariable) js :
  (∀ jour, varValue (t jour Nuit) = true) →
  len js ≤ somme varValue (jour ← js; [t jour Matin; t jour Apres_midi; t jour Nuit]).
Proof.
  intros Hn. unfold len. induction js as [| jour js IH]; [done |].
  rewrite bind_cons, somme_app.
  change (somme varValue [t jour Matin; t jour Apres_midi; t jour Nuit])
    with (valeur varValue (t jour Matin)
          + (valeur varValue (t jour Apres_midi)
             + (valeur varValue (t jour Nuit) + 0))).
  pose proof (valeur_bornes varValue (t jour Matin)).
  pose proof (valeur_bornes varValue (t jour Apres_midi)).
  unfold valeur at 3. rewrite Hn, length_cons. lia.
Qed.

(** X12. With exactly one available supervisor the problem has no
    solution at all: that supervisor would have to take the morning and
    the afternoon of the same day, against the limit of one shift a day.
    The feasibility check only warns about it ("Un seul superviseur
    disponible") and still answers [faisable] when two night
    receptionists and two day receptionists are available. *)
Theorem un_seul_superviseur_insoluble self checkins checkouts besoins :
  len (superviseurs_disponibles self) = 1 →
  (∃ prob, probleme self checkins checkouts = Some prob
           ∧ ∀ varValue, solution varValue (constraints prob) = false)
  ∧ msg_un_seul_superviseur ∈ recommandations (verifier_faisabilite_planning self besoins)
  ∧ (2 ≤ len (receptionnistes_nuit_disponibles self) →
     2 ≤ len (receptionnistes_jour_disponibles self) →
     faisable (verifier_faisabilite_planning self besoins) = true).
Proof.
  intros Hun. split_and!.
  - destruct (probleme_Some self checkins checkouts) as (prob & Hprob & Hcs).
    exists prob. split; [done |]. intros varValue.
    apply not_true_is_false. intros Hsol.
    destruct (superviseurs_disponibles self) as [| s [| ? ?]] eqn:Hpool;
      try (unfold len in Hun; simpl in Hun; lia).
    assert (s ∈ superviseurs_disponibles self) as [[Hd _] Hs]%list_elem_of_filter
      by (rewrite Hpool; by left).
    destruct (variables_decision_couvre self s Hs) as [t Ht].
    assert (∀ shift, shift ≠ Nuit → varValue (t Lundi shift) = true) as Htrue.
    { intros shift Hshift.
      assert (contrainte [t Lundi shift] GE 1 ∈ constraints prob) as Hc.
      { eapply contrainte_superviseur; try done; [by rewrite Hpool |].
        rewrite Hpool. unfold lpSum_employes, lire. simpl. by rewrite Ht. }
      pose proof (solution_elem _ _ _ Hsol Hc) as Hsat.
      unfold satisfait, valeur in Hsat. simpl in Hsat. unfold valeur in Hsat.
      destruct (varValue (t Lundi shift)); [done |]. apply Z.leb_le in Hsat. lia. }
    pose proof (contrainte_un_shift _ _ _ _ _ _ Lundi Hcs Hs Hd Ht) as Hc.
    pose proof (solution_elem _ _ _ Hsol Hc) as Hsat.
    unfold satisfait in Hsat. simpl in Hsat. unfold valeur in Hsat.
    rewrite !Htrue in Hsat by done. apply Z.leb_le in Hsat.
    destruct (varValue (t Lundi Nuit)); lia.
  - simpl. rewrite pool_superviseurs, Hun. simpl. by left.
  - intros Hn Hj. apply faisable_true. lia.
Qed.

Lemma un_seul_superviseur_insoluble_witness :
  faisable (verifier_faisabilite_planning equipe_minimale
              (calculer_besoins_personnel equipe_minimale previsions_20 previsions_20))
  = true.
Proof.
  refine (proj2 (proj2 (un_seul_superviseur_insoluble equipe_minimale
                          previsions_20 previsions_20 _ _)) _ _);
    vm_compute; congruence.
Defined.

(** X13. With one or two available night receptionists the problem has
    no solution either: each of them would have to work all seven nights,
    against the limit of 5 days in a window of 6. The feasibility check
    refuses one night receptionist but accepts two: with two of them it
    answers [faisable] as soon as a supervisor and three supervisors or
    day receptionists are available. *)
Theorem nuit_insoluble self checkins checkouts besoins :
  1 ≤ len (receptionnistes_nuit_disponibles self) ≤ 2 →
  (∃ prob, probleme self checkins checkouts = Some prob
           ∧ ∀ varValue, solution varValue (constraints prob) = false)
  ∧ (len (receptionnistes_nuit_disponibles self) = 1 →
     faisable (verifier_faisabilite_planning self besoins) = false)
  ∧ (len (receptionnistes_nuit_disponibles self) = 2 →
     1 ≤ len (superviseurs_disponibles self) →
     3 ≤ len (superviseurs_disponibles self)
         + len (receptionnistes_jour_disponibles self) →
     faisable (verifier_faisabilite_planning self besoins) = true).
Proof.
  intros Hn. split_and!.
  2:{ intros Hun. apply not_true_is_false. intros Hf%faisable_true. lia. }
  2:{ intros Hdeux Hsup Hjour. apply faisable_true. lia. }
  destruct (probleme_Some self checkins checkouts) as (prob & Hprob & Hcs).
  exists prob. split; [done |]. intros varValue.
  apply not_true_is_false. intros Hsol.
  pose proof (variables_decision_couvre self) as Hx.
  destruct (receptionnistes_nuit_disponibles self) as [| e pool] eqn:Hpool;
    [unfold len in Hn; simpl in Hn; lia |].
  assert (e ∈ receptionnistes_nuit_disponibles self) as [[Hd _] He]%list_elem_of_filter
    by (rewrite Hpool; by left).
  destruct (Hx e He) as [t Ht].
  assert (∀ jour, varValue (t jour Nuit) = true) as Hnuits.
  { intros jour.
    destruct (lpSum_employes_Some (variables_decision self)
                (receptionnistes_nuit_disponibles self) jour Nuit) as [vs Hvs].
    { apply couvre_filter, Hx. }
    pose proof (contrainte_requis_nuit self _ _ _ jour vs Hcs) as Hc.
    rewrite besoin_nuit in Hc. rewrite Hpool in Hc, Hvs.
    rewrite !Z.min_r in Hc by lia.
    specialize (Hc ltac:(lia) Hvs).
    pose proof (solution_elem _ _ _ Hsol Hc) as Hsat.
    unfold satisfait in Hsat. simpl in Hsat. apply Z.eqb_eq in Hsat.
    apply (somme_pleine _ vs).
    - by rewrite (lpSum_employes_length _ _ _ _ _ Hvs).
    - eapply lpSum_employes_elem; [exact Hvs | by left | done]. }
  assert ([Lundi; Mardi; Mercredi; Jeudi; Vendredi; Samedi] ∈ fenetres) as Hw
    by (apply elem_of_fenetres; by left).
  pose proof (contrainte_consecutifs _ _ _ _ _ _ _ Hcs He Hd Hw
                (lpSum_jours_eq _ _ _ _ Ht)) as Hc.
  pose proof (solution_elem _ _ _ Hsol Hc) as Hsat.
  unfold satisfait, contrainte in Hsat. cbn [expr sens rhs] in Hsat.
  apply Z.leb_le in Hsat.
  pose proof (somme_nuits varValue t [Lundi; Mardi; Mercredi; Jeudi; Vendredi; Samedi]
                Hnuits) as Hge.
  unfold len in Hge. simpl length in Hge. lia.
Qed.

Lemma nuit_insoluble_witness :
  (∃ prob, probleme equipe_minimale previsions_20 previsions_20 = Some prob
           ∧ ∀ varValue, solution varValue (constraints prob) = false)
  ∧ faisable (verifier_faisabilite_planning equipe_minimale
                (calculer_besoins_personnel equipe_minimale previsions_20 previsions_20))
    = true.
Proof.
  destruct (nuit_insoluble equipe_minimale previsions_20 previsions_20
              (calculer_besoins_personnel equipe_minimale previsions_20 previsions_20))
    as (Hinsoluble & _ & Hfaisable).
  - vm_compute. split; congruence.
  - split; [exact Hinsoluble |].
    apply Hfaisable; vm_compute; congruence.
Defined.

(* ================================================================== *)
(** * Further properties: what every solution guarantees *)
(* ================================================================== *)

(** The problem, a solution of it and the schedule extracted from it. *)
Lemma solution_extraite self checkins checkouts :
  ∃ prob, probleme self checkins checkouts = Some prob
          ∧ _ajouter_contraintes self (variables_decision self)
              (calculer_besoins_personnel self checkins checkouts)
            = Some (constraints prob)
          ∧ ∀ varValue, ∃ planning : Planning,
              _extraire_planning self (variables_decision self) varValue = Some planning.
Proof.
  destruct (probleme_Some self checkins checkouts) as (prob & Hprob & Hcs).
  exists prob. split_and!; try done. intros varValue.
  destruct (_extraire_planning_Some self _ varValue (variables_decision_couvre self))
    as [planning Hp]. by exists planning.
Qed.

(** In a solution the variables of an unavailable employee are 0, so the
    schedule does not show their first name. *)
Lemma indisponible_absent self x besoins cs varValue (planning : Planning) emp jour shift :
  _ajouter_contraintes self x besoins = Some cs →
  solution varValue cs = true →
  _extraire_planning self x varValue = Some planning →
  emp ∈ employees self → Employee.disponible emp = false →
  present planning emp jour shift = false.
Proof.
  intros Hcs Hsol Hp Hemp Hd.
  assert (is_Some (x !! Employee.prenom emp)) as [t Ht].
  { unfold _extraire_planning in Hp. apply bind_Some in Hp as (lignes & Hl & _).
    apply mapM_Some in Hl. apply list_elem_of_lookup in Hemp as [i Hi].
    destruct (Forall2_lookup_l _ _ _ _ _ Hl Hi) as (et & _ & Heq).
    apply bind_Some in Heq as (t & Ht & _). by exists t. }
  rewrite (present_extrait _ _ _ _ _ _ jour shift Hp Hemp Ht).
  eapply variable_nulle_satisfaite, solution_elem; [done |].
  eapply contrainte_indisponible; try done. unfold lire. by rewrite Ht.
Qed.

(** X14. In the schedule extracted from any solution, an employee of the
    roster is present on at most one shift of a day (mornings, afternoons
    and nights exclude one another), and an employee marked unavailable
    is present on none. *)
Theorem un_shift_par_jour self checkins checkouts :
  ∃ prob,
    probleme self checkins checkouts = Some prob
    ∧ ∀ varValue,
        solution varValue (constraints prob) = true →
        ∃ planning : Planning,
          _extraire_planning self (variables_decision self) varValue = Some planning
          ∧ ∀ emp jour, emp ∈ employees self →
              (∀ shift shift',
                 present planning emp jour shift = true →
                 present planning emp jour shift' = true → shift = shift')
              ∧ (Employee.disponible emp = false →
                 ∀ shift, present planning emp jour shift = false).
Proof.
  destruct (solution_extraite self checkins checkouts) as (prob & Hprob & Hcs & Hex).
  exists prob. split; [done |]. intros varValue Hsol.
  destruct (Hex varValue) as [planning Hp]. exists planning. split; [done |].
  intros emp jour Hemp.
  assert (Employee.disponible emp = false →
          ∀ shift, present planning emp jour shift = false) as Hindispo.
  { intros Hd shift. by eapply indisponible_absent. }
  split; [| done].
  destruct (Employee.disponible emp) eqn:Hd.
  - destruct (variables_decision_couvre self emp Hemp) as [t Ht].
    pose proof (contrainte_un_shift _ _ _ _ _ _ jour Hcs Hemp Hd Ht) as Hc.
    pose proof (solution_elem _ _ _ Hsol Hc) as Hsat.
    unfold satisfait, contrainte in Hsat. cbn [expr sens rhs] in Hsat.
    simpl in Hsat. unfold valeur in Hsat. apply Z.leb_le in Hsat.
    intros shift shift'.
    rewrite !(present_extrait _ _ _ _ _ _ jour _ Hp Hemp Ht).
    destruct (varValue (t jour Matin)) eqn:?, (varValue (t jour Apres_midi)) eqn:?,
      (varValue (t jour Nuit)) eqn:?; try lia;
      destruct shift, shift'; congruence.
  - intros shift shift' H. by rewrite Hindispo in H.
Qed.

(** In a solution the days on which an employee's first name appears
    are within the weekly cap of line 266. *)
Lemma jours_travailles_dans_max self x besoins cs varValue (planning : Planning) emp :
  _ajouter_contraintes self x besoins = Some cs →
  solution varValue cs = true →
  _extraire_planning self x varValue = Some planning →
  couvre x (employees self) →
  emp ∈ employees self →
  jours_travailles_dans planning emp jours_semaine
  ≤ Employee.jours_travail_max_semaine emp.
Proof.
  intros Hcs Hsol Hp Hx Hemp.
  destruct (Hx emp Hemp) as [t Ht].
  pose proof (jours_travailles_dans_somme _ _ _ _ _ _ jours_semaine Hp Hemp Ht) as Hs.
  destruct (Employee.disponible emp) eqn:Hd.
  - pose proof (contrainte_semaine _ _ _ _ _ _ Hcs Hemp Hd Ht) as Hc.
    pose proof (solution_elem _ _ _ Hsol Hc) as Hsat.
    unfold satisfait, contrainte in Hsat. cbn [expr sens rhs] in Hsat.
    apply Z.leb_le in Hsat. lia.
  - rewrite somme_nulle in Hs.
    + unfold Employee.jours_travail_max_semaine. rewrite Hd. simpl. lia.
    + intros v (jour & Hv & _)%list_elem_of_bind.
      assert (∃ shift, v = t jour shift) as [shift ->].
      { rewrite !elem_of_cons, elem_of_nil in Hv.
        destruct Hv as [-> | [-> | [-> | []]]]; by eexists. }
      eapply variable_nulle_satisfaite, solution_elem; [done |].
      eapply contrainte_indisponible; try done. unfold lire. by rewrite Ht.
Qed.

(** X15. In the schedule extracted from any solution, every employee of
    the roster works at most [jours_travail_max_semaine] days; when
    their contractual and absence days are not negative this is within
    the contract, so [analyser_planning] sets [respect_contrat] and
    [_verifier_violations] has no contract record for them. *)
Theorem capacite_hebdomadaire self checkins checkouts :
  ∃ prob,
    probleme self checkins checkouts = Some prob
    ∧ ∀ varValue,
        solution varValue (constraints prob) = true →
        ∃ planning : Planning,
          _extraire_planning self (variables_decision self) varValue = Some planning
          ∧ ∀ emp, emp ∈ employees self →
              jours_travailles_dans planning emp jours_semaine
              ≤ Employee.jours_travail_max_semaine emp
              ∧ (0 ≤ Employee.jours_semaine emp → 0 ≤ Employee.jours_absence emp →
                 respect_contrat (heures_de planning emp) = true
                 ∧ violations_employe planning emp = []).
Proof.
  destruct (solution_extraite self checkins checkouts) as (prob & Hprob & Hcs & Hex).
  exists prob. split; [done |]. intros varValue Hsol.
  destruct (Hex varValue) as [planning Hp]. exists planning. split; [done |].
  intros emp Hemp.
  assert (jours_travailles_dans planning emp jours_semaine
          ≤ Employee.jours_travail_max_semaine emp) as Hle.
  { eapply jours_travailles_dans_max; try done. apply variables_decision_couvre. }
  split; [done |]. intros Hjs Hja.
  pose proof (jours_travail_max_semaine_le emp Hjs Hja).
  split.
  - rewrite respect_contrat_heures_de. apply Z.leb_le. lia.
  - unfold violations_employe. rewrite jours_travailles_de_eq.
    by rewrite (proj2 (Z.ltb_ge _ _)) by lia.
Qed.

(* ------------------------------------------------------------------ *)
(** ** Counting the members of a team *)

Lemma lpSum_employes_cons (x : table) e l jour shift :
  lpSum_employes x (e :: l) jour shift
  = v ← lire x e jour shift; vs ← lpSum_employes x l jour shift; Some (v :: vs).
Proof. reflexivity. Qed.

Lemma lpSum_employes_app (x : table) l1 l2 jour shift vs :
  lpSum_employes x (l1 ++ l2) jour shift = Some vs →
  ∃ vs1 vs2, lpSum_employes x l1 jour shift = Some vs1
             ∧ lpSum_employes x l2 jour shift = Some vs2
             ∧ vs = vs1 ++ vs2.
Proof.
  revert vs. induction l1 as [| e l1 IH]; intros vs H.
  - exists [], vs. by split_and!.
  - simpl app in H. rewrite lpSum_employes_cons in H.
    apply bind_Some in H as (v & Hv & H).
    apply bind_Some in H as (vs' & Hvs' & H). injection H as <-.
    destruct (IH _ Hvs') as (vs1 & vs2 & H1 & H2 & ->).
    exists (v :: vs1), vs2. rewrite lpSum_employes_cons, Hv, H1. by split_and!.
Qed.

(** The members of a team with a given profile are as many as the sum of
    the variables of the available employees with that profile, as soon
    as the variables of the unavailable employees are 0. [P] is the
    profile read on the employee, [Q] the same read on the entry of the
    schedule. *)
Lemma compte_lignes (x : table) varValue jour shift
    (P : Employee.t → Prop) `{!∀ e, Decision (P e)}
    (Q : Affectation → Prop) `{!∀ a, Decision (Q a)} (l : list Employee.t) :
  (∀ e, Q (fiche e) ↔ P e) →
  (∀ e t, e ∈ l → x !! Employee.prenom e = Some t → Employee.disponible e = false →
          varValue (t jour shift) = false) →
  ∀ lignes vs,
    mapM (λ emp, t ← x !! Employee.prenom emp; Some (emp, t)) l = Some lignes →
    lpSum_employes x (filter (λ e, Employee.disponible e = true ∧ P e) l) jour shift
    = Some vs →
    len (filter Q ((fiche ∘ fst) <$> filter (λ et, varValue (et.2 jour shift) = true) lignes))
    = somme varValue vs.
Proof.
  intros HQP. induction l as [| e l IH]; intros Hind lignes vs Hl Hvs.
  - simpl in Hl. injection Hl as <-. simpl in Hvs. by injection Hvs as <-.
  - simpl in Hl. apply bind_Some in Hl as ([e' t] & Het & Hl).
    apply bind_Some in Het as (t' & Ht & Het). injection Het as <- <-.
    apply bind_Some in Hl as (lignes' & Hl & Heq). injection Heq as <-.
    assert (∀ e0 t0, e0 ∈ l → x !! Employee.prenom e0 = Some t0 →
                     Employee.disponible e0 = false →
                     varValue (t0 jour shift) = false) as Hind'.
    { intros e0 t0 He0. apply Hind. by right. }
    rewrite filter_cons in Hvs. rewrite filter_cons. simpl.
    destruct (decide (Employee.disponible e = true ∧ P e)) as [[Hd HP] | Hn].
    + rewrite lpSum_employes_cons in Hvs. unfold lire in Hvs. rewrite Ht in Hvs.
      simpl in Hvs. apply bind_Some in Hvs as (vs' & Hvs' & Heq). injection Heq as <-.
      specialize (IH Hind' _ _ Hl Hvs'). simpl. unfold valeur at 1.
      destruct (varValue (t' jour shift)) eqn:Hv.
      * rewrite decide_True by done. rewrite fmap_cons, filter_cons_True by (by apply HQP).
        unfold len in *. rewrite length_cons. lia.
      * rewrite decide_False by done. lia.
    + specialize (IH Hind' _ _ Hl Hvs).
      destruct (varValue (t' jour shift)) eqn:Hv.
      * rewrite decide_True by done. rewrite fmap_cons.
        rewrite filter_cons_False; [done |]. simpl. rewrite HQP. intros HP.
        destruct (Employee.disponible e) eqn:Hd; [tauto |].
        rewrite (Hind e t') in Hv; [done | by left | done | done].
      * by rewrite decide_False by done.
Qed.

Lemma compte_equipe self x besoins cs varValue (planning : Planning) jour shift
    (P : Employee.t → Prop) `{!∀ e, Decision (P e)}
    (Q : Affectation → Prop) `{!∀ a, Decision (Q a)} vs :
  _ajouter_contraintes self x besoins = Some cs →
  solution varValue cs = true →
  _extraire_planning self x varValue = Some planning →
  (∀ e, Q (fiche e) ↔ P e) →
  lpSum_employes x (filter (λ e, Employee.disponible e = true ∧ P e) (employees self))
    jour shift = Some vs →
  len (filter Q (planning jour shift)) = somme varValue vs.
Proof.
  intros Hcs Hsol Hp HQP Hvs.
  unfold _extraire_planning in Hp. apply bind_Some in Hp as (lignes & Hl & Hp).
  injection Hp as <-.
  eapply (compte_lignes x varValue jour shift P Q (employees self)); try done.
  intros e t He Ht Hd.
  eapply variable_nulle_satisfaite, solution_elem; [done |].
  eapply contrainte_indisponible; try done. unfold lire. by rewrite Ht.
Qed.

(* ------------------------------------------------------------------ *)
(** ** What the validator reports, record by record *)

Lemma elem_of_si {A} (b : bool) (a v : A) : v ∈ (if b then [a] else []) ↔ b = true ∧ v = a.
Proof.
  destruct b; rewrite ?list_elem_of_singleton, ?elem_of_nil; intuition congruence.
Qed.

(** The records of a day shift and the conditions under which each is
    produced. *)
Lemma elem_of_violations_shift_jour (planning : Planning) jour shift v :
  let nb_superviseurs := len (filter (λ e, a_role e = "superviseur") (planning jour shift)) in
  let nb_concierges := len (filter (λ e, a_role e = "concierge") (planning jour shift)) in
  let total := len (planning jour shift) in
  v ∈ violations_shift_jour planning jour shift
  ↔ (v = V_superviseur jour shift nb_superviseurs ∧ nb_superviseurs < 1)
    ∨ (v = V_concierge_obligatoire jour shift nb_concierges
       ∧ weekend jour = false ∧ shift = Matin ∧ nb_concierges ≠ 1)
    ∨ (v = V_concierge_apres_midi jour shift
       ∧ weekend jour = false ∧ shift = Apres_midi ∧ 0 < nb_concierges)
    ∨ (v = V_concierge_weekend jour shift ∧ weekend jour = true ∧ 0 < nb_concierges)
    ∨ (v = V_maximum jour shift max_receptionists_per_shift total
       ∧ max_receptionists_per_shift < total)
    ∨ (v = V_minimum jour shift total ∧ total < 1).
Proof.
  intros nb_superviseurs nb_concierges total.
  unfold violations_shift_jour. cbv zeta.
  fold nb_superviseurs nb_concierges total.
  rewrite !elem_of_app, !elem_of_si.
  assert (v ∈ (if negb (weekend jour) then
                 if bool_decide (shift = Matin) && negb (nb_concierges =? 1) then
                   [V_concierge_obligatoire jour shift nb_concierges]
                 else if bool_decide (shift = Apres_midi) && (0 <? nb_concierges) then
                   [V_concierge_apres_midi jour shift]
                 else []
               else if 0 <? nb_concierges then [V_concierge_weekend jour shift] else [])
          ↔ (v = V_concierge_obligatoire jour shift nb_concierges
             ∧ weekend jour = false ∧ shift = Matin ∧ nb_concierges ≠ 1)
            ∨ (v = V_concierge_apres_midi jour shift
               ∧ weekend jour = false ∧ shift = Apres_midi ∧ 0 < nb_concierges)
            ∨ (v = V_concierge_weekend jour shift ∧ weekend jour = true ∧ 0 < nb_concierges))
    as ->.
  { destruct (weekend jour); simpl.
    - rewrite elem_of_si, Z.ltb_lt. intuition congruence.
    - destruct shift; simpl;
        destruct (Z.eqb_spec nb_concierges 1), (Z.ltb_spec 0 nb_concierges); simpl;
        rewrite ?list_elem_of_singleton, ?elem_of_nil;
        intuition (congruence || lia). }
  rewrite !Z.ltb_lt. tauto.
Qed.

Lemma elem_of_violations_nuit (planning : Planning) jour v :
  let nb_receptionists := len (filter (λ e, a_role e = "receptionniste") (planning jour Nuit)) in
  let nb_superviseurs := len (filter (λ e, a_role e = "superviseur") (planning jour Nuit)) in
  let nb_concierges := len (filter (λ e, a_role e = "concierge") (planning jour Nuit)) in
  v ∈ violations_nuit planning jour
  ↔ (v = V_nuit_receptionnistes jour nb_night_receptionists_required nb_receptionists
     ∧ nb_receptionists ≠ nb_night_receptionists_required)
    ∨ (v = V_nuit_superviseur jour ∧ 0 < nb_superviseurs)
    ∨ (v = V_nuit_concierge jour ∧ 0 < nb_concierges).
Proof.
  intros nb_receptionists nb_superviseurs nb_concierges.
  unfold violations_nuit. cbv zeta.
  fold nb_receptionists nb_superviseurs nb_concierges.
  rewrite !elem_of_app, !elem_of_si, !Z.ltb_lt, negb_true_iff, Z.eqb_neq. tauto.
Qed.

Lemma elem_of_violations_employe (planning : Planning) emp v :
  v ∈ violations_employe planning emp
  ↔ v = V_contrat (Employee.prenom emp) (Employee.nom emp)
          (jours_travailles_dans planning emp jours_semaine) (Employee.jours_semaine emp)
    ∧ Employee.jours_semaine emp < jours_travailles_dans planning emp jours_semaine.
Proof.
  unfold violations_employe. rewrite jours_travailles_de_eq, elem_of_si, Z.ltb_lt. tauto.
Qed.

(** Every record comes from one of the three checks. *)
Lemma elem_of_verifier_violations self (planning : Planning) v :
  v ∈ _verifier_violations self planning
  ↔ (∃ jour shift, shift ≠ Nuit ∧ v ∈ violations_shift_jour planning jour shift)
    ∨ (∃ jour, v ∈ violations_nuit planning jour)
    ∨ (∃ emp, emp ∈ employees self ∧ v ∈ violations_employe planning emp).
Proof.
  unfold _verifier_violations. rewrite elem_of_app, !list_elem_of_bind. split.
  - intros [(jour & Hv & _) | (emp & Hv & Hemp)].
    + apply elem_of_app in Hv as [Hv | Hv].
      * apply list_elem_of_bind in Hv as (shift & Hv & Hs). left. exists jour, shift.
        split; [| done]. rewrite !elem_of_cons, elem_of_nil in Hs.
        destruct Hs as [-> | [-> | []]]; done.
      * right. left. by exists jour.
    + right. right. by exists emp.
  - intros [(jour & shift & Hs & Hv) | [(jour & Hv) | (emp & Hemp & Hv)]].
    + left. exists jour. split; [| apply elem_of_jours_semaine].
      apply elem_of_app. left. apply list_elem_of_bind. exists shift. split; [done |].
      destruct shift; [by left | by right; left | done].
    + left. exists jour. split; [| apply elem_of_jours_semaine].
      apply elem_of_app. by right.
    + right. by exists emp.
Qed.

Lemma filter_tous {A} (P : A → Prop) `{!∀ a, Decision (P a)} (l : list A) :
  (∀ a, a ∈ l → P a) → filter P l = l.
Proof.
  induction l as [| a l IH]; intros Hall; [done |].
  rewrite filter_cons_True by (apply Hall; by left).
  f_equal. apply IH. intros b Hb. apply Hall. by right.
Qed.

(** In a solution, the night team holds night receptionists only. *)
Lemma equipe_nuit_receptionnistes self x besoins cs varValue (planning : Planning)
    jour a :
  _ajouter_contraintes self x besoins = Some cs →
  solution varValue cs = true →
  _extraire_planning self x varValue = Some planning →
  a ∈ planning jour Nuit →
  a_role a = "receptionniste" ∧ a_type_contrat a = "nuit".
Proof.
  intros Hcs Hsol Hp Ha.
  apply (_extraire_planning_elem _ _ _ _ _ _ _ Hp) in Ha
    as (emp & t & Hemp & Ht & Hv & ->).
  simpl. destruct (decide (est_receptionniste_nuit emp)) as [? | Hn]; [done |].
  assert (varValue (t jour Nuit) = false); [| congruence].
  eapply variable_nulle_satisfaite, solution_elem; [done |].
  destruct (Employee.disponible emp) eqn:Hd.
  - eapply contrainte_autres_nuit; try done. unfold lire. by rewrite Ht.
  - eapply contrainte_indisponible; try done. unfold lire. by rewrite Ht.
Qed.

(** Lines 223-225 in a solution: the size of a night team. *)
Lemma equipe_nuit_len self checkins checkouts cs varValue (planning : Planning) jour :
  _ajouter_contraintes self (variables_decision self)
    (calculer_besoins_personnel self checkins checkouts) = Some cs →
  solution varValue cs = true →
  _extraire_planning self (variables_decision self) varValue = Some planning →
  len (planning jour Nuit) = Z.min 2 (len (receptionnistes_nuit_disponibles self)).
Proof.
  intros Hcs Hsol Hp.
  pose proof (variables_decision_couvre self) as Hx.
  assert (∀ a, a ∈ planning jour Nuit →
               a_role a = "receptionniste" ∧ a_type_contrat a = "nuit") as Hall.
  { intros a Ha. by eapply equipe_nuit_receptionnistes. }
  destruct (lpSum_employes_Some (variables_decision self)
              (receptionnistes_nuit_disponibles self) jour Nuit) as [vs Hvs].
  { apply couvre_filter, Hx. }
  rewrite <- (filter_tous (λ a, a_role a = "receptionniste" ∧ a_type_contrat a = "nuit")
                (planning jour Nuit) Hall).
  rewrite (compte_equipe _ _ _ _ _ _ jour Nuit est_receptionniste_nuit
             (λ a, a_role a = "receptionniste" ∧ a_type_contrat a = "nuit")
             vs Hcs Hsol Hp); [| done | exact Hvs].
  pose proof (contrainte_requis_nuit self _ _ _ jour vs Hcs) as Hc.
  rewrite besoin_nuit in Hc.
  pose proof (len_nonneg (receptionnistes_nuit_disponibles self)) as Hn.
  rewrite Z.min_l in Hc by lia.
  destruct (decide (0 < Z.min 2 (len (receptionnistes_nuit_disponibles self))))
    as [Hpos | Hzero].
  - specialize (Hc Hpos Hvs). pose proof (solution_elem _ _ _ Hsol Hc) as Hsat.
    unfold satisfait, contrainte in Hsat. cbn [expr sens rhs] in Hsat.
    by apply Z.eqb_eq in Hsat.
  - assert (len vs = 0) as Hvs0.
    { rewrite (lpSum_employes_length _ _ _ _ _ Hvs). lia. }
    destruct vs; [simpl; lia | unfold len in Hvs0; simpl in Hvs0; lia].
Qed.

(** With two night receptionists available the three night checks of
    the validator find nothing in a solution. *)
Lemma violations_nuit_aucune self checkins checkouts cs varValue (planning : Planning) jour :
  _ajouter_contraintes self (variables_decision self)
    (calculer_besoins_personnel self checkins checkouts) = Some cs →
  solution varValue cs = true →
  _extraire_planning self (variables_decision self) varValue = Some planning →
  2 ≤ len (receptionnistes_nuit_disponibles self) →
  violations_nuit planning jour = [].
Proof.
  intros Hcs Hsol Hp Hdeux.
  assert (∀ a, a ∈ planning jour Nuit →
               a_role a = "receptionniste" ∧ a_type_contrat a = "nuit") as Hall.
  { intros a Ha. by eapply equipe_nuit_receptionnistes. }
  unfold violations_nuit. cbv zeta.
  rewrite (filter_tous (λ e, a_role e = "receptionniste") (planning jour Nuit))
    by (intros a Ha; by apply Hall).
  rewrite (filter_aucun (λ e, a_role e = "superviseur") (planning jour Nuit)).
  2:{ intros a [Hr _]%Hall. rewrite Hr. discriminate. }
  rewrite (filter_aucun (λ e, a_role e = "concierge") (planning jour Nuit)).
  2:{ intros a [Hr _]%Hall. rewrite Hr. discriminate. }
  rewrite (equipe_nuit_len _ _ _ _ _ _ jour Hcs Hsol Hp), Z.min_l by lia. reflexivity.
Qed.

(** X16. In the schedule extracted from any solution, every night team
    consists of night-contract receptionists only and has exactly
    min(2, number of available night receptionists) members; with two or
    more available, the validator's night checks report nothing. *)
Theorem equipe_de_nuit self checkins checkouts :
  ∃ prob,
    probleme self checkins checkouts = Some prob
    ∧ ∀ varValue,
        solution varValue (constraints prob) = true →
        ∃ planning : Planning,
          _extraire_planning self (variables_decision self) varValue = Some planning
          ∧ ∀ jour,
              (∀ a, a ∈ planning jour Nuit →
                    a_role a = "receptionniste" ∧ a_type_contrat a = "nuit")
              ∧ len (planning jour Nuit)
                = Z.min 2 (len (receptionnistes_nuit_disponibles self))
              ∧ (2 ≤ len (receptionnistes_nuit_disponibles self) →
                 violations_nuit planning jour = []).
Proof.
  destruct (solution_extraite self checkins checkouts) as (prob & Hprob & Hcs & Hex).
  exists prob. split; [done |]. intros varValue Hsol.
  destruct (Hex varValue) as [planning Hp]. exists planning. split; [done |].
  intros jour. split_and!.
  - intros a Ha. by eapply equipe_nuit_receptionnistes.
  - by eapply equipe_nuit_len.
  - intros Hdeux. by eapply violations_nuit_aucune.
Qed.

Lemma len_pos_ne_nil {A} (l : list A) : l ≠ [] ↔ 0 < len l.
Proof. unfold len. destruct l; simpl; split; (done || lia). Qed.

(** Lines 233-234 in a solution: a supervisor on every day shift. *)
Lemma superviseur_dans_equipe self x besoins cs varValue (planning : Planning) jour shift :
  _ajouter_contraintes self x besoins = Some cs →
  solution varValue cs = true →
  _extraire_planning self x varValue = Some planning →
  couvre x (employees self) →
  superviseurs_disponibles self ≠ [] → shift ≠ Nuit →
  1 ≤ len (filter (λ a, a_role a = "superviseur") (planning jour shift)).
Proof.
  intros Hcs Hsol Hp Hx Hne Hs.
  destruct (lpSum_employes_Some x (superviseurs_disponibles self) jour shift) as [vs Hvs].
  { apply couvre_filter, Hx. }
  rewrite (compte_equipe _ _ _ _ _ _ jour shift est_superviseur
             (λ a, a_role a = "superviseur") vs Hcs Hsol Hp); [| done | exact Hvs].
  pose proof (contrainte_superviseur _ _ _ _ jour shift vs Hcs Hs Hne Hvs) as Hc.
  pose proof (solution_elem _ _ _ Hsol Hc) as Hsat.
  unfold satisfait, contrainte in Hsat. cbn [expr sens rhs] in Hsat.
  by apply Z.leb_le in Hsat.
Qed.

(** X17. When a supervisor is available, the schedule extracted from any
    solution has a supervisor on every morning and every afternoon, so
    no day shift is empty and the validator reports neither "au moins 1
    superviseur" nor "au moins 1 personne" for any day shift. *)
Theorem superviseur_present self checkins checkouts :
  superviseurs_disponibles self ≠ [] →
  ∃ prob,
    probleme self checkins checkouts = Some prob
    ∧ ∀ varValue,
        solution varValue (constraints prob) = true →
        ∃ planning : Planning,
          _extraire_planning self (variables_decision self) varValue = Some planning
          ∧ ∀ jour shift, shift ≠ Nuit →
              1 ≤ len (filter (λ a, a_role a = "superviseur") (planning jour shift))
              ∧ 1 ≤ len (planning jour shift)
              ∧ ∀ n, (V_superviseur jour shift n ∉ _verifier_violations self planning)
                     ∧ (V_minimum jour shift n ∉ _verifier_violations self planning).
Proof.
  intros Hne.
  destruct (solution_extraite self checkins checkouts) as (prob & Hprob & Hcs & Hex).
  exists prob. split; [done |]. intros varValue Hsol.
  destruct (Hex varValue) as [planning Hp]. exists planning. split; [done |].
  pose proof (variables_decision_couvre self) as Hx.
  assert (∀ jour shift, shift ≠ Nuit →
            1 ≤ len (filter (λ a, a_role a = "superviseur") (planning jour shift)))
    as Hsup.
  { intros jour shift Hs. by eapply superviseur_dans_equipe. }
  intros jour shift Hs. specialize (Hsup jour shift Hs).
  pose proof (len_filter_le (λ a, a_role a = "superviseur") (planning jour shift)) as Hle.
  split_and!; [done | lia |].
  intros n. split.
  - intros [(j & s & _ & Hv) | [(j & Hv) | (emp & _ & Hv)]]%elem_of_verifier_violations.
    + apply elem_of_violations_shift_jour in Hv
        as [[Heq ?] | [[? _] | [[? _] | [[? _] | [[? _] | [? _]]]]]]; try done.
      injection Heq as <- <- ->. specialize (Hsup). lia.
    + apply elem_of_violations_nuit in Hv as [[? _] | [[? _] | [? _]]]; done.
    + by apply elem_of_violations_employe in Hv as [? _].
  - intros [(j & s & _ & Hv) | [(j & Hv) | (emp & _ & Hv)]]%elem_of_verifier_violations.
    + apply elem_of_violations_shift_jour in Hv
        as [[? _] | [[? _] | [[? _] | [[? _] | [[? _] | [Heq ?]]]]]]; try done.
      injection Heq as <- <- ->. lia.
    + apply elem_of_violations_nuit in Hv as [[? _] | [[? _] | [? _]]]; done.
    + by apply elem_of_violations_employe in Hv as [? _].
Qed.

(** The schedule extracted from [valeurs_sans_concierge] comes from a
    solution of the problem of [equipe_sans_concierge]. *)
Lemma valeurs_sans_concierge_solution :
  ∃ prob, probleme equipe_sans_concierge previsions_20 previsions_20 = Some prob
          ∧ solution valeurs_sans_concierge (constraints prob) = true.
Proof.
  destruct (probleme_Some equipe_sans_concierge previsions_20 previsions_20)
    as (prob & Hprob & Hcs).
  exists prob. split; [done |].
  generalize dependent (constraints prob). intros cs Hcs.
  vm_compute in Hcs. injection Hcs as <-. vm_compute. reflexivity.
Qed.

Lemma superviseur_present_witness :
  ∃ prob,
    probleme equipe_sans_concierge previsions_20 previsions_20 = Some prob
    ∧ ∀ varValue,
        solution varValue (constraints prob) = true →
        ∃ planning : Planning,
          _extraire_planning equipe_sans_concierge
            (variables_decision equipe_sans_concierge) varValue = Some planning
          ∧ ∀ jour shift, shift ≠ Nuit →
              1 ≤ len (filter (λ a, a_role a = "superviseur") (planning jour shift))
              ∧ 1 ≤ len (planning jour shift)
              ∧ ∀ n, (V_superviseur jour shift n
                        ∉ _verifier_violations equipe_sans_concierge planning)
                     ∧ (V_minimum jour shift n
                        ∉ _verifier_violations equipe_sans_concierge planning).
Proof.
  apply (superviseur_present equipe_sans_concierge previsions_20 previsions_20).
  vm_compute. discriminate.
Defined.

(** Lines 281-287: an available concierge is kept off the nights, the
    afternoons and the weekend mornings. *)
Lemma contrainte_role_concierge self x besoins cs emp t jour shift :
  _ajouter_contraintes self x besoins = Some cs →
  emp ∈ employees self → Employee.disponible emp = true →
  Employee.role emp = "concierge" →
  x !! Employee.prenom emp = Some t →
  ¬ (weekend jour = false ∧ shift = Matin) →
  contrainte [t jour shift] EQ 0 ∈ cs.
Proof.
  intros Hcs Hemp Hd Hr Ht Hslot.
  destruct (contraintes_employe_dans _ _ _ _ _ Hcs Hemp Hd)
    as (c1 & c2 & c3 & c4 & _ & _ & _ & H4 & Hin).
  apply Hin. do 3 (apply elem_of_app; right).
  rewrite decide_True in H4 by done.
  destruct (pour_chaque_corps _ _ _ _ H4 (elem_of_jours_semaine jour)) as (bj & Hbj & Hinj).
  apply Hinj. unfold variable_nulle, lire in Hbj. rewrite Ht in Hbj. simpl in Hbj.
  destruct (weekend jour) eqn:Hw; simpl in Hbj; injection Hbj as <-;
    destruct shift; rewrite !elem_of_cons; tauto.
Qed.

(** Line 249: exactly one concierge on a weekday morning, when one is
    available. *)
Lemma contrainte_concierge_matin self x besoins cs jour vs :
  _ajouter_contraintes self x besoins = Some cs →
  concierges_disponibles self ≠ [] → weekend jour = false →
  lpSum_employes x (concierges_disponibles self) jour Matin = Some vs →
  contrainte vs EQ 1 ∈ cs.
Proof.
  intros Hcs Hne Hw Hvs.
  destruct (contraintes_jour_dans _ _ _ _ jour Matin Hcs ltac:(done)) as (cj & Hcj & Hin).
  apply contraintes_jour_inv in Hcj as (c1 & c2 & c3 & c4 & -> & _ & _ & H3 & _).
  apply Hin. do 2 (apply elem_of_app; right). apply elem_of_app. left.
  assert (0 < len (concierges_disponibles self)) as Hpos.
  { unfold len. destruct (concierges_disponibles self); simpl; [done | lia]. }
  rewrite Hw, (proj2 (Z.ltb_lt _ _) Hpos), Hvs in H3. simpl in H3.
  injection H3 as <-. by left.
Qed.

(** In a solution a concierge can only be on a weekday morning. *)
Lemma concierge_seulement_matin self x besoins cs varValue (planning : Planning)
    jour shift a :
  _ajouter_contraintes self x besoins = Some cs →
  solution varValue cs = true →
  _extraire_planning self x varValue = Some planning →
  a ∈ planning jour shift → a_role a = "concierge" →
  weekend jour = false ∧ shift = Matin.
Proof.
  intros Hcs Hsol Hp Ha Hrole.
  apply (_extraire_planning_elem _ _ _ _ _ _ _ Hp) in Ha
    as (emp & t & Hemp & Ht & Hv & ->).
  simpl in Hrole.
  destruct (decide (weekend jour = false ∧ shift = Matin)) as [? | Hslot]; [done |].
  assert (varValue (t jour shift) = false); [| congruence].
  eapply variable_nulle_satisfaite, solution_elem; [done |].
  destruct (Employee.disponible emp) eqn:Hd.
  - by eapply contrainte_role_concierge.
  - eapply contrainte_indisponible; try done. unfold lire. by rewrite Ht.
Qed.

(** Lines 248-249 in a solution: one concierge on a weekday morning. *)
Lemma concierge_un_matin self x besoins cs varValue (planning : Planning) jour :
  _ajouter_contraintes self x besoins = Some cs →
  solution varValue cs = true →
  _extraire_planning self x varValue = Some planning →
  couvre x (employees self) →
  concierges_disponibles self ≠ [] → weekend jour = false →
  len (filter (λ a, a_role a = "concierge") (planning jour Matin)) = 1.
Proof.
  intros Hcs Hsol Hp Hx Hne Hw.
  destruct (lpSum_employes_Some x (concierges_disponibles self) jour Matin) as [vs Hvs].
  { apply couvre_filter, Hx. }
  rewrite (compte_equipe _ _ _ _ _ _ jour Matin est_concierge
             (λ a, a_role a = "concierge") vs Hcs Hsol Hp); [| done | exact Hvs].
  pose proof (contrainte_concierge_matin _ _ _ _ jour vs Hcs Hne Hw Hvs) as Hc.
  pose proof (solution_elem _ _ _ Hsol Hc) as Hsat.
  unfold satisfait, contrainte in Hsat. cbn [expr sens rhs] in Hsat.
  by apply Z.eqb_eq in Hsat.
Qed.

(** X18. In the schedule extracted from any solution a concierge appears
    on weekday mornings only; when a concierge is available every
    weekday morning has exactly one, and the validator reports none of
    its four records about concierges. *)
Theorem concierge_place self checkins checkouts :
  ∃ prob,
    probleme self checkins checkouts = Some prob
    ∧ ∀ varValue,
        solution varValue (constraints prob) = true →
        ∃ planning : Planning,
          _extraire_planning self (variables_decision self) varValue = Some planning
          ∧ (∀ jour shift a, a ∈ planning jour shift → a_role a = "concierge" →
                             weekend jour = false ∧ shift = Matin)
          ∧ (concierges_disponibles self ≠ [] →
             (∀ jour, weekend jour = false →
                      len (filter (λ a, a_role a = "concierge") (planning jour Matin)) = 1)
             ∧ ∀ v, v ∈ _verifier_violations self planning → ¬ violation_concierge v).
Proof.
  destruct (solution_extraite self checkins checkouts) as (prob & Hprob & Hcs & Hex).
  exists prob. split; [done |]. intros varValue Hsol.
  destruct (Hex varValue) as [planning Hp]. exists planning. split; [done |].
  pose proof (variables_decision_couvre self) as Hx.
  assert (∀ jour shift a, a ∈ planning jour shift → a_role a = "concierge" →
                          weekend jour = false ∧ shift = Matin) as Hseul.
  { intros jour shift a. by eapply concierge_seulement_matin. }
  split; [done |]. intros Hne.
  assert (∀ jour, weekend jour = false →
            len (filter (λ a, a_role a = "concierge") (planning jour Matin)) = 1) as Hun.
  { intros jour Hw. by eapply concierge_un_matin. }
  split; [done |].
  assert (∀ jour shift, ¬ (weekend jour = false ∧ shift = Matin) →
            len (filter (λ a, a_role a = "concierge") (planning jour shift)) = 0) as Hzero.
  { intros jour shift Hslot. rewrite filter_aucun; [done |].
    intros a Ha Hr. apply Hslot. by eapply Hseul. }
  intros v [(j & s & Hs & Hv) | [(j & Hv) | (emp & _ & Hv)]]%elem_of_verifier_violations Hk.
  - apply elem_of_violations_shift_jour in Hv
      as [[-> _] | [[-> (Hw & -> & Hn)] | [[-> (Hw & -> & Hn)] | [[-> (Hw & Hn)]
          | [[-> _] | [-> _]]]]]]; try done.
    + by apply Hn, Hun.
    + rewrite Hzero in Hn; [lia |]. by intros [_ ?].
    + rewrite Hzero in Hn; [lia |]. intros [? _]. congruence.
  - apply elem_of_violations_nuit in Hv as [[-> _] | [[-> _] | [-> Hn]]]; try done.
    rewrite Hzero in Hn; [lia |]. by intros [_ ?].
  - by apply elem_of_violations_employe in Hv as [-> _].
Qed.

Lemma somme_positive varValue vs : 0 ≤ somme varValue vs.
Proof.
  induction vs as [| v vs IH]; simpl; [done |].
  pose proof (valeur_bornes varValue v). lia.
Qed.

Lemma len_app {A} (l l' : list A) : len (l ++ l') = len l + len l'.
Proof. unfold len. rewrite length_app. lia. Qed.

(** Lines 255-257 in a solution: the supervisors, day receptionists and
    concierges of a day shift are at most 4 together. *)
Lemma effectif_pools_max self x besoins cs varValue (planning : Planning) jour shift :
  _ajouter_contraintes self x besoins = Some cs →
  solution varValue cs = true →
  _extraire_planning self x varValue = Some planning →
  couvre x (employees self) →
  shift ≠ Nuit →
  len (filter (λ a, a_role a = "superviseur") (planning jour shift))
  + len (filter (λ a, a_role a = "receptionniste" ∧ a_type_contrat a ≠ "nuit")
           (planning jour shift))
  + len (filter (λ a, a_role a = "concierge") (planning jour shift))
  ≤ max_receptionists_per_shift.
Proof.
  intros Hcs Hsol Hp Hx Hs.
  destruct (lpSum_employes_Some x (superviseurs_disponibles self) jour shift) as [vs Hvs];
    [apply couvre_filter, Hx |].
  destruct (lpSum_employes_Some x (receptionnistes_jour_disponibles self) jour shift)
    as [vr Hvr]; [apply couvre_filter, Hx |].
  destruct (lpSum_employes_Some x (concierges_disponibles self) jour shift) as [vc Hvc];
    [apply couvre_filter, Hx |].
  rewrite (compte_equipe _ _ _ _ _ _ jour shift est_superviseur
             (λ a, a_role a = "superviseur") vs Hcs Hsol Hp); [| done | exact Hvs].
  rewrite (compte_equipe _ _ _ _ _ _ jour shift est_receptionniste_jour
             (λ a, a_role a = "receptionniste" ∧ a_type_contrat a ≠ "nuit")
             vr Hcs Hsol Hp); [| done | exact Hvr].
  rewrite (compte_equipe _ _ _ _ _ _ jour shift est_concierge
             (λ a, a_role a = "concierge") vc Hcs Hsol Hp); [| done | exact Hvc].
  destruct (contraintes_jour_dans _ _ _ _ jour shift Hcs Hs) as (cj & Hcj & Hin).
  apply contraintes_jour_inv in Hcj as (c1 & c2 & c3 & c4 & -> & _ & _ & _ & H4).
  pose proof (len_nonneg (superviseurs_disponibles self)).
  pose proof (len_nonneg (receptionnistes_jour_disponibles self)).
  pose proof (len_nonneg (concierges_disponibles self)).
  pose proof (somme_le_len varValue vs) as Bs.
  pose proof (somme_le_len varValue vr) as Br.
  pose proof (somme_le_len varValue vc) as Bc.
  rewrite (lpSum_employes_length _ _ _ _ _ Hvs) in Bs.
  rewrite (lpSum_employes_length _ _ _ _ _ Hvr) in Br.
  rewrite (lpSum_employes_length _ _ _ _ _ Hvc) in Bc.
  repeat rewrite len_app in H4.
  destruct (Z.ltb_spec 0 (len (superviseurs_disponibles self)
                          + len (receptionnistes_jour_disponibles self)
                          + len (concierges_disponibles self))) as [Hpos | Hzero].
  - destruct (lpSum_employes_Some x
                ((superviseurs_disponibles self
                  ++ receptionnistes_jour_disponibles self)
                 ++ concierges_disponibles self) jour shift) as [vt Hvt].
    { repeat apply couvre_app; apply couvre_filter, Hx. }
    rewrite Hvt in H4. simpl in H4. injection H4 as <-.
    assert (contrainte vt LE max_receptionists_per_shift ∈ cs) as Hc.
    { apply Hin. do 3 (apply elem_of_app; right). by left. }
    pose proof (solution_elem _ _ _ Hsol Hc) as Hsat.
    unfold satisfait, contrainte in Hsat. cbn [expr sens rhs] in Hsat.
    apply Z.leb_le in Hsat.
    apply lpSum_employes_app in Hvt as (v12 & v3 & E12 & E3 & ->).
    apply lpSum_employes_app in E12 as (v1 & v2 & E1 & E2 & ->).
    rewrite Hvs in E1. rewrite Hvr in E2. rewrite Hvc in E3.
    injection E1 as <-. injection E2 as <-. injection E3 as <-.
    rewrite !somme_app in Hsat. lia.
  - unfold max_receptionists_per_shift. lia.
Qed.

(** X19. In the schedule extracted from any solution, every morning and
    every afternoon counts at most 4 supervisors, day receptionists and
    concierges together, and at least as many supervisors and day
    receptionists as the requirement of the shift, clipped to the number
    of them available. *)
Theorem effectif_de_jour self checkins checkouts :
  ∃ prob,
    probleme self checkins checkouts = Some prob
    ∧ ∀ varValue,
        solution varValue (constraints prob) = true →
        ∃ planning : Planning,
          _extraire_planning self (variables_decision self) varValue = Some planning
          ∧ ∀ jour shift, shift ≠ Nuit →
              let besoin := match shift with
                            | Apres_midi =>
                                apres_midi (calculer_besoins_personnel self checkins checkouts jour)
                            | _ => matin (calculer_besoins_personnel self checkins checkouts jour)
                            end in
              let nb_superviseurs :=
                len (filter (λ a, a_role a = "superviseur") (planning jour shift)) in
              let nb_receptionnistes_jour :=
                len (filter (λ a, a_role a = "receptionniste" ∧ a_type_contrat a ≠ "nuit")
                       (planning jour shift)) in
              let nb_concierges :=
                len (filter (λ a, a_role a = "concierge") (planning jour shift)) in
              nb_superviseurs + nb_receptionnistes_jour + nb_concierges
              ≤ max_receptionists_per_shift
              ∧ Z.min (total_personnel besoin)
                      (len (superviseurs_disponibles self)
                       + len (receptionnistes_jour_disponibles self))
                ≤ nb_superviseurs + nb_receptionnistes_jour.
Proof.
  destruct (solution_extraite self checkins checkouts) as (prob & Hprob & Hcs & Hex).
  exists prob. split; [done |]. intros varValue Hsol.
  destruct (Hex varValue) as [planning Hp]. exists planning. split; [done |].
  pose proof (variables_decision_couvre self) as Hx.
  intros jour shift Hs besoin nb_superviseurs nb_receptionnistes_jour nb_concierges.
  split; [by eapply effectif_pools_max |].
  destruct (lpSum_employes_Some (variables_decision self)
              (superviseurs_disponibles self) jour shift) as [vs Hvs];
    [apply couvre_filter, Hx |].
  destruct (lpSum_employes_Some (variables_decision self)
              (receptionnistes_jour_disponibles self) jour shift) as [vr Hvr];
    [apply couvre_filter, Hx |].
  assert (nb_superviseurs = somme varValue vs) as Es.
  { apply (compte_equipe _ _ _ _ _ _ jour shift est_superviseur
             (λ a, a_role a = "superviseur") vs Hcs Hsol Hp); done. }
  assert (nb_receptionnistes_jour = somme varValue vr) as Er.
  { apply (compte_equipe _ _ _ _ _ _ jour shift est_receptionniste_jour
             (λ a, a_role a = "receptionniste" ∧ a_type_contrat a ≠ "nuit")
             vr Hcs Hsol Hp); done. }
  rewrite Es, Er.
  destruct (contraintes_jour_dans _ _ _ _ jour shift Hcs Hs) as (cj & Hcj & Hin).
  apply contraintes_jour_inv in Hcj as (c1 & c2 & c3 & c4 & -> & _ & H2 & _ & _).
  fold besoin in H2.
  pose proof (len_nonneg (superviseurs_disponibles self)).
  pose proof (len_nonneg (receptionnistes_jour_disponibles self)).
  repeat rewrite len_app in H2.
  pose proof (somme_positive varValue vs).
  pose proof (somme_positive varValue vr).
  destruct (Z.ltb_spec 0 (Z.min (total_personnel besoin)
                            (len (superviseurs_disponibles self)
                             + len (receptionnistes_jour_disponibles self))))
    as [Hpos | Hzero].
  - rewrite Hvr, Hvs in H2. simpl in H2. injection H2 as <-.
    assert (contrainte (vr ++ vs) GE
              (Z.min (total_personnel besoin)
                 (len (superviseurs_disponibles self)
                  + len (receptionnistes_jour_disponibles self)))
            ∈ constraints prob) as Hc.
    { apply Hin. apply elem_of_app. right. apply elem_of_app. left. by left. }
    pose proof (solution_elem _ _ _ Hsol Hc) as Hsat.
    unfold satisfait, contrainte in Hsat. cbn [expr sens rhs] in Hsat.
    apply Z.leb_le in Hsat. rewrite somme_app in Hsat. lia.
  - lia.
Qed.

(* ================================================================== *)
(** * Further properties: validator and analyzer *)
(* ================================================================== *)

Lemma violations_jour_sans_contrat (planning : Planning) jour v :
  v ∈ (shift ← [Matin; Apres_midi]; violations_shift_jour planning jour shift)
      ++ violations_nuit planning jour →
  ¬ est_violation_contrat v.
Proof.
  rewrite elem_of_app, list_elem_of_bind.
  intros [(shift & Hv & _) | Hv].
  - apply elem_of_violations_shift_jour in Hv.
    destruct Hv as [[-> _] | [[-> _] | [[-> _] | [[-> _] | [[-> _] | [-> _]]]]]]; simpl; tauto.
  - apply elem_of_violations_nuit in Hv.
    destruct Hv as [[-> _] | [[-> _] | [-> _]]]; simpl; tauto.
Qed.

(** The contract records of [_verifier_violations] are, in roster
    order, one per employee for whom the counting loop of the analyzer
    finds more worked days than [jours_semaine]: that loop and the loop
    with [break] of the validator agree on every schedule. *)
Lemma contrats_heures_de self (planning : Planning) :
  filter est_violation_contrat (_verifier_violations self planning)
  = (λ emp, V_contrat (Employee.prenom emp) (Employee.nom emp)
              (jours_travailles (heures_de planning emp))
              (jours_contractuels (heures_de planning emp)))
    <$> filter (λ emp, respect_contrat (heures_de planning emp) = false) (employees self).
Proof.
  unfold _verifier_violations. rewrite filter_app.
  rewrite (filter_aucun est_violation_contrat (_ ≫= _)).
  2:{ intros v (jour & Hv & _)%list_elem_of_bind.
      by eapply violations_jour_sans_contrat. }
  simpl. induction (employees self) as [| emp l IH]; [done |].
  rewrite bind_cons, filter_app, IH, filter_cons.
  unfold violations_employe at 1. rewrite jours_travailles_de_eq.
  rewrite respect_contrat_heures_de.
  assert (jours_contractuels (heures_de planning emp) = Employee.jours_semaine emp) as Hjc.
  { unfold heures_de. by destruct (compter_jours _ _ _ _) as [[? ?] ?]. }
  destruct (Z.ltb_spec (Employee.jours_semaine emp)
              (jours_travailles_dans planning emp jours_semaine)) as [Hlt | Hge].
  - rewrite (proj2 (Z.leb_gt _ _)) by lia.
    rewrite decide_True by done.
    rewrite fmap_cons, jours_travailles_heures_de, Hjc.
    rewrite filter_cons, decide_True by (simpl; done). done.
  - rewrite (proj2 (Z.leb_le _ _)) by lia.
    rewrite decide_False by done. done.
Qed.

(* ------------------------------------------------------------------ *)
(** ** The objective and the totals of the analysis *)

Lemma somme_semaine_plus (F G : Jour → Shift → Z) :
  somme_semaine (λ jour shift, F jour shift + G jour shift)
  = somme_semaine F + somme_semaine G.
Proof. unfold somme_semaine. simpl. lia. Qed.

Lemma somme_semaine_ext (F G : Jour → Shift → Z) :
  (∀ jour shift, F jour shift = G jour shift) → somme_semaine F = somme_semaine G.
Proof. intros H. unfold somme_semaine. simpl. by rewrite !H. Qed.

Lemma somme_semaine_variables varValue (t : Jour → Shift → LpVariable) :
  somme varValue (jour ← jours_semaine; [t jour Matin; t jour Apres_midi; t jour Nuit])
  = somme_semaine (λ jour shift, valeur varValue (t jour shift)).
Proof. unfold somme_semaine. simpl. lia. Qed.

Lemma len_lignes_cons varValue emp (t : Jour → Shift → LpVariable) lignes jour shift :
  len ((fiche ∘ fst) <$> filter (λ et : Employee.t * (Jour → Shift → LpVariable),
                                   varValue (et.2 jour shift) = true)
                                ((emp, t) :: lignes))
  = valeur varValue (t jour shift)
    + len ((fiche ∘ fst) <$> filter (λ et, varValue (et.2 jour shift) = true) lignes).
Proof.
  rewrite filter_cons. unfold valeur. cbn [snd].
  destruct (varValue (t jour shift)).
  - rewrite decide_True by done. rewrite fmap_cons. unfold len. rewrite length_cons. lia.
  - rewrite decide_False by done. lia.
Qed.

Lemma objectif_lignes (x : table) varValue (l : list Employee.t) :
  ∀ lignes obj,
    mapM (λ emp, t ← x !! Employee.prenom emp; Some (emp, t)) l = Some lignes →
    pour_chaque l (λ emp, lpSum_jours x emp jours_semaine) = Some obj →
    somme varValue obj
    = somme_semaine (λ jour shift,
        len ((fiche ∘ fst) <$> filter (λ et, varValue (et.2 jour shift) = true) lignes)).
Proof.
  induction l as [| emp l IH]; intros lignes obj Hl Hobj.
  - unfold pour_chaque in Hobj. cbn in Hobj.
    assert (lignes = []) as -> by (by injection Hl).
    simplify_eq. reflexivity.
  - unfold pour_chaque in Hobj. simpl in Hl, Hobj.
    apply bind_Some in Hl as ([emp' t] & Het & Hl).
    apply bind_Some in Het as (t' & Ht & Het). simplify_eq.
    apply bind_Some in Hl as (lignes' & Hl & Hlignes).
    assert (lignes = (emp', t) :: lignes') as -> by (by injection Hlignes).
    apply bind_Some in Hobj as (blocs & Hb & ?). simplify_eq.
    apply bind_Some in Hb as (b & Hb & Hbs).
    apply bind_Some in Hbs as (bs & Hbs & Hblocs).
    assert (blocs = b :: bs) as -> by (by injection Hblocs).
    simpl concat. rewrite somme_app.
    rewrite (lpSum_jours_eq _ _ _ _ Ht) in Hb.
    replace (somme varValue b)
      with (somme_semaine (λ jour shift, valeur varValue (t jour shift)))
      by (rewrite <- somme_semaine_variables; congruence).
    rewrite (IH lignes' (concat bs) Hl) by (unfold pour_chaque; by rewrite Hbs).
    rewrite <- somme_semaine_plus. apply somme_semaine_ext.
    intros jour shift. by rewrite len_lignes_cons.
Qed.

(** X21. For every roster and forecasts and every solution of the
    problem (values 0 or 1 that satisfy the constraints), the value of
    the objective is the number of assignments of the extracted
    schedule, which is the [total_shifts_semaine] of its analysis;
    [total_heures_semaine] is 8 times that, and the number of
    assignments is the sum of the team sizes that [couverture_par_shift]
    reports. *)
Theorem objectif_total_shifts self checkins checkouts :
  ∃ prob,
    probleme self checkins checkouts = Some prob
    ∧ ∀ varValue,
        solution varValue (constraints prob) = true →
        ∃ planning : Planning,
          _extraire_planning self (variables_decision self) varValue = Some planning
          ∧ let stats := statistiques_globales (analyser_planning self planning) in
            somme varValue (objective prob) = total_shifts_semaine stats
            ∧ total_heures_semaine stats = 8 * somme varValue (objective prob)
            ∧ total_shifts_semaine stats
              = somme_semaine (λ jour shift, c_total (couverture_de (planning jour shift))).
Proof.
  destruct (solution_extraite self checkins checkouts) as (prob & Hprob & Hcs & Hex).
  exists prob. split; [done |]. intros varValue _.
  destruct (Hex varValue) as [planning Hp]. exists planning. split; [done |].
  unfold probleme in Hprob. cbn zeta in Hprob.
  apply bind_Some in Hprob as (obj & Hobj & Hprob).
  apply bind_Some in Hprob as (cs & _ & ?). simplify_eq.
  unfold _extraire_planning in Hp.
  apply bind_Some in Hp as (lignes & Hl & ?). simplify_eq.
  cbn [objective].
  rewrite (objectif_lignes _ varValue _ _ _ Hl Hobj).
  cbn zeta. split_and!; [reflexivity | | reflexivity].
  unfold analyser_planning. cbn [statistiques_globales total_heures_semaine].
  unfold somme_semaine. lia.
Qed.

(* ------------------------------------------------------------------ *)
(** ** Hours, days and shifts of one employee *)

Lemma triplet_eq {A B C} (a a' : A) (b b' : B) (c c' : C) :
  a = a' → b = b' → c = c' → (a, b, c) = (a', b', c').
Proof. congruence. Qed.

Lemma compter_shifts_eq (planning : Planning) emp jour heures jour_travaille
    shifts_travailles :
  compter_shifts planning emp jour (heures, jour_travaille, shifts_travailles)
  = (heures + 8 * len (shifts_travailles_dans planning emp [jour]),
     jour_travaille || travaille_ce_jour planning emp jour,
     shifts_travailles ++ shifts_travailles_dans planning emp [jour]).
Proof.
  unfold compter_shifts, shifts_travailles_dans, travaille_ce_jour, shifts. simpl.
  destruct (present planning emp jour Matin), (present planning emp jour Apres_midi),
    (present planning emp jour Nuit), jour_travaille; simpl;
    rewrite <- ?(assoc_L (++)); simpl; rewrite ?app_nil_r;
    (apply triplet_eq; [unfold len; simpl; lia | done | done]).
Qed.

Lemma shifts_travailles_dans_cons (planning : Planning) emp jour js :
  shifts_travailles_dans planning emp (jour :: js)
  = shifts_travailles_dans planning emp [jour] ++ shifts_travailles_dans planning emp js.
Proof.
  unfold shifts_travailles_dans. rewrite !bind_cons.
  change (@mbind list _ _ _ ?f []) with (@nil string). by rewrite app_nil_r.
Qed.

Lemma jours_travailles_dans_cons (planning : Planning) emp jour js :
  jours_travailles_dans planning emp (jour :: js)
  = (if travaille_ce_jour planning emp jour then 1 else 0)
    + jours_travailles_dans planning emp js.
Proof.
  unfold jours_travailles_dans. rewrite filter_cons.
  destruct (travaille_ce_jour planning emp jour).
  - rewrite decide_True by done. unfold len. rewrite length_cons. lia.
  - rewrite decide_False by done. lia.
Qed.

Lemma compter_jours_eq (planning : Planning) emp js :
  ∀ heures jours_travailles shifts_travailles,
    compter_jours planning emp js (heures, jours_travailles, shifts_travailles)
    = (heures + 8 * len (shifts_travailles_dans planning emp js),
       jours_travailles + jours_travailles_dans planning emp js,
       shifts_travailles ++ shifts_travailles_dans planning emp js).
Proof.
  induction js as [| jour js IH]; intros heures jours_travailles shifts_travailles.
  - unfold compter_jours, shifts_travailles_dans, jours_travailles_dans. simpl.
    rewrite app_nil_r. apply triplet_eq; [unfold len; simpl; lia .. | done].
  - rewrite compter_jours_cons, compter_shifts_eq, IH.
    rewrite (shifts_travailles_dans_cons _ _ jour js), jours_travailles_dans_cons, len_app.
    rewrite <- (assoc_L (++)). simpl orb.
    destruct (travaille_ce_jour planning emp jour); (apply triplet_eq; [lia .. | done]).
Qed.

Lemma shifts_travailles_dans_bornes (planning : Planning) emp js :
  jours_travailles_dans planning emp js ≤ len (shifts_travailles_dans planning emp js)
  ≤ 3 * jours_travailles_dans planning emp js.
Proof.
  induction js as [| jour js IH]; [done |].
  rewrite (shifts_travailles_dans_cons _ _ jour js), jours_travailles_dans_cons, len_app.
  assert ((if travaille_ce_jour planning emp jour then 1 else 0)
          ≤ len (shifts_travailles_dans planning emp [jour])
          ≤ 3 * (if travaille_ce_jour planning emp jour then 1 else 0)); [| lia].
  unfold travaille_ce_jour, shifts_travailles_dans, shifts. simpl.
  destruct (present planning emp jour Matin), (present planning emp jour Apres_midi),
    (present planning emp jour Nuit); unfold len; simpl; lia.
Qed.

(** The record the analyzer computes for an employee before filing it:
    ['shifts'] lists, in week order, the slots in which the first name
    appears; ['heures'] is 8 times their number; ['jours_travailles'] is
    the number of days with such a slot. *)
Lemma heures_de_bornes (planning : Planning) emp :
  let r := heures_de planning emp in
  h_shifts r = shifts_travailles_dans planning emp jours_semaine
  ∧ heures r = 8 * len (h_shifts r)
  ∧ jours_travailles r = jours_travailles_dans planning emp jours_semaine
  ∧ 0 ≤ jours_travailles r ≤ 7
  ∧ 8 * jours_travailles r ≤ heures r ≤ 24 * jours_travailles r
  ∧ heures r ≤ 168.
Proof.
  cbn zeta. unfold heures_de. rewrite compter_jours_eq.
  cbn [heures h_shifts jours_travailles]. rewrite app_nil_l, !Z.add_0_l.
  pose proof (shifts_travailles_dans_bornes planning emp jours_semaine).
  pose proof (jours_travailles_dans_le planning emp jours_semaine) as Hle.
  change (len jours_semaine) with 7 in Hle.
  assert (0 ≤ jours_travailles_dans planning emp jours_semaine)
    by (unfold jours_travailles_dans, len; lia).
  split_and!; try done; lia.
Qed.

Lemma un_shift_present self x besoins cs varValue (planning : Planning) emp jour
    shift shift' :
  _ajouter_contraintes self x besoins = Some cs →
  solution varValue cs = true →
  _extraire_planning self x varValue = Some planning →
  couvre x (employees self) →
  emp ∈ employees self →
  present planning emp jour shift = true →
  present planning emp jour shift' = true → shift = shift'.
Proof.
  intros Hcs Hsol Hp Hx Hemp.
  destruct (Employee.disponible emp) eqn:Hd.
  - destruct (Hx emp Hemp) as [t Ht].
    pose proof (contrainte_un_shift _ _ _ _ _ _ jour Hcs Hemp Hd Ht) as Hc.
    pose proof (solution_elem _ _ _ Hsol Hc) as Hsat.
    unfold satisfait, contrainte in Hsat. cbn [expr sens rhs] in Hsat.
    simpl in Hsat. unfold valeur in Hsat. apply Z.leb_le in Hsat.
    rewrite !(present_extrait _ _ _ _ _ _ jour _ Hp Hemp Ht).
    destruct (varValue (t jour Matin)) eqn:?, (varValue (t jour Apres_midi)) eqn:?,
      (varValue (t jour Nuit)) eqn:?; try lia;
      destruct shift, shift'; congruence.
  - intros H. by rewrite (indisponible_absent _ _ _ _ _ _ _ _ _ Hcs Hsol Hp Hemp Hd) in H.
Qed.

Lemma shifts_travailles_dans_un_shift (planning : Planning) emp js :
  (∀ jour shift shift',
     present planning emp jour shift = true →
     present planning emp jour shift' = true → shift = shift') →
  len (shifts_travailles_dans planning emp js) = jours_travailles_dans planning emp js.
Proof.
  intros Hun. induction js as [| jour js IH]; [done |].
  rewrite (shifts_travailles_dans_cons _ _ jour js), jours_travailles_dans_cons, len_app, IH.
  f_equal. pose proof (Hun jour) as Hj.
  unfold travaille_ce_jour, shifts_travailles_dans, shifts. simpl.
  destruct (present planning emp jour Matin) eqn:Hm,
    (present planning emp jour Apres_midi) eqn:Ha,
    (present planning emp jour Nuit) eqn:Hn; try done;
    first [ by specialize (Hj Matin Apres_midi Hm Ha)
          | by specialize (Hj Matin Nuit Hm Hn)
          | by specialize (Hj Apres_midi Nuit Ha Hn) ].
Qed.

(** In the schedule extracted from any solution, the record the
    analyzer computes for an employee of the roster counts one shift per
    worked day. *)
Lemma heures_de_solution self checkins checkouts :
  ∃ prob,
    probleme self checkins checkouts = Some prob
    ∧ ∀ varValue,
        solution varValue (constraints prob) = true →
        ∃ planning : Planning,
          _extraire_planning self (variables_decision self) varValue = Some planning
          ∧ ∀ emp, emp ∈ employees self →
              let r := heures_de planning emp in
              len (h_shifts r) = jours_travailles r
              ∧ heures r = 8 * jours_travailles r
              ∧ heures r ≤ 8 * Employee.jours_travail_max_semaine emp.
Proof.
  destruct (solution_extraite self checkins checkouts) as (prob & Hprob & Hcs & Hex).
  exists prob. split; [done |]. intros varValue Hsol.
  destruct (Hex varValue) as [planning Hp]. exists planning. split; [done |].
  intros emp Hemp. cbn zeta.
  assert (len (shifts_travailles_dans planning emp jours_semaine)
          = jours_travailles_dans planning emp jours_semaine) as Hlen.
  { apply shifts_travailles_dans_un_shift. intros jour shift shift'.
    eapply un_shift_present; try done. apply variables_decision_couvre. }
  assert (jours_travailles_dans planning emp jours_semaine
          ≤ Employee.jours_travail_max_semaine emp) as Hle.
  { eapply jours_travailles_dans_max; try done. apply variables_decision_couvre. }
  unfold heures_de. rewrite compter_jours_eq.
  cbn [heures h_shifts jours_travailles]. rewrite app_nil_l, !Z.add_0_l. lia.
Qed.

(* ------------------------------------------------------------------ *)
(** ** Coverage per shift *)

Lemma couverture_de_roles (equipe : list Affectation) :
  let c := couverture_de equipe in
  0 ≤ c_receptionnistes c ∧ 0 ≤ c_superviseurs c ∧ 0 ≤ c_concierge c
  ∧ c_receptionnistes c + c_superviseurs c + c_concierge c ≤ c_total c
  ∧ len (c_equipe c) = c_total c.
Proof.
  cbn zeta. unfold couverture_de.
  cbn [c_receptionnistes c_superviseurs c_concierge c_total c_equipe].
  split_and!; try (unfold len; lia).
  - induction equipe as [| a equipe IH]; [done |].
    rewrite !filter_cons. unfold len in *. rewrite length_cons.
    destruct (decide (a_role a = "receptionniste")) as [Hr | ?],
      (decide (a_role a = "superviseur")) as [Hs | ?],
      (decide (a_role a = "concierge")) as [Hc | ?];
      rewrite ?Hr in *; try discriminate; rewrite ?Hs in *; try discriminate;
      rewrite ?length_cons; lia.
  - unfold len. by rewrite length_fmap.
Qed.

(** X24. [analyser_planning] files the coverage of each of the 21 slots
    under its own key [f"{jour}_{shift}"]: no two slots share a key, the
    dictionary has exactly 21 entries, and in each entry the three role
    counts are not negative and add up to at most ['total'], which is
    also the length of ['equipe']. *)
Theorem couverture_par_shift_spec self (planning : Planning) :
  let couverture := couverture_par_shift (analyser_planning self planning) in
  (∀ jour shift,
     couverture !! (nom_jour jour +:+ "_" +:+ nom_shift shift)
     = Some (couverture_de (planning jour shift)))
  ∧ size couverture = 21%nat
  ∧ (∀ jour shift jour' shift',
       nom_jour jour +:+ "_" +:+ nom_shift shift
       = nom_jour jour' +:+ "_" +:+ nom_shift shift' →
       jour = jour' ∧ shift = shift')
  ∧ ∀ jour shift,
      let c := couverture_de (planning jour shift) in
      0 ≤ c_receptionnistes c ∧ 0 ≤ c_superviseurs c ∧ 0 ≤ c_concierge c
      ∧ c_receptionnistes c + c_superviseurs c + c_concierge c ≤ c_total c
      ∧ len (c_equipe c) = c_total c.
Proof.
  cbn zeta. split_and!.
  - intros jour shift. destruct jour, shift; reflexivity.
  - reflexivity.
  - intros jour shift jour' shift'.
    destruct jour, shift, jour', shift'; (discriminate || done).
  - intros jour shift. apply couverture_de_roles.
Qed.

(* ------------------------------------------------------------------ *)
(** ** Active employees *)

Lemma actifs_insert_le (d : gmap string HeuresEmploye) key r :
  (size (filter (λ kv : string * HeuresEmploye, (0 < jours_travailles kv.2)%Z) (<[key := r]> d))
   ≤ size (filter (λ kv : string * HeuresEmploye, (0 < jours_travailles kv.2)%Z) d)
     + (if decide (0 < jours_travailles r)%Z then 1 else 0))%nat.
Proof.
  rewrite map_filter_insert. cbn [snd].
  destruct (decide (0 < jours_travailles r)).
  - rewrite map_size_insert. destruct (_ !! key); simpl; lia.
  - rewrite map_filter_delete, map_size_delete. destruct (_ !! key); simpl; lia.
Qed.

Lemma actifs_insert_nouveau (d : gmap string HeuresEmploye) key r :
  d !! key = None →
  size (filter (λ kv : string * HeuresEmploye, (0 < jours_travailles kv.2)%Z) (<[key := r]> d))
  = (size (filter (λ kv : string * HeuresEmploye, (0 < jours_travailles kv.2)%Z) d)
     + (if decide (0 < jours_travailles r)%Z then 1 else 0))%nat.
Proof.
  intros Hkey. rewrite map_filter_insert. cbn [snd].
  destruct (decide (0 < jours_travailles r)).
  - rewrite map_size_insert_None; [lia |].
    apply map_lookup_filter_None_2. by left.
  - rewrite delete_id by done. lia.
Qed.

Lemma actifs_fold_le (planning : Planning) (l : list Employee.t) :
  ∀ d : gmap string HeuresEmploye,
    (size (filter (λ kv : string * HeuresEmploye, (0 < jours_travailles kv.2)%Z)
             (fold_left (λ (d : gmap string HeuresEmploye) emp,
                           <[nom_complet emp := heures_de planning emp]> d) l d))
     ≤ size (filter (λ kv : string * HeuresEmploye, (0 < jours_travailles kv.2)%Z) d)
       + length (filter (λ emp, (0 < jours_travailles (heures_de planning emp))%Z) l))%nat.
Proof.
  induction l as [| emp l IH]; intros d; simpl; [lia |].
  etransitivity; [apply IH |].
  pose proof (actifs_insert_le d (nom_complet emp) (heures_de planning emp)).
  rewrite filter_cons.
  destruct (decide (0 < jours_travailles (heures_de planning emp))); simpl; lia.
Qed.

Lemma actifs_fold (planning : Planning) (l : list Employee.t) :
  ∀ d : gmap string HeuresEmploye,
    NoDup (nom_complet <$> l) →
    (∀ emp, emp ∈ l → d !! nom_complet emp = None) →
    size (filter (λ kv : string * HeuresEmploye, (0 < jours_travailles kv.2)%Z)
            (fold_left (λ (d : gmap string HeuresEmploye) emp,
                          <[nom_complet emp := heures_de planning emp]> d) l d))
    = (size (filter (λ kv : string * HeuresEmploye, (0 < jours_travailles kv.2)%Z) d)
       + length (filter (λ emp, (0 < jours_travailles (heures_de planning emp))%Z) l))%nat.
Proof.
  induction l as [| emp l IH]; intros d Hnd Hd; simpl; [lia |].
  rewrite fmap_cons in Hnd. apply NoDup_cons in Hnd as [Hnotin Hnd].
  rewrite IH; [| done |].
  - rewrite actifs_insert_nouveau by (apply Hd; left).
    rewrite filter_cons.
    destruct (decide (0 < jours_travailles (heures_de planning emp))); simpl; lia.
  - intros emp' Hemp'. rewrite lookup_insert_ne.
    + apply Hd. by right.
    + intros Heq. apply Hnotin. rewrite Heq. by apply list_elem_of_fmap_2.
Qed.

(** X25. [nombre_employes_actifs] counts keys of [heures_par_employe],
    so on every schedule it is at most the number of employees of the
    roster whose first name appears on some day, hence at most the size
    of the roster; when no two employees share both names it is exactly
    that number. *)
Theorem nombre_employes_actifs_spec self (planning : Planning) :
  let n := nombre_employes_actifs (statistiques_globales (analyser_planning self planning)) in
  let actifs := filter (λ emp, 0 < jours_travailles_dans planning emp jours_semaine)
                  (employees self) in
  0 ≤ n ≤ len actifs
  ∧ len actifs ≤ len (employees self)
  ∧ (NoDup (nom_complet <$> employees self) → n = len actifs).
Proof.
  cbn zeta. unfold analyser_planning.
  cbn [statistiques_globales nombre_employes_actifs].
  assert (filter (λ emp, 0 < jours_travailles_dans planning emp jours_semaine) (employees self)
          = filter (λ emp, 0 < jours_travailles (heures_de planning emp)) (employees self))
    as ->.
  { apply list_filter_iff. intros emp. by rewrite jours_travailles_heures_de. }
  split_and!.
  - lia.
  - pose proof (actifs_fold_le planning (employees self) ∅) as Hle.
    rewrite map_filter_empty, map_size_empty in Hle. unfold len. lia.
  - apply len_filter_le.
  - intros Hnd. rewrite (actifs_fold planning (employees self) ∅ Hnd) by done.
    rewrite map_filter_empty, map_size_empty. unfold len. lia.
Qed.

(* ================================================================== *)
(** * Further properties: minimal solutions and the validator *)
(* ================================================================== *)

Lemma pour_chaque_Forall {A B} (Q : B → Prop) (l : list A) (corps : A → option (list B))
    (bs : list B) :
  pour_chaque l corps = Some bs →
  (∀ a ba, a ∈ l → corps a = Some ba → Forall Q ba) →
  Forall Q bs.
Proof.
  unfold pour_chaque. intros H Hq.
  apply bind_Some in H as (blocs & Hm & H). injection H as <-.
  apply mapM_Some in Hm. apply Forall_forall. intros b Hb.
  apply elem_of_concat in Hb as (bloc & Hb & Hbloc).
  apply list_elem_of_lookup in Hbloc as [i Hi].
  destruct (Forall2_lookup_r _ _ _ _ _ Hm Hi) as (a & Ha & Hca).
  assert (a ∈ l) as Hal by (apply list_elem_of_lookup; by exists i).
  pose proof (Hq a bloc Hal Hca) as HF. rewrite Forall_forall in HF. by apply HF.
Qed.

Lemma variable_nulle_stable self x emp jour shift ba :
  variable_nulle x emp jour shift = Some ba → Forall (stable self x) ba.
Proof.
  unfold variable_nulle. intros H. apply bind_Some in H as (v & _ & H).
  injection H as <-. apply Forall_singleton. right; left. done.
Qed.

Lemma lpSum_employes_inv (x : table) l jour shift vs v :
  lpSum_employes x l jour shift = Some vs → v ∈ vs →
  ∃ e, e ∈ l ∧ lire x e jour shift = Some v.
Proof.
  unfold lpSum_employes. intros H Hv. apply mapM_Some in H.
  apply list_elem_of_lookup in Hv as [i Hi].
  destruct (Forall2_lookup_r _ _ _ _ _ H Hi) as (e & He & Hl).
  exists e. split; [| done]. apply list_elem_of_lookup. by exists i.
Qed.

Lemma lpSum_pool_stable self x (P : Employee.t → Prop) `{!∀ e, Decision (P e)}
    jour shift vs :
  (∀ e, Employee.disponible e = true → P e → dans_pool e shift) →
  lpSum_employes x (filter P (get_employees_disponibles self)) jour shift = Some vs →
  ∀ v, v ∈ vs → ∃ e jour shift, e ∈ employees self ∧ dans_pool e shift
                                ∧ lire x e jour shift = Some v.
Proof.
  intros Hp Hvs v Hv.
  destruct (lpSum_employes_inv _ _ _ _ _ _ Hvs Hv) as (e & He & Hl).
  apply list_elem_of_filter in He as [HP He].
  apply list_elem_of_filter in He as [Hd He].
  exists e, jour, shift. split_and!; try done. by apply Hp.
Qed.

Lemma contraintes_nuit_stable self x besoins jour cn :
  contraintes_nuit self x besoins jour = Some cn → Forall (stable self x) cn.
Proof.
  unfold contraintes_nuit. cbv zeta. intros H.
  apply bind_Some in H as (c_requis & Hr & H).
  apply bind_Some in H as (c_autres & Ha & H). injection H as <-.
  apply Forall_app. split.
  - revert Hr; case (0 <? _); intros Hr; [| injection Hr as <-; constructor].
    apply bind_Some in Hr as (vs & Hvs & Hr). injection Hr as <-.
    apply Forall_singleton. right; right. cbn [expr contrainte].
    eapply (lpSum_pool_stable self x est_receptionniste_nuit); [| done].
    intros e Hd He. by split.
  - eapply pour_chaque_Forall; [done |].
    intros emp ba _. apply variable_nulle_stable.
Qed.

Lemma contraintes_jour_stable self x jour shift besoin cj :
  shift ≠ Nuit →
  contraintes_jour self x jour shift besoin = Some cj → Forall (stable self x) cj.
Proof.
  intros Hs. unfold contraintes_jour. cbv zeta. intros H.
  apply bind_Some in H as (c_superviseur & H1 & H).
  apply bind_Some in H as (c_personnel & H2 & H).
  apply bind_Some in H as (c_concierge & H3 & H).
  apply bind_Some in H as (c_maximum & H4 & H). injection H as <-.
  assert (∀ e, Employee.disponible e = true → est_superviseur e → dans_pool e shift)
    as Psup by (intros e Hd He; split; [done |]; destruct shift; tauto).
  assert (∀ e, Employee.disponible e = true → est_receptionniste_jour e → dans_pool e shift)
    as Prec by (intros e Hd He; split; [done |]; destruct shift; tauto).
  assert (∀ e, Employee.disponible e = true → est_concierge e → dans_pool e shift)
    as Pcon by (intros e Hd He; split; [done |]; destruct shift; tauto).
  repeat (apply Forall_app; split).
  - revert H1; case (0 <? _); intros H1; [| injection H1 as <-; constructor].
    apply bind_Some in H1 as (vs & Hvs & H1). injection H1 as <-.
    apply Forall_singleton. right; right. cbn [expr contrainte].
    by eapply (lpSum_pool_stable self x est_superviseur).
  - revert H2; case (0 <? _); intros H2; [| injection H2 as <-; constructor].
    apply bind_Some in H2 as (vr & Hvr & H2).
    apply bind_Some in H2 as (vs & Hvs & H2). injection H2 as <-.
    apply Forall_singleton. right; right. cbn [expr contrainte].
    intros v [Hv | Hv]%elem_of_app.
    + by eapply (lpSum_pool_stable self x est_receptionniste_jour).
    + by eapply (lpSum_pool_stable self x est_superviseur).
  - revert H3; case (_ && _); intros H3.
    + apply bind_Some in H3 as (vs & Hvs & H3). injection H3 as <-.
      apply Forall_singleton. right; right. cbn [expr contrainte].
      by eapply (lpSum_pool_stable self x est_concierge).
    + eapply pour_chaque_Forall; [done |].
      intros emp ba _. apply variable_nulle_stable.
  - revert H4; case (0 <? _); intros H4; [| injection H4 as <-; constructor].
    apply bind_Some in H4 as (vs & Hvs & H4). injection H4 as <-.
    apply Forall_singleton. by left.
Qed.

Lemma contraintes_employe_stable self x emp ce :
  contraintes_employe x emp = Some ce → Forall (stable self x) ce.
Proof.
  unfold contraintes_employe. cbv zeta. intros H.
  apply bind_Some in H as (c_un_shift & H1 & H).
  apply bind_Some in H as (c_semaine & H2 & H).
  apply bind_Some in H as (c_consecutifs & H3 & H).
  apply bind_Some in H as (c_role & H4 & H). injection H as <-.
  repeat (apply Forall_app; split).
  - eapply pour_chaque_Forall; [done |]. intros jour ba _ Hb.
    apply bind_Some in Hb as (vs & _ & Hb). injection Hb as <-.
    apply Forall_singleton. by left.
  - apply bind_Some in H2 as (vs & _ & H2). injection H2 as <-.
    apply Forall_singleton. by left.
  - eapply pour_chaque_Forall; [done |]. intros js ba _ Hb.
    apply bind_Some in Hb as (vs & _ & Hb). injection Hb as <-.
    apply Forall_singleton. by left.
  - revert H4; case (decide _); intros ? H4; [| injection H4 as <-; constructor].
    eapply pour_chaque_Forall; [done |]. intros jour ba _ Hb.
    apply bind_Some in Hb as (c_nuit & Hn & Hb).
    apply bind_Some in Hb as (c_apres_midi & Ha & Hb).
    apply bind_Some in Hb as (c_matin & Hm & Hb). injection Hb as <-.
    repeat (apply Forall_app; split).
    + by eapply variable_nulle_stable.
    + by eapply variable_nulle_stable.
    + revert Hm; case (weekend jour); intros Hm; [by eapply variable_nulle_stable |].
      injection Hm as <-. constructor.
Qed.

(** Every constraint of the builder is an upper bound, sets a variable
    to 0, or sums variables of employees in the pool of the slot. *)
Lemma contraintes_stables self x besoins cs :
  _ajouter_contraintes self x besoins = Some cs → Forall (stable self x) cs.
Proof.
  intros H. apply _ajouter_contraintes_inv in H as (c1 & c2 & c3 & H1 & H2 & H3 & ->).
  repeat (apply Forall_app; split).
  - unfold contraintes_indisponibles in H1.
    eapply pour_chaque_Forall; [done |]. intros emp ba _ Hb. cbv beta in Hb.
    revert Hb; case (negb _); intros Hb; [| injection Hb as <-; constructor].
    eapply pour_chaque_Forall; [done |]. intros jour bj _ Hj. cbv beta in Hj.
    eapply pour_chaque_Forall; [done |]. intros shift bs _.
    apply variable_nulle_stable.
  - unfold contraintes_couverture in H2.
    eapply pour_chaque_Forall; [done |]. intros jour bj _ Hj. cbv beta in Hj.
    eapply pour_chaque_Forall; [done |]. intros shift bs _ Hs. cbv beta in Hs.
    destruct shift.
    + eapply contraintes_jour_stable; [| exact Hs]. discriminate.
    + eapply contraintes_jour_stable; [| exact Hs]. discriminate.
    + by eapply contraintes_nuit_stable.
  - eapply pour_chaque_Forall; [done |]. intros emp ba _.
    apply contraintes_employe_stable.
Qed.

Lemma valeur_retirer varValue v0 v :
  valeur (retirer varValue v0) v = if decide (v = v0) then 0 else valeur varValue v.
Proof. unfold valeur, retirer. by destruct (decide (v = v0)). Qed.

Lemma somme_cons varValue v vs :
  somme varValue (v :: vs) = valeur varValue v + somme varValue vs.
Proof. reflexivity. Qed.

(** Putting a variable back to 0 raises no sum. *)
Lemma somme_retirer_le varValue v0 vs :
  somme (retirer varValue v0) vs ≤ somme varValue vs.
Proof.
  induction vs as [| v vs IH]; [done |].
  rewrite !somme_cons, valeur_retirer. pose proof (valeur_bornes varValue v).
  destruct (decide (v = v0)); lia.
Qed.

Lemma somme_retirer_absent varValue v0 vs :
  v0 ∉ vs → somme (retirer varValue v0) vs = somme varValue vs.
Proof.
  induction vs as [| v vs IH]; [done |].
  intros Hnotin. apply not_elem_of_cons in Hnotin as [Hne Hnotin].
  rewrite !somme_cons, valeur_retirer, IH by done.
  by rewrite decide_False by done.
Qed.

Lemma somme_retirer_lt varValue v0 vs :
  v0 ∈ vs → varValue v0 = true →
  somme (retirer varValue v0) vs < somme varValue vs.
Proof.
  intros Hin Hv. induction vs as [| v vs IH]; [by apply elem_of_nil in Hin |].
  rewrite !somme_cons, valeur_retirer. pose proof (somme_retirer_le varValue v0 vs).
  destruct (decide (v = v0)) as [-> | Hne].
  - unfold valeur. rewrite Hv. lia.
  - apply elem_of_cons in Hin as [-> | Hin]; [done |].
    specialize (IH Hin). lia.
Qed.

(** A solution stays a solution when a variable that belongs to no
    employee in the pool of its slot is put back to 0. *)
Lemma retirer_solution self x cs varValue v0 :
  Forall (stable self x) cs →
  solution varValue cs = true →
  (∀ e jour shift, e ∈ employees self → dans_pool e shift →
                   lire x e jour shift ≠ Some v0) →
  solution (retirer varValue v0) cs = true.
Proof.
  intros Hst Hsol Hv0. unfold solution in *.
  rewrite forallb_forall in Hsol. apply forallb_forall. intros c Hc.
  specialize (Hsol c Hc). rewrite Forall_forall in Hst.
  apply list_elem_of_In in Hc. specialize (Hst c Hc).
  pose proof (somme_retirer_le varValue v0 (expr c)) as Hle.
  pose proof (somme_positive (retirer varValue v0) (expr c)) as Hpos.
  unfold satisfait in *.
  destruct Hst as [Hs | [[Hs Hr] | Hpool]].
  - rewrite Hs in *. apply Z.leb_le in Hsol. apply Z.leb_le. lia.
  - rewrite Hs in *. apply Z.eqb_eq in Hsol. apply Z.eqb_eq. lia.
  - rewrite somme_retirer_absent; [done |].
    intros Hin. destruct (Hpool v0 Hin) as (e & jour & shift & He & Hp & Hl).
    by apply (Hv0 e jour shift).
Qed.

(** An optimal solution is minimal. *)
Lemma optimale_minimale varValue prob : optimale varValue prob → minimale varValue prob = true.
Proof.
  intros [Hsol Hopt]. unfold minimale. apply forallb_forall. intros v Hv.
  apply list_elem_of_In in Hv.
  destruct (varValue v) eqn:Hval; [| done]. simpl.
  destruct (solution (retirer varValue v) (constraints prob)) eqn:Hr; [| done].
  specialize (Hopt _ Hr).
  pose proof (somme_retirer_lt varValue v (objective prob) Hv Hval). lia.
Qed.

(** With distinct first names, a variable of the table belongs to one
    employee, one day and one shift. *)
Lemma lire_injective self e e' jour jour' shift shift' v :
  NoDup (Employee.prenom <$> employees self) →
  e ∈ employees self → e' ∈ employees self →
  lire (variables_decision self) e jour shift = Some v →
  lire (variables_decision self) e' jour' shift' = Some v →
  e = e' ∧ jour = jour' ∧ shift = shift'.
Proof.
  intros Hnd He He' Hl Hl'. unfold lire in Hl, Hl'.
  apply bind_Some in Hl as (t & Ht & Hv). injection Hv as <-.
  apply bind_Some in Hl' as (t' & Ht' & Hv').
  apply variables_decision_lookup in Ht as (j & emp & Hj & Hp & -> & _).
  apply variables_decision_lookup in Ht' as (j' & emp' & Hj' & Hp' & -> & _).
  injection Hv' as Hnom -> -> ->. rewrite Hj in Hj'. injection Hj' as <-.
  split_and!; try done.
  apply list_elem_of_lookup in He as [i Hi]. apply list_elem_of_lookup in He' as [i' Hi'].
  assert (i = i'); [| congruence].
  eapply (NoDup_lookup _ i i' (Employee.prenom e) Hnd).
  - by rewrite list_lookup_fmap, Hi.
  - rewrite list_lookup_fmap, Hi'. simpl. congruence.
Qed.

(** The objective holds the variable of every slot of every employee. *)
Lemma objectif_contient self (obj : list LpVariable) emp t jour shift :
  pour_chaque (employees self)
    (λ emp, lpSum_jours (variables_decision self) emp jours_semaine) = Some obj →
  emp ∈ employees self → variables_decision self !! Employee.prenom emp = Some t →
  t jour shift ∈ obj.
Proof.
  intros Hobj Hemp Ht.
  apply (pour_chaque_elem _ _ _ emp
           (jour ← jours_semaine; [t jour Matin; t jour Apres_midi; t jour Nuit])
           _ Hobj Hemp (lpSum_jours_eq _ _ _ _ Ht)).
  apply list_elem_of_bind. exists jour. split; [| destruct jour; set_solver].
  destruct shift; set_solver.
Qed.

(** In a minimal solution every member of a team belongs to the pool of
    the slot. *)
Lemma equipe_dans_pool self checkins checkouts prob varValue (planning : Planning)
    jour shift a :
  NoDup (Employee.prenom <$> employees self) →
  probleme self checkins checkouts = Some prob →
  solution varValue (constraints prob) = true →
  minimale varValue prob = true →
  _extraire_planning self (variables_decision self) varValue = Some planning →
  a ∈ planning jour shift →
  ∃ emp, emp ∈ employees self ∧ a = fiche emp ∧ dans_pool emp shift.
Proof.
  intros Hnd Hprob Hsol Hmin Hp Ha.
  apply (_extraire_planning_elem _ _ _ _ _ _ _ Hp) in Ha
    as (emp & t & Hemp & Ht & Hv & ->).
  exists emp. split_and!; try done.
  destruct (decide (dans_pool emp shift)) as [? | Hhors]; [done | exfalso].
  unfold probleme in Hprob. cbn zeta in Hprob.
  apply bind_Some in Hprob as (obj & Hobj & Hprob).
  apply bind_Some in Hprob as (cs & Hcs & ?). simplify_eq.
  cbn [constraints objective] in *.
  assert (solution (retirer varValue (t jour shift)) cs = true) as Hr.
  { eapply retirer_solution; [by eapply contraintes_stables | done |].
    intros e jour' shift' He Hpool Hl.
    assert (lire (variables_decision self) emp jour shift = Some (t jour shift)) as Hl'
      by (unfold lire; by rewrite Ht).
    destruct (lire_injective _ _ _ _ _ _ _ _ Hnd He Hemp Hl Hl') as (-> & _ & ->).
    done. }
  unfold minimale in Hmin. rewrite forallb_forall in Hmin.
  specialize (Hmin (t jour shift)). cbn [constraints objective] in Hmin.
  rewrite Hv, Hr in Hmin. simpl in Hmin.
  assert (false = true); [| done]. apply Hmin, list_elem_of_In.
  by eapply objectif_contient.
Qed.

Lemma len_trois_roles (l : list Affectation) :
  (∀ a, a ∈ l → a_role a = "superviseur"
                ∨ (a_role a = "receptionniste" ∧ a_type_contrat a ≠ "nuit")
                ∨ a_role a = "concierge") →
  len l
  = len (filter (λ a, a_role a = "superviseur") l)
    + len (filter (λ a, a_role a = "receptionniste" ∧ a_type_contrat a ≠ "nuit") l)
    + len (filter (λ a, a_role a = "concierge") l).
Proof.
  induction l as [| a l IH]; intros H; [done |].
  rewrite !filter_cons. unfold len in *. rewrite length_cons.
  rewrite Nat2Z.inj_succ, IH by (intros a' Ha'; apply H; by right).
  destruct (H a ltac:(by left)) as [Hr | [[Hr Ht] | Hr]].
  - rewrite decide_True by done.
    rewrite decide_False by (rewrite Hr; intros [? _]; discriminate).
    rewrite decide_False by (rewrite Hr; discriminate).
    rewrite length_cons. lia.
  - rewrite decide_False by (rewrite Hr; discriminate).
    rewrite decide_True by done.
    rewrite decide_False by (rewrite Hr; discriminate).
    rewrite length_cons. lia.
  - rewrite decide_False by (rewrite Hr; discriminate).
    rewrite decide_False by (rewrite Hr; intros [? _]; discriminate).
    rewrite decide_True by done.
    rewrite length_cons. lia.
Qed.

(** X26. With pairwise distinct first names, the schedule extracted from
    a minimal solution (one from which no assignment can be dropped, as
    is every optimal solution) staffs each slot from its own pool only
    and no day shift has more than 4 persons; if moreover a supervisor,
    a concierge and two night receptionists are available and no
    employee has negative contractual or absence days, the validator
    finds no violation at all. *)
Theorem solution_minimale_conforme self checkins checkouts :
  NoDup (Employee.prenom <$> employees self) →
  ∃ prob,
    probleme self checkins checkouts = Some prob
    ∧ ∀ varValue,
        solution varValue (constraints prob) = true →
        minimale varValue prob = true →
        ∃ planning : Planning,
          _extraire_planning self (variables_decision self) varValue = Some planning
          ∧ (∀ jour shift a, a ∈ planning jour shift →
               ∃ emp, emp ∈ employees self ∧ a = fiche emp ∧ dans_pool emp shift)
          ∧ (∀ jour shift, shift ≠ Nuit →
               len (planning jour shift) ≤ max_receptionists_per_shift)
          ∧ (superviseurs_disponibles self ≠ [] →
             concierges_disponibles self ≠ [] →
             2 ≤ len (receptionnistes_nuit_disponibles self) →
             Forall (λ emp, 0 ≤ Employee.jours_semaine emp ∧ 0 ≤ Employee.jours_absence emp)
               (employees self) →
             _verifier_violations self planning = []).
Proof.
  intros Hnd.
  destruct (solution_extraite self checkins checkouts) as (prob & Hprob & Hcs & Hex).
  exists prob. split; [done |]. intros varValue Hsol Hmin.
  destruct (Hex varValue) as [planning Hp]. exists planning. split; [done |].
  pose proof (variables_decision_couvre self) as Hx.
  assert (∀ jour shift a, a ∈ planning jour shift →
            ∃ emp, emp ∈ employees self ∧ a = fiche emp ∧ dans_pool emp shift) as Hpool.
  { intros jour shift a. by eapply equipe_dans_pool. }
  assert (∀ jour shift, shift ≠ Nuit →
            len (planning jour shift) ≤ max_receptionists_per_shift) as Hmax.
  { intros jour shift Hs. rewrite len_trois_roles.
    - by eapply effectif_pools_max.
    - intros a Ha. destruct (Hpool jour shift a Ha) as (emp & _ & -> & _ & Hr).
      unfold est_superviseur, est_receptionniste_jour, est_concierge in Hr.
      simpl. destruct shift; tauto. }
  split_and!; [done | done |].
  intros Hsup Hcon Hnuit Hjours. rewrite Forall_forall in Hjours.
  assert (∀ jour shift, ¬ (weekend jour = false ∧ shift = Matin) →
            len (filter (λ a, a_role a = "concierge") (planning jour shift)) = 0) as Hzero.
  { intros jour shift Hslot. rewrite filter_aucun; [done |].
    intros a Ha Hr. apply Hslot. by eapply concierge_seulement_matin. }
  assert (∀ v, v ∉ _verifier_violations self planning) as Hnone.
  { intros v [(j & s & Hs & Hv) | [(j & Hv) | (emp & Hemp & Hv)]]%elem_of_verifier_violations.
    - pose proof (superviseur_dans_equipe _ _ _ _ _ _ j s Hcs Hsol Hp Hx Hsup Hs) as H1.
      pose proof (len_filter_le (λ a, a_role a = "superviseur") (planning j s)) as Hle.
      pose proof (Hmax j s Hs) as H4.
      apply elem_of_violations_shift_jour in Hv
        as [[_ Hn] | [[_ (Hw & -> & Hn)] | [[_ (Hw & -> & Hn)] | [[_ (Hw & Hn)]
            | [[_ Hn] | [_ Hn]]]]]].
      + lia.
      + apply Hn. by eapply concierge_un_matin.
      + rewrite Hzero in Hn; [lia |]. by intros [_ ?].
      + rewrite Hzero in Hn; [lia |]. intros [? _]. congruence.
      + lia.
      + lia.
    - rewrite (violations_nuit_aucune _ _ _ _ _ _ j Hcs Hsol Hp Hnuit) in Hv.
      by apply elem_of_nil in Hv.
    - apply elem_of_violations_employe in Hv as [_ Hlt].
      pose proof (jours_travailles_dans_max _ _ _ _ _ _ _ Hcs Hsol Hp Hx Hemp).
      destruct (Hjours emp Hemp) as [Hjs Hja].
      pose proof (jours_travail_max_semaine_le emp Hjs Hja). lia. }
  destruct (_verifier_violations self planning) as [| v l]; [done |].
  exfalso. apply (Hnone v). by left.
Qed.

Lemma solution_minimale_conforme_witness :
  NoDup (Employee.prenom <$> employees equipe_complete)
  ∧ ∃ prob (planning : Planning),
      probleme equipe_complete previsions_20 previsions_20 = Some prob
      ∧ solution valeurs_completes (constraints prob) = true
      ∧ minimale valeurs_completes prob = true
      ∧ _extraire_planning equipe_complete (variables_decision equipe_complete)
          valeurs_completes = Some planning
      ∧ _verifier_violations equipe_complete planning = [].
Proof.
  assert (NoDup (Employee.prenom <$> employees equipe_complete)) as Hnd.
  { apply (bool_decide_unpack _). vm_compute. exact I. }
  split; [exact Hnd |].
  destruct (probleme_Some equipe_complete previsions_20 previsions_20)
    as (prob0 & Hprob0 & _).
  assert (solution valeurs_completes (constraints prob0) = true
          ∧ minimale valeurs_completes prob0 = true) as [Hsol Hmin].
  { destruct prob0 as [obj cs]. vm_compute in Hprob0. injection Hprob0 as <- <-.
    split; vm_compute; reflexivity. }
  destruct (solution_minimale_conforme equipe_complete previsions_20 previsions_20 Hnd)
    as (prob & Hprob & H).
  rewrite Hprob0 in Hprob. injection Hprob as <-.
  destruct (H valeurs_completes Hsol Hmin) as (planning & Hp & _ & _ & Hv).
  exists prob0, planning.
  split; [exact Hprob0 |].
  split; [exact Hsol |].
  split; [exact Hmin |].
  split; [exact Hp |].
  apply Hv.
  - vm_compute. discriminate.
  - vm_compute. discriminate.
  - vm_compute. discriminate.
  - repeat constructor; vm_compute; discriminate.
Defined.

(* ------------------------------------------------------------------ *)
(** ** The windows of consecutive days *)

(** X27. The constraint "maximum 5 jours consécutifs" never binds for an
    employee whose contract has at most 5 days: for an available
    employee with [jours_semaine <= 5] and no negative absence (the four
    contract types of [__post_init__] among them), the weekly constraint
    of line 267 and the two window constraints of line 275 are in the
    problem, and every assignment of values that satisfies the weekly
    constraint satisfies both window constraints. *)
Theorem consecutifs_redondants self checkins checkouts emp :
  emp ∈ employees self → Employee.disponible emp = true →
  Employee.jours_semaine emp ≤ 5 → 0 ≤ Employee.jours_absence emp →
  ∃ prob t,
    probleme self checkins checkouts = Some prob
    ∧ variables_decision self !! Employee.prenom emp = Some t
    ∧ let semaine :=
        contrainte (jour ← jours_semaine; [t jour Matin; t jour Apres_midi; t jour Nuit])
                   LE (Employee.jours_travail_max_semaine emp) in
      semaine ∈ constraints prob
      ∧ ∀ jours_seq, jours_seq ∈ fenetres →
          let fenetre :=
            contrainte (jour ← jours_seq; [t jour Matin; t jour Apres_midi; t jour Nuit])
                       LE 5 in
          fenetre ∈ constraints prob
          ∧ ∀ varValue, satisfait varValue semaine = true →
                        satisfait varValue fenetre = true.
Proof.
  intros Hemp Hd Hjs Hja.
  destruct (probleme_Some self checkins checkouts) as (prob & Hprob & Hcs).
  destruct (variables_decision_couvre self emp Hemp) as [t Ht].
  exists prob, t. split_and!; [done | done |]. cbn zeta. split.
  - by eapply contrainte_semaine.
  - intros jours_seq Hw. split.
    + eapply contrainte_consecutifs; try done. by apply lpSum_jours_eq.
    + intros varValue Hsat.
      assert (Employee.jours_travail_max_semaine emp ≤ 5) as Hcap.
      { unfold Employee.jours_travail_max_semaine. rewrite Hd. simpl.
        destruct (7 <=? Employee.jours_absence emp); lia. }
      unfold satisfait, contrainte in *. cbn [expr sens rhs] in *.
      apply Z.leb_le in Hsat. apply Z.leb_le.
      pose proof (valeur_bornes varValue (t Lundi Matin)).
      pose proof (valeur_bornes varValue (t Lundi Apres_midi)).
      pose proof (valeur_bornes varValue (t Lundi Nuit)).
      pose proof (valeur_bornes varValue (t Dimanche Matin)).
      pose proof (valeur_bornes varValue (t Dimanche Apres_midi)).
      pose proof (valeur_bornes varValue (t Dimanche Nuit)).
      apply elem_of_fenetres in Hw as [-> | ->]; simpl in *; lia.
Qed.

Lemma consecutifs_redondants_witness :
  ∃ prob t,
    probleme equipe_complete previsions_20 previsions_20 = Some prob
    ∧ variables_decision equipe_complete !! Employee.prenom (night_ex "1") = Some t
    ∧ let semaine :=
        contrainte (jour ← jours_semaine; [t jour Matin; t jour Apres_midi; t jour Nuit])
                   LE (Employee.jours_travail_max_semaine (night_ex "1")) in
      semaine ∈ constraints prob
      ∧ ∀ jours_seq, jours_seq ∈ fenetres →
          let fenetre :=
            contrainte (jour ← jours_seq; [t jour Matin; t jour Apres_midi; t jour Nuit])
                       LE 5 in
          fenetre ∈ constraints prob
          ∧ ∀ varValue, satisfait varValue semaine = true →
                        satisfait varValue fenetre = true.
Proof.
  apply (consecutifs_redondants equipe_complete previsions_20 previsions_20 (night_ex "1")).
  - unfold equipe_complete. cbn [employees]. do 3 right. left.
  - reflexivity.
  - vm_compute. discriminate.
  - vm_compute. discriminate.
Defined.

(* ------------------------------------------------------------------ *)
(** ** What the validator and the analyzer read in the schedule *)

Lemma len_filter_role (r : string) (l : list Affectation) :
  len (filter (λ a, a_role a = r) l) = len (filter (λ p : string * string, p.2 = r) (lu <$> l)).
Proof.
  induction l as [| a l IH]; [done |].
  rewrite fmap_cons, !filter_cons. cbn [lu snd]. unfold len in *.
  destruct (decide (a_role a = r)); rewrite ?length_cons; lia.
Qed.

Lemma len_filter_role_perm (r : string) (l l' : list Affectation) :
  lu <$> l ≡ₚ lu <$> l' →
  len (filter (λ a, a_role a = r) l) = len (filter (λ a, a_role a = r) l').
Proof. intros H. rewrite !len_filter_role. unfold len. by rewrite H. Qed.

Lemma len_perm (l l' : list Affectation) : lu <$> l ≡ₚ lu <$> l' → len l = len l'.
Proof.
  intros H. unfold len. rewrite <- (length_fmap lu l), <- (length_fmap lu l'). by rewrite H.
Qed.

Lemma existsb_prenom_perm (p : string) (l l' : list Affectation) :
  lu <$> l ≡ₚ lu <$> l' →
  existsb (λ e, bool_decide (a_prenom e = p)) l
  = existsb (λ e, bool_decide (a_prenom e = p)) l'.
Proof.
  intros H.
  assert (∀ l : list Affectation,
            existsb (λ e, bool_decide (a_prenom e = p)) l = true
            ↔ ∃ q, q ∈ lu <$> l ∧ q.1 = p) as Hex.
  { intros k. rewrite existsb_exists. split.
    - intros (a & Ha & Hp). exists (lu a). split.
      + apply list_elem_of_fmap_2. by apply list_elem_of_In.
      + by apply bool_decide_eq_true in Hp.
    - intros (q & (a & -> & Ha)%list_elem_of_fmap & Hp). exists a. split.
      + by apply list_elem_of_In.
      + by apply bool_decide_eq_true. }
  apply eq_true_iff_eq. rewrite !Hex. by setoid_rewrite H.
Qed.

Lemma bind_ext_in {A B} (f g : A → list B) (l : list A) :
  (∀ a, f a = g a) → l ≫= f = l ≫= g.
Proof. intros H. induction l as [| a l IH]; [done |]. by rewrite !bind_cons, H, IH. Qed.

(** X28. The validator and the hours loop of the analyzer read only the
    first names and the roles of a team, not their order, the last names
    or the contract types: two schedules whose teams hold the same
    (first name, role) pairs slot by slot get the same violations, the
    same entry for every employee and the same role counts. *)
Theorem planning_lu self (planning planning' : Planning) :
  (∀ jour shift, lu <$> planning jour shift ≡ₚ lu <$> planning' jour shift) →
  _verifier_violations self planning = _verifier_violations self planning'
  ∧ (∀ emp, heures_de planning emp = heures_de planning' emp)
  ∧ ∀ jour shift,
      let c := couverture_de (planning jour shift) in
      let c' := couverture_de (planning' jour shift) in
      c_total c = c_total c' ∧ c_receptionnistes c = c_receptionnistes c'
      ∧ c_superviseurs c = c_superviseurs c' ∧ c_concierge c = c_concierge c'.
Proof.
  intros H.
  assert (∀ emp jour shift,
            present planning emp jour shift = present planning' emp jour shift) as Hpres.
  { intros emp jour shift. unfold present. by apply existsb_prenom_perm. }
  assert (∀ emp jour,
            travaille_ce_jour planning emp jour = travaille_ce_jour planning' emp jour)
    as Htrav.
  { intros emp jour. unfold travaille_ce_jour, shifts. simpl. by rewrite !Hpres. }
  assert (∀ emp js, jours_travailles_dans planning emp js
                    = jours_travailles_dans planning' emp js) as Hjours.
  { intros emp js. unfold jours_travailles_dans. f_equal.
    apply list_filter_iff. intros jour. by rewrite Htrav. }
  assert (∀ emp js, shifts_travailles_dans planning emp js
                    = shifts_travailles_dans planning' emp js) as Hshifts.
  { intros emp js. unfold shifts_travailles_dans.
    apply bind_ext_in. intros jour. apply bind_ext_in. intros shift. by rewrite Hpres. }
  split_and!.
  - unfold _verifier_violations. f_equal.
    + apply bind_ext_in. intros jour. f_equal.
      * apply bind_ext_in. intros shift. unfold violations_shift_jour. cbv zeta.
        rewrite !(len_filter_role_perm _ _ _ (H jour shift)).
        by rewrite (len_perm _ _ (H jour shift)).
      * unfold violations_nuit. cbv zeta.
        by rewrite !(len_filter_role_perm _ _ _ (H jour Nuit)).
    + apply bind_ext_in. intros emp. unfold violations_employe. cbv zeta.
      by rewrite !jours_travailles_de_eq, Hjours.
  - intros emp. unfold heures_de. rewrite !compter_jours_eq.
    by rewrite Hjours, Hshifts.
  - intros jour shift. cbn zeta. unfold couverture_de.
    cbn [c_total c_receptionnistes c_superviseurs c_concierge].
    rewrite !(len_filter_role_perm _ _ _ (H jour shift)).
    by rewrite (len_perm _ _ (H jour shift)).
Qed.

Lemma planning_lu_witness :
  _verifier_violations equipe_temps_partiel planning_deux_jours
  = _verifier_violations equipe_temps_partiel planning_deux_jours_bis.
Proof.
  apply (planning_lu equipe_temps_partiel planning_deux_jours planning_deux_jours_bis).
  intros jour shift. destruct jour, shift; vm_compute; apply Permutation_swap || reflexivity.
Defined.

(* ================================================================== *)
(** * Night shifts *)
(* ================================================================== *)

(** The variables summed by [lpSum([x[e.prenom][jour][shift] for e in l])]
    are, employee by employee, those the table holds under the first
    name for that slot. *)
Lemma lpSum_employes_Forall2 (x : table) l jour shift vs :
  lpSum_employes x l jour shift = Some vs →
  Forall2 (λ emp v, ∃ t, x !! Employee.prenom emp = Some t ∧ v = t jour shift) l vs.
Proof.
  unfold lpSum_employes. intros H. apply mapM_Some in H.
  eapply Forall2_impl; [exact H |]. intros emp v Hl. simpl in Hl. unfold lire in Hl.
  apply bind_Some in Hl as (t & Ht & Hv). injection Hv as <-. by exists t.
Qed.

(** C5. For every day the night requirement computed by
    [calculer_besoins_personnel] is min(2, number of available
    night-contract receptionists). The constraints handed to the solver
    set to 0 the night variable of every employee who is not an available
    night-contract receptionist and, when the requirement is positive,
    make the night variables of the available night receptionists (one
    variable per receptionist, the one the table holds under their first
    name for that night) sum to the requirement exactly; so do the values
    of every solution, and the night team of the schedule extracted from
    a solution consists of exactly that many night-contract
    receptionists. *)
Theorem contraintes_nuit_spec self checkins checkouts :
  ∃ prob,
    probleme self checkins checkouts = Some prob
    ∧ ∀ jour,
        receptionists (nuit (calculer_besoins_personnel self checkins checkouts jour))
        = Z.min 2 (len (receptionnistes_nuit_disponibles self))
        ∧ (∀ emp, emp ∈ employees self → ¬ receptionniste_nuit_dispo emp →
             ∃ v, lire (variables_decision self) emp jour Nuit = Some v
                  ∧ contrainte [v] EQ 0 ∈ constraints prob
                  ∧ ∀ varValue, solution varValue (constraints prob) = true →
                                varValue v = false)
        ∧ (0 < receptionists (nuit (calculer_besoins_personnel self checkins checkouts jour)) →
             ∃ vs, lpSum_employes (variables_decision self)
                     (receptionnistes_nuit_disponibles self) jour Nuit = Some vs
                   ∧ Forall2 (λ emp v, ∃ t, variables_decision self !! Employee.prenom emp
                                            = Some t
                                            ∧ v = t jour Nuit)
                       (receptionnistes_nuit_disponibles self) vs
                   ∧ contrainte vs EQ
                       (receptionists (nuit (calculer_besoins_personnel self checkins checkouts jour)))
                     ∈ constraints prob
                   ∧ ∀ varValue, solution varValue (constraints prob) = true →
                                 somme varValue vs
                                 = receptionists (nuit (calculer_besoins_personnel self checkins checkouts jour)))
        ∧ (∀ varValue, solution varValue (constraints prob) = true →
             ∃ planning : Planning,
               _extraire_planning self (variables_decision self) varValue = Some planning
               ∧ (∀ a, a ∈ planning jour Nuit →
                       a_role a = "receptionniste" ∧ a_type_contrat a = "nuit")
               ∧ len (planning jour Nuit)
                 = receptionists (nuit (calculer_besoins_personnel self checkins checkouts jour))).
Proof.
  destruct (probleme_Some self checkins checkouts) as (prob & Hprob & Hcs).
  exists prob. split; [done |]. intros jour.
  pose proof (variables_decision_couvre self) as Hx.
  split_and!.
  - apply besoin_nuit.
  - intros emp Hemp Hn.
    destruct (lire_Some _ emp jour Nuit (Hx emp Hemp)) as (t & _ & Hv).
    exists (t jour Nuit). split; [done |].
    assert (contrainte [t jour Nuit] EQ 0 ∈ constraints prob) as Hc.
    { destruct (Employee.disponible emp) eqn:Hd.
      - eapply contrainte_autres_nuit; try done.
        intros [? ?]. by apply Hn.
      - by eapply contrainte_indisponible. }
    split; [done |]. intros varValue Hsol.
    by eapply variable_nulle_satisfaite, solution_elem.
  - intros Hpos.
    destruct (lpSum_employes_Some (variables_decision self)
                (receptionnistes_nuit_disponibles self) jour Nuit) as [vs Hvs].
    { apply couvre_filter, Hx. }
    exists vs. split; [done |]. split; [by apply lpSum_employes_Forall2 |].
    pose proof (contrainte_requis_nuit self _ _ _ jour vs Hcs) as Hc.
    rewrite besoin_nuit in Hc, Hpos |- *.
    rewrite Z.min_l in Hc by lia.
    specialize (Hc Hpos Hvs). split; [done |].
    intros varValue Hsol. pose proof (solution_elem _ _ _ Hsol Hc) as Hs.
    unfold satisfait in Hs. simpl in Hs. by apply Z.eqb_eq in Hs.
  - intros varValue Hsol.
    destruct (_extraire_planning_Some self _ varValue Hx) as [planning Hp].
    exists planning. split_and!; [done | |].
    + intros a Ha. by eapply equipe_nuit_receptionnistes.
    + rewrite besoin_nuit. by eapply equipe_nuit_len.
Qed.

(* ================================================================== *)
(** * Contract compliance *)
(* ================================================================== *)

(** The records of [_verifier_violations] about contracts come from the
    employee loop. *)
Lemma elem_of_violations_contrat self (planning : Planning) prenom nom m c :
  V_contrat prenom nom m c ∈ _verifier_violations self planning
  ↔ ∃ emp, emp ∈ employees self
           ∧ prenom = Employee.prenom emp ∧ nom = Employee.nom emp
           ∧ m = jours_travailles_dans planning emp jours_semaine
           ∧ c = Employee.jours_semaine emp
           ∧ c < m.
Proof.
  rewrite elem_of_verifier_violations. split.
  - intros [(jour & shift & _ & Hv) | [(jour & Hv) | (emp & Hemp & Hv)]].
    + apply elem_of_violations_shift_jour in Hv.
      destruct Hv as [[? _] | [[? _] | [[? _] | [[? _] | [[? _] | [? _]]]]]]; discriminate.
    + apply elem_of_violations_nuit in Hv.
      destruct Hv as [[? _] | [[? _] | [? _]]]; discriminate.
    + apply elem_of_violations_employe in Hv as [Heq Hlt].
      injection Heq as -> -> -> ->. by exists emp.
  - intros (emp & Hemp & -> & -> & -> & -> & Hlt). right; right.
    exists emp. split; [done |]. by apply elem_of_violations_employe.
Qed.

(** C1, as amended. The validator compares the days worked with the
    contractual [jours_semaine], not with [jours_travail_max_semaine]. An
    employee of the roster on a [mi_temps_3j] contract with
    [jours_absence = 2] has [jours_travail_max_semaine = 1] and
    [jours_semaine = 3]. [_verifier_violations] emits their contract
    record, with [n] the number of days on which their first name
    appears and 3 as the maximum, exactly when [n] is 4 or more; with 3
    days or fewer no such record exists. [analyser_planning] files its
    entries under ["prenom nom"], a later employee with the same key
    overwriting an earlier one: when no other employee of the roster has
    the same key, the entry of the employee shows [n] worked days against
    3, [respect_contrat] is false exactly when [n] is 4 or more, and the
    only contract record under their names is the one above. *)
Theorem contrat_mi_temps_3j_spec self (planning : Planning) emp :
  emp ∈ employees self → construit emp →
  Employee.type_contrat emp = "mi_temps_3j" →
  Employee.jours_absence emp = 2 →
  Employee.disponible emp = true →
  Employee.jours_travail_max_semaine emp = 1
  ∧ Employee.jours_semaine emp = 3
  ∧ (∀ m, V_contrat (Employee.prenom emp) (Employee.nom emp) m 3
          ∈ _verifier_violations self planning
          ↔ m = jours_travailles_dans planning emp jours_semaine ∧ 4 ≤ m)
  ∧ (cle_unique self emp →
     (∃ r, heures_par_employe (analyser_planning self planning) !! nom_complet emp = Some r
           ∧ jours_travailles r = jours_travailles_dans planning emp jours_semaine
           ∧ jours_contractuels r = 3
           ∧ (respect_contrat r = false
              ↔ 4 ≤ jours_travailles_dans planning emp jours_semaine))
     ∧ ∀ v, v ∈ violations_contrat_de emp
                  (violations_contraintes (analyser_planning self planning))
            ↔ v = V_contrat (Employee.prenom emp) (Employee.nom emp)
                    (jours_travailles_dans planning emp jours_semaine) 3
              ∧ 4 ≤ jours_travailles_dans planning emp jours_semaine).
Proof.
  intros Hemp Hc Ht Ha Hd.
  pose proof (construit_mi_temps_3j emp Hc Ht) as Hjs.
  split_and!.
  - unfold Employee.jours_travail_max_semaine. rewrite Hd, Ha, Hjs. reflexivity.
  - done.
  - intros m. rewrite elem_of_violations_contrat. split.
    + intros (emp' & _ & Hp & _ & -> & _ & Hlt).
      split; [| lia]. symmetry. by apply jours_travailles_dans_prenom.
    + intros [-> Hm]. exists emp. split_and!; try done. lia.
  - intros Hu. split.
    + exists (heures_de planning emp).
      split; [by apply heures_par_employe_cle_unique |].
      split; [apply jours_travailles_heures_de |].
      split.
      * unfold heures_de. by destruct (compter_jours _ _ _ _) as [[? ?] ?].
      * rewrite respect_contrat_heures_de, Hjs, Z.leb_gt. lia.
    + intros v. unfold violations_contrat_de. rewrite list_elem_of_filter.
      change (violations_contraintes (analyser_planning self planning))
        with (_verifier_violations self planning).
      split.
      * intros [Hde Hv]. destruct v; try done. destruct Hde as [-> ->].
        apply elem_of_violations_contrat in Hv
          as (emp' & Hemp' & Hp & Hn & -> & -> & Hlt).
        assert (emp' = emp) as ->.
        { apply Hu; [done |]. unfold nom_complet. by rewrite <- Hp, <- Hn. }
        rewrite Hjs in *. split; [done | lia].
      * intros [-> Hn]. split; [done |].
        apply elem_of_violations_contrat. exists emp. split_and!; try done. lia.
Qed.

Lemma contrat_mi_temps_3j_spec_witness :
  Employee.jours_travail_max_semaine recep_pt2 = 1.
Proof.
  refine (proj1 (contrat_mi_temps_3j_spec equipe_temps_partiel planning_deux_jours
                   recep_pt2 _ _ _ _ _)); try reflexivity.
  apply (bool_decide_unpack _). vm_compute. exact I.
Defined.

(** The claim of C1 fails on [equipe_temps_partiel]: the part-time
    receptionist may work one day, the schedule gives them two, and
    neither the analysis nor the list of violations flags them. *)
Lemma contrat_mi_temps_3j_counterexample :
  recep_pt2 ∈ employees equipe_temps_partiel
  ∧ Employee.type_contrat recep_pt2 = "mi_temps_3j"
  ∧ Employee.jours_absence recep_pt2 = 2
  ∧ Employee.jours_travail_max_semaine recep_pt2 = 1
  ∧ jours_travailles_dans planning_deux_jours recep_pt2 jours_semaine = 2
  ∧ (∃ r, heures_par_employe (analyser_planning equipe_temps_partiel planning_deux_jours)
            !! "RecepPT2 Partiel3j" = Some r
          ∧ jours_travailles r = 2 ∧ respect_contrat r = true)
  ∧ violations_contrat_de recep_pt2
      (violations_contraintes (analyser_planning equipe_temps_partiel planning_deux_jours))
    = [].
Proof.
  split_and!; try (vm_compute; reflexivity).
  - apply (bool_decide_unpack _). vm_compute. exact I.
  - eexists. split; [vm_compute; reflexivity |]. split; reflexivity.
Qed.

(* ================================================================== *)
(** * Employees with the same first name *)
(* ================================================================== *)

(** [any(e['prenom'] == emp.prenom for e in planning[jour][shift])] *)
Lemma present_true (planning : Planning) emp jour shift :
  present planning emp jour shift = true
  ↔ ∃ a, a ∈ planning jour shift ∧ a_prenom a = Employee.prenom emp.
Proof.
  unfold present. rewrite existsb_exists. split.
  - intros (a & Ha & Hp). exists a. split; [by apply list_elem_of_In |].
    by apply bool_decide_eq_true in Hp.
  - intros (a & Ha & Hp). exists a. split; [by apply list_elem_of_In |].
    by apply bool_decide_eq_true.
Qed.

(** C9, as amended. Employees are identified by first name alone. The
    decision table is keyed by [prenom]: of two employees of the roster
    with the same first name, both read the variables allocated for the
    last such employee, never those of the earlier one. The analyzer and
    the validator count an employee present in a team whenever somebody
    of the team bears their first name. Hence the contract records the
    validator emits under the names of the two carry the same number of
    worked days, and when their [jours_semaine] are equal the record of
    the one is emitted exactly when the record of the other is.
    [analyser_planning] files its entries under ["prenom nom"], a later
    employee with the same key overwriting an earlier one: when no other
    employee of the roster has the key of either of the two, their
    entries show the same hours, worked days and shifts, and the same
    [respect_contrat] when their [jours_semaine] are equal. *)
Theorem meme_prenom_spec self (planning : Planning) i j e1 e2 :
  employees self !! i = Some e1 → employees self !! j = Some e2 →
  (i < j)%nat → Employee.prenom e1 = Employee.prenom e2 →
  (∃ t, variables_decision self !! Employee.prenom e1 = Some t
        ∧ ∀ jour shift,
            lire (variables_decision self) e1 jour shift = Some (t jour shift)
            ∧ lire (variables_decision self) e2 jour shift = Some (t jour shift)
            ∧ (j ≤ var_emp (t jour shift))%nat)
  ∧ (∀ jour shift,
       (present planning e1 jour shift = true
        ↔ ∃ a, a ∈ planning jour shift ∧ a_prenom a = Employee.prenom e1)
       ∧ present planning e1 jour shift = present planning e2 jour shift)
  ∧ (∀ m1 c1 m2 c2,
       V_contrat (Employee.prenom e1) (Employee.nom e1) m1 c1
         ∈ _verifier_violations self planning →
       V_contrat (Employee.prenom e2) (Employee.nom e2) m2 c2
         ∈ _verifier_violations self planning →
       m1 = m2)
  ∧ (Employee.jours_semaine e1 = Employee.jours_semaine e2 →
     ∀ m, V_contrat (Employee.prenom e1) (Employee.nom e1) m (Employee.jours_semaine e1)
            ∈ _verifier_violations self planning
          ↔ V_contrat (Employee.prenom e2) (Employee.nom e2) m (Employee.jours_semaine e2)
              ∈ _verifier_violations self planning)
  ∧ (cle_unique self e1 → cle_unique self e2 →
     ∃ r1 r2,
       heures_par_employe (analyser_planning self planning) !! nom_complet e1 = Some r1
       ∧ heures_par_employe (analyser_planning self planning) !! nom_complet e2 = Some r2
       ∧ heures r1 = heures r2
       ∧ jours_travailles r1 = jours_travailles r2
       ∧ h_shifts r1 = h_shifts r2
       ∧ (Employee.jours_semaine e1 = Employee.jours_semaine e2 →
          respect_contrat r1 = respect_contrat r2)).
Proof.
  intros Hi Hj Hij Hp.
  assert (heures (heures_de planning e1) = heures (heures_de planning e2)
          ∧ jours_travailles (heures_de planning e1) = jours_travailles (heures_de planning e2)
          ∧ h_shifts (heures_de planning e1) = h_shifts (heures_de planning e2)
          ∧ (Employee.jours_semaine e1 = Employee.jours_semaine e2 →
             respect_contrat (heures_de planning e1) = respect_contrat (heures_de planning e2)))
    as (Hh & Hjt & Hs & Hr).
  { unfold heures_de. rewrite (compter_jours_prenom planning e1 e2 _ _ Hp).
    destruct (compter_jours planning e2 jours_semaine (0, 0, [])) as [[h jt] st].
    simpl. split_and!; try done. by intros ->. }
  assert (e1 ∈ employees self) as He1 by (apply list_elem_of_lookup; by exists i).
  assert (e2 ∈ employees self) as He2 by (apply list_elem_of_lookup; by exists j).
  pose proof (jours_travailles_dans_prenom planning e1 e2 jours_semaine Hp) as Hn.
  split_and!.
  - destruct (variables_decision_couvre self e1 He1) as [t Ht].
    exists t. split; [done |]. intros jour shift.
    unfold lire. rewrite <- Hp, Ht. simpl. split_and!; try done.
    apply variables_decision_lookup in Ht as (k & emp & Hk & Hpk & -> & Hlast).
    simpl. apply (Hlast j e2 Hj). by symmetry.
  - intros jour shift. split; [apply present_true | by apply present_prenom].
  - intros m1 c1 m2 c2.
    intros (d1 & _ & Hp1 & _ & -> & _)%elem_of_violations_contrat.
    intros (d2 & _ & Hp2 & _ & -> & _)%elem_of_violations_contrat.
    apply jours_travailles_dans_prenom. congruence.
  - intros Hjs m. rewrite !elem_of_violations_contrat. split.
    + intros (d1 & _ & Hp1 & _ & -> & Hc & Hlt). exists e2.
      rewrite <- (jours_travailles_dans_prenom planning e1 e2 _ Hp).
      rewrite (jours_travailles_dans_prenom planning e1 d1 _ Hp1).
      split_and!; try done. lia.
    + intros (d2 & _ & Hp2 & _ & -> & Hc & Hlt). exists e1.
      rewrite (jours_travailles_dans_prenom planning e1 e2 _ Hp).
      rewrite (jours_travailles_dans_prenom planning e2 d2 _ Hp2).
      split_and!; try done. lia.
  - intros Hu1 Hu2. exists (heures_de planning e1), (heures_de planning e2).
    split_and!; try done; by apply heures_par_employe_cle_unique.
Qed.

Lemma meme_prenom_spec_witness :
  ∃ r1 r2,
    heures_par_employe (analyser_planning equipe_homonymes planning_alex)
      !! nom_complet alex_martin = Some r1
    ∧ heures_par_employe (analyser_planning equipe_homonymes planning_alex)
        !! nom_complet alex_durand = Some r2
    ∧ heures r1 = heures r2
    ∧ jours_travailles r1 = jours_travailles r2
    ∧ h_shifts r1 = h_shifts r2.
Proof.
  destruct (meme_prenom_spec equipe_homonymes planning_alex 0 1 alex_martin alex_durand)
    as (_ & _ & _ & _ & H); [reflexivity | reflexivity | lia | reflexivity |].
  destruct H as (r1 & r2 & H1 & H2 & Hh & Hj & Hs & _).
  - intros emp Hemp Hkey. unfold equipe_homonymes in Hemp. cbn [employees] in Hemp.
    apply elem_of_cons in Hemp as [-> | Hemp]; [done |].
    apply list_elem_of_singleton in Hemp as ->. vm_compute in Hkey. discriminate.
  - intros emp Hemp Hkey. unfold equipe_homonymes in Hemp. cbn [employees] in Hemp.
    apply elem_of_cons in Hemp as [-> | Hemp]; [vm_compute in Hkey; discriminate |].
    by apply list_elem_of_singleton in Hemp as ->.
  - by exists r1, r2.
Defined.

(** The claim of C9 fails on [equipe_homonymes]: the two employees named
    Alex get the same four worked days, within the contract of the one
    and beyond the contract of the other. *)
Lemma meme_prenom_counterexample :
  employees equipe_homonymes !! 0%nat = Some alex_martin
  ∧ employees equipe_homonymes !! 1%nat = Some alex_durand
  ∧ Employee.prenom alex_martin = Employee.prenom alex_durand
  ∧ ∃ r1 r2,
      heures_par_employe (analyser_planning equipe_homonymes planning_alex)
        !! nom_complet alex_martin = Some r1
      ∧ heures_par_employe (analyser_planning equipe_homonymes planning_alex)
          !! nom_complet alex_durand = Some r2
      ∧ jours_travailles r1 = 4 ∧ jours_travailles r2 = 4
      ∧ respect_contrat r1 = true ∧ respect_contrat r2 = false.
Proof.
  split_and!; try reflexivity.
  eexists _, _. split_and!; [vm_compute; reflexivity | vm_compute; reflexivity | ..];
    reflexivity.
Qed.

(* ================================================================== *)
(** * The entries of the analysis *)
(* ================================================================== *)

Lemma NoDup_cle_unique self emp :
  NoDup (nom_complet <$> employees self) → emp ∈ employees self → cle_unique self emp.
Proof.
  intros Hnd Hemp emp' Hemp' Hkey.
  apply list_elem_of_lookup in Hemp as [i Hi].
  apply list_elem_of_lookup in Hemp' as [i' Hi'].
  assert (i' = i); [| congruence].
  eapply (NoDup_lookup _ i' i (nom_complet emp) Hnd).
  - rewrite list_lookup_fmap, Hi'. simpl. by rewrite Hkey.
  - by rewrite list_lookup_fmap, Hi.
Qed.

(** Every entry of ['heures_par_employe'] is the record computed for an
    employee of the roster filed under that key, and every employee of
    the roster finds an entry under their key. *)
Lemma heures_par_employe_entree self (planning : Planning) key r :
  heures_par_employe (analyser_planning self planning) !! key = Some r →
  ∃ emp, emp ∈ employees self ∧ nom_complet emp = key ∧ r = heures_de planning emp.
Proof.
  intros (i & emp & Hi & Hkey & -> & _)%heures_par_employe_lookup.
  exists emp. split_and!; try done. apply list_elem_of_lookup. by exists i.
Qed.

Lemma derniere_cle (l : list Employee.t) (key : string) :
  Exists (λ e, nom_complet e = key) l →
  ∃ i emp, l !! i = Some emp ∧ nom_complet emp = key
           ∧ ∀ k emp', l !! k = Some emp' → nom_complet emp' = key → (k ≤ i)%nat.
Proof.
  induction l as [| e l IH]; intros Hex; [by apply Exists_nil in Hex |].
  destruct (decide (Exists (λ e, nom_complet e = key) l)) as [Hl | Hl].
  - destruct (IH Hl) as (i & emp & Hi & Hk & Hmax).
    exists (S i), emp. split_and!; try done.
    intros [| k] emp' Hk' Hkey'; [lia |]. simpl in Hk'.
    specialize (Hmax k emp' Hk' Hkey'). lia.
  - apply Exists_cons in Hex as [He | ?]; [| done].
    exists 0%nat, e. split_and!; try done.
    intros [| k] emp' Hk' Hkey'; [lia |]. simpl in Hk'.
    exfalso. apply Hl. apply Exists_exists. exists emp'. split; [| done].
    apply list_elem_of_lookup. by exists k.
Qed.

Lemma heures_par_employe_present self (planning : Planning) emp :
  emp ∈ employees self →
  is_Some (heures_par_employe (analyser_planning self planning) !! nom_complet emp).
Proof.
  intros Hemp.
  destruct (derniere_cle (employees self) (nom_complet emp)) as (i & emp0 & Hi & Hk & Hmax).
  { apply Exists_exists. by exists emp. }
  exists (heures_de planning emp0). apply heures_par_employe_lookup. by exists i, emp0.
Qed.

(** X20. When no two employees of the roster share the same
    ["prenom nom"], the validator and the analyzer agree on contracts:
    every employee has an entry in ['heures_par_employe'], its
    [respect_contrat] is false exactly when [_verifier_violations] holds
    the contract record of that employee with the worked and contractual
    days of the entry, and the contract records are, in roster order,
    those of the employees whose entry has [respect_contrat] false. *)
Theorem contrat_validateur_analyseur self (planning : Planning) :
  NoDup (nom_complet <$> employees self) →
  (∀ emp, emp ∈ employees self →
     ∃ r, heures_par_employe (analyser_planning self planning) !! nom_complet emp = Some r
          ∧ (respect_contrat r = false
             ↔ V_contrat (Employee.prenom emp) (Employee.nom emp)
                 (jours_travailles r) (jours_contractuels r)
               ∈ violations_contraintes (analyser_planning self planning)))
  ∧ filter est_violation_contrat (violations_contraintes (analyser_planning self planning))
    = omap (λ emp,
              r ← heures_par_employe (analyser_planning self planning) !! nom_complet emp;
              if respect_contrat r then None
              else Some (V_contrat (Employee.prenom emp) (Employee.nom emp)
                           (jours_travailles r) (jours_contractuels r)))
        (employees self).
Proof.
  intros Hnd.
  assert (∀ emp, emp ∈ employees self →
            heures_par_employe (analyser_planning self planning) !! nom_complet emp
            = Some (heures_de planning emp)) as Hentree.
  { intros emp Hemp. apply heures_par_employe_cle_unique; [done |].
    by apply NoDup_cle_unique. }
  assert (∀ emp, jours_contractuels (heures_de planning emp) = Employee.jours_semaine emp)
    as Hjc.
  { intros emp. unfold heures_de. by destruct (compter_jours _ _ _ _) as [[? ?] ?]. }
  change (violations_contraintes (analyser_planning self planning))
    with (_verifier_violations self planning).
  split.
  - intros emp Hemp. exists (heures_de planning emp). split; [by apply Hentree |].
    rewrite respect_contrat_heures_de, Z.leb_gt, elem_of_violations_contrat.
    rewrite jours_travailles_heures_de, Hjc. split.
    + intros Hlt. by exists emp.
    + intros (emp' & Hemp' & Hp & Hn & _ & _ & Hlt).
      assert (emp' = emp) as ->; [| done].
      apply (NoDup_cle_unique _ _ Hnd Hemp); [done |].
      unfold nom_complet. by rewrite <- Hp, <- Hn.
  - rewrite contrats_heures_de.
    generalize (employees self) Hentree. intros l Hl.
    induction l as [| emp l IH]; [done |].
    rewrite filter_cons. cbn [omap list_omap]. rewrite (Hl emp) by (by left).
    cbn [mbind option_bind].
    rewrite <- IH by (intros e He; apply Hl; by right).
    destruct (respect_contrat (heures_de planning emp)).
    + by rewrite decide_False by done.
    + by rewrite decide_True by done.
Qed.

Lemma contrat_validateur_analyseur_witness :
  ∃ r, heures_par_employe (analyser_planning equipe_homonymes planning_alex)
         !! nom_complet alex_durand = Some r
       ∧ (respect_contrat r = false
          ↔ V_contrat (Employee.prenom alex_durand) (Employee.nom alex_durand)
              (jours_travailles r) (jours_contractuels r)
            ∈ violations_contraintes (analyser_planning equipe_homonymes planning_alex)).
Proof.
  apply (contrat_validateur_analyseur equipe_homonymes planning_alex).
  - apply (bool_decide_unpack _). vm_compute. exact I.
  - unfold equipe_homonymes. cbn [employees]. right. left.
Defined.

(** X22. On every schedule, every employee of the roster finds an entry
    under their ["prenom nom"] in ['heures_par_employe'], and every
    entry is the record of an employee of the roster bearing that key
    (the employee's own when nobody else has the key): ['shifts'] lists,
    in week order, the slots in which that employee's first name
    appears, ['heures'] is 8 times their number and ['jours_travailles']
    is the number of days with such a slot: between 0 and 7, with hours
    between 8 and 24 per worked day and never above 168. *)
Theorem heures_par_employe_spec self (planning : Planning) :
  (∀ emp, emp ∈ employees self →
     is_Some (heures_par_employe (analyser_planning self planning) !! nom_complet emp))
  ∧ (∀ emp, emp ∈ employees self → cle_unique self emp →
       ∃ r, heures_par_employe (analyser_planning self planning) !! nom_complet emp = Some r
            ∧ h_shifts r = shifts_travailles_dans planning emp jours_semaine
            ∧ jours_travailles r = jours_travailles_dans planning emp jours_semaine)
  ∧ ∀ key r,
      heures_par_employe (analyser_planning self planning) !! key = Some r →
      (∃ emp, emp ∈ employees self ∧ nom_complet emp = key
              ∧ h_shifts r = shifts_travailles_dans planning emp jours_semaine
              ∧ jours_travailles r = jours_travailles_dans planning emp jours_semaine)
      ∧ heures r = 8 * len (h_shifts r)
      ∧ 0 ≤ jours_travailles r ≤ 7
      ∧ 8 * jours_travailles r ≤ heures r ≤ 24 * jours_travailles r
      ∧ heures r ≤ 168.
Proof.
  split_and!.
  - intros emp Hemp. by apply heures_par_employe_present.
  - intros emp Hemp Hu. exists (heures_de planning emp).
    split; [by apply heures_par_employe_cle_unique |].
    pose proof (heures_de_bornes planning emp) as H. cbn zeta in H. tauto.
  - intros key r (emp & Hemp & Hkey & ->)%heures_par_employe_entree.
    pose proof (heures_de_bornes planning emp) as H. cbn zeta in H.
    split; [| tauto]. exists emp. tauto.
Qed.

(** X23. In the schedule extracted from any solution, every entry of
    ['heures_par_employe'] counts one shift per worked day, so its hours
    are exactly 8 times its worked days, and they are at most 8 times
    the [jours_travail_max_semaine] of an employee bearing the key of the
    entry: of the employee themselves when nobody else of the roster has
    the same ["prenom nom"]. *)
Theorem heures_solution self checkins checkouts :
  ∃ prob,
    probleme self checkins checkouts = Some prob
    ∧ ∀ varValue,
        solution varValue (constraints prob) = true →
        ∃ planning : Planning,
          _extraire_planning self (variables_decision self) varValue = Some planning
          ∧ (∀ key r,
               heures_par_employe (analyser_planning self planning) !! key = Some r →
               len (h_shifts r) = jours_travailles r
               ∧ heures r = 8 * jours_travailles r
               ∧ ∃ emp, emp ∈ employees self ∧ nom_complet emp = key
                        ∧ heures r ≤ 8 * Employee.jours_travail_max_semaine emp)
          ∧ (∀ emp, emp ∈ employees self → cle_unique self emp →
               ∃ r, heures_par_employe (analyser_planning self planning)
                      !! nom_complet emp = Some r
                    ∧ heures r = 8 * jours_travailles r
                    ∧ heures r ≤ 8 * Employee.jours_travail_max_semaine emp).
Proof.
  destruct (heures_de_solution self checkins checkouts) as (prob & Hprob & H).
  exists prob. split; [done |]. intros varValue Hsol.
  destruct (H varValue Hsol) as (planning & Hp & Hde). exists planning.
  split; [done |]. split.
  - intros key r (emp & Hemp & Hkey & ->)%heures_par_employe_entree.
    pose proof (Hde emp Hemp) as Hr. cbn zeta in Hr.
    split_and!; [tauto | tauto |]. exists emp. tauto.
  - intros emp Hemp Hu. exists (heures_de planning emp).
    split; [by apply heures_par_employe_cle_unique |].
    pose proof (Hde emp Hemp) as Hr. cbn zeta in Hr. tauto.
Qed.

(** The values [valeurs_completes] are a solution of the problem of
    [equipe_complete]: 33 assignments, 264 hours. *)
Lemma objectif_total_shifts_witness :
  ∃ prob (planning : Planning),
    probleme equipe_complete previsions_20 previsions_20 = Some prob
    ∧ solution valeurs_completes (constraints prob) = true
    ∧ _extraire_planning equipe_complete (variables_decision equipe_complete)
        valeurs_completes = Some planning
    ∧ somme valeurs_completes (objective prob) = 33
    ∧ total_shifts_semaine (statistiques_globales (analyser_planning equipe_complete planning))
      = 33
    ∧ total_heures_semaine (statistiques_globales (analyser_planning equipe_complete planning))
      = 264.
Proof.
  destruct (probleme_Some equipe_complete previsions_20 previsions_20)
    as (prob0 & Hprob0 & _).
  assert (solution valeurs_completes (constraints prob0) = true
          ∧ somme valeurs_completes (objective prob0) = 33) as [Hsol Hobj].
  { destruct prob0 as [obj cs]. vm_compute in Hprob0. injection Hprob0 as <- <-.
    split; vm_compute; reflexivity. }
  destruct (objectif_total_shifts equipe_complete previsions_20 previsions_20)
    as (prob & Hprob & H).
  rewrite Hprob0 in Hprob. injection Hprob as <-.
  destruct (H valeurs_completes Hsol) as (planning & Hp & Hs & Hh & _).
  exists prob0, planning.
  split; [exact Hprob0 |]. split; [exact Hsol |]. split; [exact Hp |].
  split; [exact Hobj |]. split; [by rewrite <- Hs |].
  rewrite Hh, Hobj. reflexivity.
Defined.
